(** * HotDog: the simulation core of the 3D snake game

    A shallow embedding of the game logic of [src/index.tsx] (module [Index])
    and of its near-duplicate [src/unnamed/part_000] (module [Part000]), and
    the properties of the specification checked against both.

    Conventions of the embedding.
    - Grid coordinates, scores, levels and millisecond quantities are JavaScript
      numbers holding integers far below 2^53; they are modelled in [Z].  The
      fields [x] and [z] of a position are [px] and [pz].
    - [timeLeftRef] holds seconds as a double and is decremented by fractions
      of a second; [timeLeft] is a binary64 value ([double]) and its
      arithmetic is that of IEEE 754, round to nearest, ties to even.
    - A React state cell and the ref that mirrors it through [useEffect]
      ([score]/[scoreRef], [level]/[levelRef], [gameState]/[gameStateRef])
      are one field of [State]; a functional update [setX(f)] is applied at
      once.
    - [Math.random] is an oracle [random : nat -> Q]: [random n] is the value
      of the n-th call made by the modelled code ([randomCalls] counts them);
      the draws of the cosmetic code are not part of the stream.
    - [Date.now()] is the argument [now] of a handler, read once per handler;
      the frame timestamp of [requestAnimationFrame] is the argument [time].
    - [setTimeout] callbacks are entries of the [timeouts] list; the browser
      runs the one that is due first with [runTimeout].
    - Meshes, particles, camera and audio are left out; [fireworkBursts]
      counts the calls of [spawnFirework]. *)

From Stdlib Require Import ZArith QArith Qround List Bool String Ascii Lia.
From Stdlib Require Import SpecFloat Sorted Permutation.
Import ListNotations.
Open Scope Z_scope.

(** ** Doubles

    The JavaScript numbers that do not stay integers.  [spec_float] is the
    standard library's specification of IEEE 754 floating-point values; with a
    precision of 53 bits and [emax = 1024] its operations are those of
    binary64. *)
Definition double : Type := spec_float.

(** The double nearest to an integer (the integer itself below 2^53). *)
Definition double_of_Z (z : Z) : double := binary_normalize 53 1024 z 0 false.

Definition double_sub : double -> double -> double := SFsub 53 1024.
Definition double_div : double -> double -> double := SFdiv 53 1024.

(** [a <= b]; false when one of them is NaN. *)
Definition double_leb : double -> double -> bool := SFleb.

(** The literal [0.1]: the double 0x1.999999999999ap-4, which is
    7205759403792794 * 2^-56. *)
Definition double_0_1 : double := S754_finite false 7205759403792794 (-56).

Arguments double_of_Z : simpl never.
Arguments double_sub : simpl never.
Arguments double_div : simpl never.
Arguments double_leb : simpl never.

(** ** Constants and data types *)

Definition GRID_SIZE : Z := 30.
Definition LEVEL_DURATION : Z := 25.

(** [type Position = { x: number; z: number }] *)
Record Position : Type := mkPosition { px : Z; pz : Z }.

Inductive GameState : Type :=
  START | PLAYING | PAUSED | LEVEL_TRANSITION | GAME_OVER.
Inductive PowerUpType : Type := MUSTARD | GHOST | BURGER.
Inductive FoodType : Type := HOTDOG | FRIES.

(** [interface PowerUp { x; z; type }] *)
Record PowerUp : Type := mkPowerUp { pu_pos : Position; pu_type : PowerUpType }.

(** [interface FoodItem { x; z; type; mesh }], without the mesh. *)
Record FoodItem : Type := mkFood { food_pos : Position; food_type : FoodType }.

(** The two kinds of callbacks handed to [setTimeout]. *)
Inductive Callback : Type := SpawnFirework | AdvanceLevel.

Definition pos_eqb (p q : Position) : bool :=
  (px p =? px q) && (pz p =? pz q).

Definition pos_add (p d : Position) : Position :=
  {| px := px p + px d; pz := pz p + pz d |}.

(** ** Array helpers *)

(** [arr.some((item, index) => f item index)], starting at index [i]. *)
Fixpoint some_indexed {A : Type} (f : A -> nat -> bool) (i : nat) (l : list A) : bool :=
  match l with
  | [] => false
  | a :: l' => f a i || some_indexed f (S i) l'
  end.

(** [arr.findIndex(f)]; [None] stands for the result -1. *)
Fixpoint findIndex {A : Type} (f : A -> bool) (l : list A) : option nat :=
  match l with
  | [] => None
  | a :: l' => if f a then Some O else option_map S (findIndex f l')
  end.

(** [arr.splice(i, 1)] *)
Fixpoint splice1 {A : Type} (i : nat) (l : list A) : list A :=
  match l, i with
  | [], _ => []
  | _ :: l', O => l'
  | a :: l', S i' => a :: splice1 i' l'
  end.

(** ** getRandomPosition (identical in both files) *)

Section RandomPosition.
Variable random : nat -> Q.

(** [Math.floor(Math.random() * GRID_SIZE) - GRID_SIZE / 2], the draw being
    call number [n]. *)
Definition randomCoordinate (n : nat) : Z :=
  Qfloor (random n * inject_Z GRID_SIZE) - GRID_SIZE / 2.

Definition isOccupied (occupied : list Position) (pos : Position) : bool :=
  existsb (fun p => pos_eqb p pos) occupied.

(** The do-while loop.  [fuel] bounds the iterations the model may run;
    [None] means the bound was reached with the loop still going.  The result
    holds the position, the final value of [tries] and the number of calls of
    [Math.random] made so far. *)
Fixpoint getRandomPosition_loop (fuel : nat) (occupied : list Position)
    (tries : Z) (calls : nat) : option (Position * Z * nat) :=
  match fuel with
  | O => None
  | S fuel' =>
      let pos := {| px := randomCoordinate calls;
                    pz := randomCoordinate (S calls) |} in
      let tries' := tries + 1 in
      if isOccupied occupied pos && (tries' <? 100)
      then getRandomPosition_loop fuel' occupied tries' (S (S calls))
      else Some (pos, tries', S (S calls))
  end.

Definition getRandomPosition (occupied : list Position) (calls : nat)
    : option (Position * Z * nat) :=
  getRandomPosition_loop 100 occupied 0 calls.
End RandomPosition.

(** A cell the spawner can produce. *)
Definition spawnable (p : Position) : Prop :=
  -15 <= px p <= 14 /\ -15 <= pz p <= 14.

(** The oracle respects the contract of [Math.random]: a value in [0, 1). *)
Definition random_in_unit (random : nat -> Q) : Prop :=
  forall n, (0 <= random n)%Q /\ (random n < 1)%Q.

(** [a < b] on the rationals, as a boolean. *)
Definition Qltb (a b : Q) : bool := negb (Qle_bool b a).

(** ** The simulation state

    One field per [useRef] / [useState] cell the game logic reads or writes.
    [timeLeft] is [timeLeftRef], in seconds; [timeouts] holds the pending
    [setTimeout] callbacks with the time at which each is due. *)
Record State : Type := mkState {
  gameState : GameState;
  score : Z;
  level : Z;
  timeLeft : double;
  snake : list Position;
  direction : Position;
  moveQueue : list Position;
  foods : list FoodItem;
  powerUp : option PowerUp;
  ghostModeEndTime : Z;
  speedBoostEndTime : Z;
  dogPulseEndTime : Z;
  lastMoveTime : Z;
  moveInterval : Z;
  baseLevelSpeed : Z;
  levelStartScore : Z;
  timeouts : list (Z * Callback);
  fireworkBursts : nat;
  randomCalls : nat
}.

(** Field updates. *)
Definition set_gameState (v : GameState) (st : State) : State :=
  mkState v (score st) (level st) (timeLeft st) (snake st) (direction st)
    (moveQueue st) (foods st) (powerUp st) (ghostModeEndTime st)
    (speedBoostEndTime st) (dogPulseEndTime st) (lastMoveTime st)
    (moveInterval st) (baseLevelSpeed st) (levelStartScore st) (timeouts st)
    (fireworkBursts st) (randomCalls st).
Definition set_score (v : Z) (st : State) : State :=
  mkState (gameState st) v (level st) (timeLeft st) (snake st) (direction st)
    (moveQueue st) (foods st) (powerUp st) (ghostModeEndTime st)
    (speedBoostEndTime st) (dogPulseEndTime st) (lastMoveTime st)
    (moveInterval st) (baseLevelSpeed st) (levelStartScore st) (timeouts st)
    (fireworkBursts st) (randomCalls st).
Definition set_level (v : Z) (st : State) : State :=
  mkState (gameState st) (score st) v (timeLeft st) (snake st) (direction st)
    (moveQueue st) (foods st) (powerUp st) (ghostModeEndTime st)
    (speedBoostEndTime st) (dogPulseEndTime st) (lastMoveTime st)
    (moveInterval st) (baseLevelSpeed st) (levelStartScore st) (timeouts st)
    (fireworkBursts st) (randomCalls st).
Definition set_timeLeft (v : double) (st : State) : State :=
  mkState (gameState st) (score st) (level st) v (snake st) (direction st)
    (moveQueue st) (foods st) (powerUp st) (ghostModeEndTime st)
    (speedBoostEndTime st) (dogPulseEndTime st) (lastMoveTime st)
    (moveInterval st) (baseLevelSpeed st) (levelStartScore st) (timeouts st)
    (fireworkBursts st) (randomCalls st).
Definition set_snake (v : list Position) (st : State) : State :=
  mkState (gameState st) (score st) (level st) (timeLeft st) v (direction st)
    (moveQueue st) (foods st) (powerUp st) (ghostModeEndTime st)
    (speedBoostEndTime st) (dogPulseEndTime st) (lastMoveTime st)
    (moveInterval st) (baseLevelSpeed st) (levelStartScore st) (timeouts st)
    (fireworkBursts st) (randomCalls st).
Definition set_direction (v : Position) (st : State) : State :=
  mkState (gameState st) (score st) (level st) (timeLeft st) (snake st) v
    (moveQueue st) (foods st) (powerUp st) (ghostModeEndTime st)
    (speedBoostEndTime st) (dogPulseEndTime st) (lastMoveTime st)
    (moveInterval st) (baseLevelSpeed st) (levelStartScore st) (timeouts st)
    (fireworkBursts st) (randomCalls st).
Definition set_moveQueue (v : list Position) (st : State) : State :=
  mkState (gameState st) (score st) (level st) (timeLeft st) (snake st)
    (direction st) v (foods st) (powerUp st) (ghostModeEndTime st)
    (speedBoostEndTime st) (dogPulseEndTime st) (lastMoveTime st)
    (moveInterval st) (baseLevelSpeed st) (levelStartScore st) (timeouts st)
    (fireworkBursts st) (randomCalls st).
Definition set_foods (v : list FoodItem) (st : State) : State :=
  mkState (gameState st) (score st) (level st) (timeLeft st) (snake st)
    (direction st) (moveQueue st) v (powerUp st) (ghostModeEndTime st)
    (speedBoostEndTime st) (dogPulseEndTime st) (lastMoveTime st)
    (moveInterval st) (baseLevelSpeed st) (levelStartScore st) (timeouts st)
    (fireworkBursts st) (randomCalls st).
Definition set_powerUp (v : option PowerUp) (st : State) : State :=
  mkState (gameState st) (score st) (level st) (timeLeft st) (snake st)
    (direction st) (moveQueue st) (foods st) v (ghostModeEndTime st)
    (speedBoostEndTime st) (dogPulseEndTime st) (lastMoveTime st)
    (moveInterval st) (baseLevelSpeed st) (levelStartScore st) (timeouts st)
    (fireworkBursts st) (randomCalls st).
Definition set_ghostModeEndTime (v : Z) (st : State) : State :=
  mkState (gameState st) (score st) (level st) (timeLeft st) (snake st)
    (direction st) (moveQueue st) (foods st) (powerUp st) v
    (speedBoostEndTime st) (dogPulseEndTime st) (lastMoveTime st)
    (moveInterval st) (baseLevelSpeed st) (levelStartScore st) (timeouts st)
    (fireworkBursts st) (randomCalls st).
Definition set_speedBoostEndTime (v : Z) (st : State) : State :=
  mkState (gameState st) (score st) (level st) (timeLeft st) (snake st)
    (direction st) (moveQueue st) (foods st) (powerUp st)
    (ghostModeEndTime st) v (dogPulseEndTime st) (lastMoveTime st)
    (moveInterval st) (baseLevelSpeed st) (levelStartScore st) (timeouts st)
    (fireworkBursts st) (randomCalls st).
Definition set_dogPulseEndTime (v : Z) (st : State) : State :=
  mkState (gameState st) (score st) (level st) (timeLeft st) (snake st)
    (direction st) (moveQueue st) (foods st) (powerUp st)
    (ghostModeEndTime st) (speedBoostEndTime st) v (lastMoveTime st)
    (moveInterval st) (baseLevelSpeed st) (levelStartScore st) (timeouts st)
    (fireworkBursts st) (randomCalls st).
Definition set_lastMoveTime (v : Z) (st : State) : State :=
  mkState (gameState st) (score st) (level st) (timeLeft st) (snake st)
    (direction st) (moveQueue st) (foods st) (powerUp st)
    (ghostModeEndTime st) (speedBoostEndTime st) (dogPulseEndTime st) v
    (moveInterval st) (baseLevelSpeed st) (levelStartScore st) (timeouts st)
    (fireworkBursts st) (randomCalls st).
Definition set_moveInterval (v : Z) (st : State) : State :=
  mkState (gameState st) (score st) (level st) (timeLeft st) (snake st)
    (direction st) (moveQueue st) (foods st) (powerUp st)
    (ghostModeEndTime st) (speedBoostEndTime st) (dogPulseEndTime st)
    (lastMoveTime st) v (baseLevelSpeed st) (levelStartScore st)
    (timeouts st) (fireworkBursts st) (randomCalls st).
Definition set_baseLevelSpeed (v : Z) (st : State) : State :=
  mkState (gameState st) (score st) (level st) (timeLeft st) (snake st)
    (direction st) (moveQueue st) (foods st) (powerUp st)
    (ghostModeEndTime st) (speedBoostEndTime st) (dogPulseEndTime st)
    (lastMoveTime st) (moveInterval st) v (levelStartScore st) (timeouts st)
    (fireworkBursts st) (randomCalls st).
Definition set_levelStartScore (v : Z) (st : State) : State :=
  mkState (gameState st) (score st) (level st) (timeLeft st) (snake st)
    (direction st) (moveQueue st) (foods st) (powerUp st)
    (ghostModeEndTime st) (speedBoostEndTime st) (dogPulseEndTime st)
    (lastMoveTime st) (moveInterval st) (baseLevelSpeed st) v (timeouts st)
    (fireworkBursts st) (randomCalls st).
Definition set_timeouts (v : list (Z * Callback)) (st : State) : State :=
  mkState (gameState st) (score st) (level st) (timeLeft st) (snake st)
    (direction st) (moveQueue st) (foods st) (powerUp st)
    (ghostModeEndTime st) (speedBoostEndTime st) (dogPulseEndTime st)
    (lastMoveTime st) (moveInterval st) (baseLevelSpeed st)
    (levelStartScore st) v (fireworkBursts st) (randomCalls st).
Definition set_fireworkBursts (v : nat) (st : State) : State :=
  mkState (gameState st) (score st) (level st) (timeLeft st) (snake st)
    (direction st) (moveQueue st) (foods st) (powerUp st)
    (ghostModeEndTime st) (speedBoostEndTime st) (dogPulseEndTime st)
    (lastMoveTime st) (moveInterval st) (baseLevelSpeed st)
    (levelStartScore st) (timeouts st) v (randomCalls st).
Definition set_randomCalls (v : nat) (st : State) : State :=
  mkState (gameState st) (score st) (level st) (timeLeft st) (snake st)
    (direction st) (moveQueue st) (foods st) (powerUp st)
    (ghostModeEndTime st) (speedBoostEndTime st) (dogPulseEndTime st)
    (lastMoveTime st) (moveInterval st) (baseLevelSpeed st)
    (levelStartScore st) (timeouts st) (fireworkBursts st) v.

(** The state of a freshly mounted component (the initial values of the refs). *)
Definition initialState : State :=
  {| gameState := START; score := 0; level := 1;
     timeLeft := double_of_Z LEVEL_DURATION;
     snake := [ {| px := 0; pz := 0 |} ];
     direction := {| px := 0; pz := -1 |};
     moveQueue := []; foods := []; powerUp := None;
     ghostModeEndTime := 0; speedBoostEndTime := 0; dogPulseEndTime := 0;
     lastMoveTime := 0; moveInterval := 200; baseLevelSpeed := 200;
     levelStartScore := 0; timeouts := []; fireworkBursts := 0%nat;
     randomCalls := 0%nat |}.

(** The cells of the live food items and of the live power-up, as the spread
    expressions [...foodsRef.current] and [[powerUpRef.current]] build them. *)
Definition foodCells (fs : list FoodItem) : list Position := map food_pos fs.

Definition powerUpCells (p : option PowerUp) : list Position :=
  match p with Some u => [pu_pos u] | None => [] end.

(** Keys of the keyboard handlers ([e.key] / [e.code]; a letter stands for both
    of its cases) and the four on-screen buttons. *)
Inductive Key : Type :=
  | KeyF1 | KeyF2 | KeyF3 | KeyF4 | KeyEscape | KeySpace | KeyEnter
  | ArrowUp | ArrowDown | ArrowLeft | ArrowRight
  | KeyW | KeyA | KeyS | KeyD | KeyP | KeyOther.

Inductive TouchButton : Type := UP | DOWN | LEFT | RIGHT.

Definition keyDirection (k : Key) : option Position :=
  match k with
  | ArrowUp | KeyW => Some {| px := 0; pz := -1 |}
  | ArrowDown | KeyS => Some {| px := 0; pz := 1 |}
  | ArrowLeft | KeyA => Some {| px := -1; pz := 0 |}
  | ArrowRight | KeyD => Some {| px := 1; pz := 0 |}
  | _ => None
  end.

Definition touchDirection (b : TouchButton) : Position :=
  match b with
  | UP => {| px := 0; pz := -1 |}
  | DOWN => {| px := 0; pz := 1 |}
  | LEFT => {| px := -1; pz := 0 |}
  | RIGHT => {| px := 1; pz := 0 |}
  end.

(** [queue.length > 0 ? queue[queue.length - 1] : directionRef.current] *)
Definition lastMove (st : State) : Position := last (moveQueue st) (direction st).

(** The exact negation of a direction. *)
Definition negation (d : Position) : Position := {| px := - px d; pz := - pz d |}.

(** ** Events

    What the browser delivers to the component: a frame callback, a key press,
    a press on one of the on-screen direction buttons, a due timer, and the
    clicks on the buttons of the overlays. *)
Inductive Event : Type :=
  | Frame (time now : Z)
  | KeyDown (time : Z) (key : Key)
  | PointerDown (button : TouchButton)
  | Timer (now : Z)
  | ClickPlay
  | ClickPause (time : Z)
  | ClickRetry
  | ClickQuit.

(** The pending timeout that is due first (the earliest registered one among
    equals), with its index. *)
Fixpoint earliestTimeout (l : list (Z * Callback)) : option (nat * (Z * Callback)) :=
  match l with
  | [] => None
  | (due, cb) :: l' =>
      match earliestTimeout l' with
      | Some (i, (due', cb')) =>
          if due' <? due then Some (S i, (due', cb')) else Some (O, (due, cb))
      | None => Some (O, (due, cb))
      end
  end.

(** * src/index.tsx *)
Module Index.
Section Game.
Variable random : nat -> Q.

(** *** Spawner

    [getRandomPosition] returns within its 100 tries ([getRandomPosition_some]
    below); the [None] branches of the spawner are never taken. *)

(** [spawnPowerUp]: the candidate avoids the snake and the food. *)
Definition spawnPowerUp (st : State) : State :=
  let occupied := snake st ++ foodCells (foods st) in
  match getRandomPosition random occupied (randomCalls st) with
  | None => st
  | Some (pos, _, calls) =>
      let rand := random calls in
      let type := if Qltb rand 0.4 then MUSTARD
                  else if Qltb rand 0.7 then GHOST else BURGER in
      set_powerUp (Some {| pu_pos := pos; pu_type := type |})
        (set_randomCalls (S calls) st)
  end.

(** The body of the [while] loop of [spawnFood]: one food item is pushed. *)
Definition spawnFood_body (st : State) : State :=
  let occupied := snake st ++ foodCells (foods st) ++ powerUpCells (powerUp st) in
  match getRandomPosition random occupied (randomCalls st) with
  | None => st
  | Some (pos, _, calls) =>
      let isFries := Qltb (random calls) 0.25 in
      let type := if isFries then FRIES else HOTDOG in
      set_foods (foods st ++ [ {| food_pos := pos; food_type := type |} ])
        (set_randomCalls (S calls) st)
  end.

(** [while (foodsRef.current.length < desiredCount) { ... }] *)
Fixpoint spawnFood_loop (fuel : nat) (desiredCount : Z) (st : State) : State :=
  match fuel with
  | O => st
  | S fuel' =>
      if Z.of_nat (List.length (foods st)) <? desiredCount
      then spawnFood_loop fuel' desiredCount (spawnFood_body st)
      else st
  end.

(** [spawnFood]: fill up to [level * 5] items, then maybe spawn a power-up.
    The loop pushes one item per round, so it runs
    [desiredCount - length] times. *)
Definition spawnFood (st : State) : State :=
  let desiredCount := level st * 5 in
  let st1 := spawnFood_loop
               (Z.to_nat (desiredCount - Z.of_nat (List.length (foods st))))
               desiredCount st in
  match powerUp st1 with
  | Some _ => st1
  | None =>
      let st2 := set_randomCalls (S (randomCalls st1)) st1 in
      if Qltb (random (randomCalls st1)) 0.3 then spawnPowerUp st2 else st2
  end.

(** *** Game control *)

Definition resetGame (fullReset : bool) (st : State) : State :=
  let st := set_gameState PLAYING st in
  let st :=
    if fullReset then
      set_speedBoostEndTime 0 (set_ghostModeEndTime 0 (set_levelStartScore 0
        (set_timeLeft (double_of_Z LEVEL_DURATION) (set_level 1 (set_score 0
          (set_baseLevelSpeed 200 (set_moveInterval 200 st)))))))
    else st in
  let st := set_moveQueue [] (set_direction {| px := 0; pz := -1 |} st) in
  let st := set_snake [ {| px := 0; pz := 2 |}; {| px := 0; pz := 3 |};
                        {| px := 0; pz := 4 |} ] st in
  let st := set_powerUp None (set_foods [] st) in
  spawnFood st.

Definition startGame (st : State) : State := resetGame true st.

Definition togglePause (st : State) : State :=
  match gameState st with
  | PLAYING => set_gameState PAUSED st
  | PAUSED => set_gameState PLAYING st
  | _ => st
  end.

(** The "QUIT TO MENU" and "MAIN MENU" buttons. *)
Definition quitToMenu (st : State) : State := set_gameState START st.

Definition retryLevel (st : State) : State :=
  let st := set_score (levelStartScore st) st in
  let st := set_timeLeft (double_of_Z LEVEL_DURATION) st in
  let st := set_moveInterval (baseLevelSpeed st) st in
  let st := resetGame false st in
  set_gameState PLAYING st.

(** [nextLevel]: fifteen firework timers, 300 ms apart, and the deferred
    level change after 4000 ms. *)
Definition nextLevel (now : Z) (st : State) : State :=
  let st := set_gameState LEVEL_TRANSITION st in
  let fireworks :=
    map (fun i => (now + Z.of_nat i * 300, SpawnFirework)) (seq 0 15) in
  set_timeouts (timeouts st ++ fireworks ++ [(now + 4000, AdvanceLevel)]) st.

(** The bodies of the two [setTimeout] callbacks of [nextLevel]. *)
Definition runCallback (cb : Callback) (st : State) : State :=
  match cb with
  | SpawnFirework => set_fireworkBursts (S (fireworkBursts st)) st
  | AdvanceLevel =>
      let st := set_level (level st + 1) st in
      let st := set_baseLevelSpeed (Z.max 50 (baseLevelSpeed st - 15)) st in
      let st := set_moveInterval (baseLevelSpeed st) st in
      let st := set_timeLeft (double_of_Z LEVEL_DURATION) st in
      let st := set_levelStartScore (score st) st in
      let st := resetGame false st in
      set_gameState PLAYING st
  end.

(** *** The tick *)

(** Step 5 of [updateGameLogic], the effect of the power-up that was eaten:
    500 points for every kind, then the timers of the kind. *)
Definition consumePowerUp (now : Z) (type : PowerUpType) (st : State) : State :=
  let st := set_score (score st + 500) st in
  match type with
  | MUSTARD => st
  | GHOST => set_ghostModeEndTime (now + 10000) st
  | BURGER =>
      set_dogPulseEndTime (now + 1000) (set_speedBoostEndTime (now + 8000) st)
  end.

(** Step 1: [if (moveQueue.length > 0) direction = moveQueue.shift()]. *)
Definition dequeueDirection (st : State) : State :=
  match moveQueue st with
  | [] => st
  | d :: rest => set_moveQueue rest (set_direction d st)
  end.

Definition hitWall (nextHead : Position) : bool :=
  (px nextHead >? GRID_SIZE / 2) || (px nextHead <? (- GRID_SIZE) / 2)
  || (pz nextHead >? GRID_SIZE / 2) || (pz nextHead <? (- GRID_SIZE) / 2).

Definition hitSelf (body : list Position) (nextHead : Position) : bool :=
  some_indexed
    (fun segment index => negb (index =? 0)%nat && pos_eqb segment nextHead)
    0 body.

(** Steps 3 and 4 of [updateGameLogic]: the new head is prepended; a food item
    on it is eaten and replaced, otherwise the tail is popped. *)
Definition foodCollision (nextHead : Position) (st : State) : State :=
  let newSnake := nextHead :: snake st in
  match findIndex (fun f => pos_eqb (food_pos f) nextHead) (foods st) with
  | Some foodIndex =>
      match nth_error (foods st) foodIndex with
      | Some eatenFood =>
          let points :=
            match food_type eatenFood with FRIES => 150 | HOTDOG => 100 end in
          let st := set_score (score st + points) st in
          let st := set_moveInterval (Z.max 50 (moveInterval st - 2)) st in
          let st := set_foods (splice1 foodIndex (foods st)) st in
          let st := spawnFood st in
          set_snake newSnake st
      | None => st
      end
  | None => set_snake (removelast newSnake) st
  end.

(** Step 5: the power-up on the new head, if any, is eaten. *)
Definition powerUpCollision (now : Z) (nextHead : Position) (st : State) : State :=
  match powerUp st with
  | Some p =>
      if pos_eqb nextHead (pu_pos p)
      then set_powerUp None (consumePowerUp now (pu_type p) st)
      else st
  | None => st
  end.

(** Step 6: the countdown and the end of the level. *)
Definition updateTimer (now : Z) (st : State) : State :=
  let st :=
    set_timeLeft
      (double_sub (timeLeft st)
         (double_div (double_of_Z (moveInterval st)) (double_of_Z 1000))) st in
  if double_leb (timeLeft st) (double_of_Z 0) then nextLevel now st else st.

(** Step 2: the collision test. *)
Definition collides (now : Z) (nextHead : Position) (st : State) : bool :=
  hitWall nextHead
  || (hitSelf (snake st) nextHead && (now >? ghostModeEndTime st)).

(** [updateGameLogic].  On an empty snake the source throws at
    [currentHead.x], after the dequeue; the frame ends there. *)
Definition updateGameLogic (now : Z) (st : State) : State :=
  let st := dequeueDirection st in
  match snake st with
  | [] => st
  | currentHead :: _ =>
      let nextHead := pos_add currentHead (direction st) in
      if collides now nextHead st
      then set_gameState GAME_OVER st
      else
        updateTimer now
          (powerUpCollision now nextHead (foodCollision nextHead st))
  end.

(** The interval that gates a tick in [animate]. *)
Definition currentInterval (now : Z) (st : State) : Z :=
  let isSpeedBoostActive := now <? speedBoostEndTime st in
  if isSpeedBoostActive then 60 else moveInterval st.

(** The simulation part of the frame callback [animate]. *)
Definition animate (time now : Z) (st : State) : State :=
  match gameState st with
  | PLAYING =>
      let dt := time - lastMoveTime st in
      if dt >? currentInterval now st
      then set_lastMoveTime time (updateGameLogic now st)
      else st
  | _ => st
  end.

(** *** Input *)

(** The direction part of [handleKeyDown] (lines 1331-1342). *)
Definition enqueueDirection (nextDir : Position) (st : State) : State :=
  let lastMove := lastMove st in
  if negb (px nextDir =? - px lastMove) || negb (pz nextDir =? - pz lastMove)
  then
    if (List.length (moveQueue st) <? 3)%nat
    then set_moveQueue (moveQueue st ++ [nextDir]) st
    else st
  else st.

Definition handleKeyDown (key : Key) (st : State) : State :=
  match key with
  | KeyF2 => startGame st
  | KeyF3 => togglePause st
  | KeyF4 => st
  | KeyEscape => togglePause st
  | _ =>
      match gameState st with
      | START | GAME_OVER =>
          match key with
          | KeySpace | KeyEnter | KeyF1 => startGame st
          | _ => st
          end
      | PLAYING =>
          match keyDirection key with
          | Some nextDir => enqueueDirection nextDir st
          | None => st
          end
      | _ => st
      end
  end.

(** The [onPointerDown] handlers of the touch overlay (lines 1488-1492):
    a bare [moveQueueRef.current.push(...)]. *)
Definition touchControl (b : TouchButton) (st : State) : State :=
  set_moveQueue (moveQueue st ++ [touchDirection b]) st.
(** *** The component as a transition system *)

(** The browser runs the timeout that is due first, if one is due at [now]. *)
Definition runTimeout (now : Z) (st : State) : State :=
  match earliestTimeout (timeouts st) with
  | Some (i, (due, cb)) =>
      if due <=? now
      then runCallback cb (set_timeouts (splice1 i (timeouts st)) st)
      else st
  | None => st
  end.

(** The overlays show "PLAY GAME" on START, "NEW GAME", "RETRY LEVEL" and
    "MAIN MENU" on GAME_OVER, "QUIT TO MENU" on PAUSED; the pause button and
    the touch buttons are always there. *)
Definition step (e : Event) (st : State) : State :=
  match e with
  | Frame time now => animate time now st
  | KeyDown _ key => handleKeyDown key st
  | PointerDown button => touchControl button st
  | Timer now => runTimeout now st
  | ClickPlay =>
      match gameState st with
      | START | GAME_OVER => startGame st
      | _ => st
      end
  | ClickPause _ => togglePause st
  | ClickRetry =>
      match gameState st with
      | GAME_OVER => retryLevel st
      | _ => st
      end
  | ClickQuit =>
      match gameState st with
      | PAUSED | GAME_OVER => quitToMenu st
      | _ => st
      end
  end.

Definition run (events : list Event) (st : State) : State :=
  fold_left (fun s e => step e s) events st.
End Game.
End Index.

(** * src/unnamed/part_000 *)
Module Part000.
Section Game.
Variable random : nat -> Q.

(** *** Spawner *)

(** One round of the [for] loop of [spawnFood]. *)
Definition spawnFood_body (st : State) : State :=
  let occupied := snake st ++ foodCells (foods st) ++ powerUpCells (powerUp st) in
  match getRandomPosition random occupied (randomCalls st) with
  | None => st
  | Some (pos, _, calls) =>
      let isFries := Qltb (random calls) 0.25 in
      let type := if isFries then FRIES else HOTDOG in
      set_foods (foods st ++ [ {| food_pos := pos; food_type := type |} ])
        (set_randomCalls (S calls) st)
  end.

Fixpoint spawnFood_rounds (rounds : nat) (st : State) : State :=
  match rounds with
  | O => st
  | S rounds' => spawnFood_rounds rounds' (spawnFood_body st)
  end.

(** [spawnFood(count)]: [for (let i = 0; i < count; i++) { ... }] *)
Definition spawnFood (count : Z) (st : State) : State :=
  spawnFood_rounds (Z.to_nat count) st.

(** [types[Math.floor(Math.random() * types.length)]]; the index is 0, 1 or 2
    for a draw in [0, 1). *)
Definition pickPowerUpType (r : Q) : PowerUpType :=
  nth (Z.to_nat (Qfloor (r * 3))) [MUSTARD; GHOST; BURGER] BURGER.

(** [spawnPowerUp]: [if (Math.random() > 0.3) return;] then a candidate that
    avoids the snake and the food.  A live power-up is replaced. *)
Definition spawnPowerUp (st : State) : State :=
  let r := random (randomCalls st) in
  let st := set_randomCalls (S (randomCalls st)) st in
  if Qltb 0.3 r then st
  else
    let occupied := snake st ++ foodCells (foods st) in
    match getRandomPosition random occupied (randomCalls st) with
    | None => st
    | Some (pos, _, calls) =>
        let type := pickPowerUpType (random calls) in
        set_powerUp (Some {| pu_pos := pos; pu_type := type |})
          (set_randomCalls (S calls) st)
    end.

Definition handlePowerUp (now : Z) (type : PowerUpType) (st : State) : State :=
  match type with
  | MUSTARD => set_score (score st + 500) st
  | GHOST =>
      set_score (score st + 200) (set_ghostModeEndTime (now + 10000) st)
  | BURGER =>
      let st := set_score (score st + 300) st in
      let st := set_speedBoostEndTime (now + 8000) st in
      set_dogPulseEndTime (now + 2000) st
  end.

(** *** Game control *)

Definition triggerCrash (st : State) : State := set_gameState GAME_OVER st.

(** [finishLevel]: five firework timers and the deferred [startLevel]
    after 3000 ms. *)
Definition finishLevel (now : Z) (st : State) : State :=
  let st := set_gameState LEVEL_TRANSITION st in
  let fireworks :=
    map (fun i => (now + Z.of_nat i * 300, SpawnFirework)) (seq 0 5) in
  set_timeouts (timeouts st ++ fireworks ++ [(now + 3000, AdvanceLevel)]) st.

(** [resetGame(lvl)].  The power-up mesh is removed; [powerUpRef] is kept. *)
Definition resetGame (lvl : Z) (st : State) : State :=
  let st := set_level lvl st in
  let st :=
    if lvl =? 1 then set_levelStartScore 0 (set_score 0 st)
    else set_levelStartScore (score st) st in
  let st := set_snake [ {| px := 0; pz := 0 |} ] st in
  let st := set_moveQueue [] (set_direction {| px := 0; pz := -1 |} st) in
  let st := set_timeLeft (double_of_Z LEVEL_DURATION) st in
  let st := set_baseLevelSpeed (Z.max 80 (200 - (lvl - 1) * 20)) st in
  let st := set_moveInterval (baseLevelSpeed st) st in
  let st := set_dogPulseEndTime 0
              (set_speedBoostEndTime 0 (set_ghostModeEndTime 0 st)) in
  let st := set_foods [] st in
  spawnFood (lvl * 5) st.

Definition startGame (st : State) : State :=
  resetGame 1 (set_gameState PLAYING st).

Definition startLevel (lvl : Z) (st : State) : State :=
  resetGame lvl (set_gameState PLAYING st).

(** [togglePause]; [time] is [performance.now()]. *)
Definition togglePause (time : Z) (st : State) : State :=
  match gameState st with
  | PLAYING => set_gameState PAUSED st
  | PAUSED => set_lastMoveTime time (set_gameState PLAYING st)
  | _ => st
  end.

Definition quitToMenu (st : State) : State := set_gameState START st.

Definition retryLevel (st : State) : State :=
  let st := set_gameState PLAYING st in
  let st := set_score (levelStartScore st) st in
  let st := set_snake [ {| px := 0; pz := 0 |} ] st in
  let st := set_moveQueue [] (set_direction {| px := 0; pz := -1 |} st) in
  let st := set_timeLeft (double_of_Z LEVEL_DURATION) st in
  let st := set_moveInterval (baseLevelSpeed st) st in
  let st := set_foods [] st in
  spawnFood (level st * 5) st.

(** The bodies of the two [setTimeout] callbacks of [finishLevel]. *)
Definition runCallback (cb : Callback) (st : State) : State :=
  match cb with
  | SpawnFirework => set_fireworkBursts (S (fireworkBursts st)) st
  | AdvanceLevel => startLevel (level st + 1) st
  end.

(** *** The tick *)

Definition dequeueDirection (st : State) : State :=
  match moveQueue st with
  | [] => st
  | d :: rest => set_moveQueue rest (set_direction d st)
  end.

Definition hitWall (newHead : Position) : bool :=
  (px newHead <? (- GRID_SIZE) / 2) || (px newHead >=? GRID_SIZE / 2)
  || (pz newHead <? (- GRID_SIZE) / 2) || (pz newHead >=? GRID_SIZE / 2).

Definition hitSelf (body : list Position) (newHead : Position) : bool :=
  some_indexed
    (fun p i => negb (i =? List.length body - 1)%nat && pos_eqb p newHead)
    0 body.

(** "Eat Food": a food item on the new head is eaten and replaced, and a
    power-up may be spawned; the flag is [grown]. *)
Definition eatFood (newHead : Position) (st : State) : State * bool :=
  match findIndex (fun f => pos_eqb (food_pos f) newHead) (foods st) with
  | Some foodIndex =>
      match nth_error (foods st) foodIndex with
      | Some eatenFood =>
          let points :=
            match food_type eatenFood with FRIES => 150 | HOTDOG => 100 end in
          let st := set_score (score st + points) st in
          let st := set_moveInterval (Z.max 50 (moveInterval st - 2)) st in
          let st := set_foods (splice1 foodIndex (foods st)) st in
          let st := spawnFood 1 st in
          let st := spawnPowerUp st in
          (st, true)
      | None => (st, false)
      end
  | None => (st, false)
  end.

(** "Eat PowerUp": the power-up on the new head, if any, is eaten. *)
Definition eatPowerUp (now : Z) (newHead : Position) (st : State) : State :=
  match powerUp st with
  | Some p =>
      if pos_eqb newHead (pu_pos p)
      then set_powerUp None (handlePowerUp now (pu_type p) st)
      else st
  | None => st
  end.

(** The wall test and the self test. *)
Definition collides (now : Z) (newHead : Position) (st : State) : bool :=
  hitWall newHead
  || (let isGhost := now <? ghostModeEndTime st in
      negb isGhost && hitSelf (snake st) newHead).

(** [updateGameLogic].  The countdown runs first, by a fixed tenth of a
    second; when it has run out the tick ends in [finishLevel]. *)
Definition updateGameLogic (now : Z) (st : State) : State :=
  let st := set_timeLeft (double_sub (timeLeft st) double_0_1) st in
  if double_leb (timeLeft st) (double_of_Z 0) then finishLevel now st
  else
    let st := dequeueDirection st in
    match snake st with
    | [] => st
    | head :: _ =>
        let newHead := pos_add head (direction st) in
        if collides now newHead st then triggerCrash st
        else
          let newSnake := newHead :: snake st in
          let '(st, grown) := eatFood newHead st in
          let st := eatPowerUp now newHead st in
          set_snake (if grown then newSnake else removelast newSnake) st
    end.

Definition currentInterval (now : Z) (st : State) : Z :=
  let isSpeedBoostActive := now <? speedBoostEndTime st in
  if isSpeedBoostActive then 60 else moveInterval st.

Definition animate (time now : Z) (st : State) : State :=
  match gameState st with
  | PLAYING =>
      let dt := time - lastMoveTime st in
      if dt >? currentInterval now st
      then set_lastMoveTime time (updateGameLogic now st)
      else st
  | _ => st
  end.

(** *** Input *)

(** The validation shared by [handleKeyDown] and [handleTouch]: a request on
    the axis of the last move is dropped, any other is pushed. *)
Definition enqueueDirection (intent : Position) (st : State) : State :=
  let lastMove := lastMove st in
  if negb (px lastMove =? 0) && negb (px intent =? 0) then st
  else if negb (pz lastMove =? 0) && negb (pz intent =? 0) then st
  else set_moveQueue (moveQueue st ++ [intent]) st.

(** [handleKeyDown]; the closing test reads the [gameState] of the render the
    handler was registered in, that is the state before the key press. *)
Definition handleKeyDown (time : Z) (key : Key) (st : State) : State :=
  match key with
  | KeyF1 =>
      match gameState st with
      | START | GAME_OVER => startGame st
      | _ => st
      end
  | KeyF2 => startGame st
  | KeyF3 => togglePause time st
  | KeyF4 => st
  | KeySpace | KeyEnter =>
      match gameState st with
      | START => startGame st
      | GAME_OVER => retryLevel st
      | _ => st
      end
  | KeyEscape | KeyP =>
      match gameState st with
      | PLAYING | PAUSED => togglePause time st
      | _ => st
      end
  | _ =>
      match gameState st with
      | PLAYING =>
          match keyDirection key with
          | Some intent => enqueueDirection intent st
          | None => st
          end
      | _ => st
      end
  end.

Definition handleTouch (dir : TouchButton) (st : State) : State :=
  match gameState st with
  | PLAYING => enqueueDirection (touchDirection dir) st
  | _ => st
  end.
(** *** The component as a transition system *)

Definition runTimeout (now : Z) (st : State) : State :=
  match earliestTimeout (timeouts st) with
  | Some (i, (due, cb)) =>
      if due <=? now
      then runCallback cb (set_timeouts (splice1 i (timeouts st)) st)
      else st
  | None => st
  end.

(** The overlays show "PLAY" on START, "NEW GAME" and "RETRY LEVEL" on
    GAME_OVER, "QUIT TO MENU" on PAUSED; the pause button is in the HUD of
    PLAYING, LEVEL_TRANSITION and PAUSED, the touch buttons are there while
    PLAYING. *)
Definition step (e : Event) (st : State) : State :=
  match e with
  | Frame time now => animate time now st
  | KeyDown time key => handleKeyDown time key st
  | PointerDown button => handleTouch button st
  | Timer now => runTimeout now st
  | ClickPlay =>
      match gameState st with
      | START | GAME_OVER => startGame st
      | _ => st
      end
  | ClickPause time =>
      match gameState st with
      | PLAYING | LEVEL_TRANSITION | PAUSED => togglePause time st
      | _ => st
      end
  | ClickRetry =>
      match gameState st with
      | GAME_OVER => retryLevel st
      | _ => st
      end
  | ClickQuit =>
      match gameState st with
      | PAUSED => quitToMenu st
      | _ => st
      end
  end.

Definition run (events : list Event) (st : State) : State :=
  fold_left (fun s e => step e s) events st.
End Game.
End Part000.

(** * Startup: loading the leaderboard

    [const stored = localStorage.getItem('hotdog_highscores');
     if (stored) setHighScores(JSON.parse(stored));]
    followed by the scene set-up and the first [animate(0)]; the state update
    makes the component render again, and the start screen reads
    [highScores.length].  An exception in the effect or in the render is not
    caught: React takes the whole tree down.  [JSON.parse] and the coercion of
    a value to a number are the platform's; the model takes their answers as
    parameters. *)

(** [interface HighScore { name: string; score: number }] *)
Record HighScore : Type := mkHighScore { hs_name : string; hs_score : Z }.

(** The values [JSON.parse] can return.  The fields of an object are its own
    properties, each key once. *)
Unset Elimination Schemes.
Inductive JSValue : Type :=
  | JSNull
  | JSBoolean (b : bool)
  | JSNumber (n : double)
  | JSString (s : string)
  | JSArray (items : list JSValue)
  | JSObject (fields : list (string * JSValue)).
Set Elimination Schemes.

(** The record [{ name, score }] as a value. *)
Definition recordValue (r : HighScore) : JSValue :=
  JSObject [ ("name"%string, JSString (hs_name r));
             ("score"%string, JSNumber (double_of_Z (hs_score r))) ].

Inductive ParseOutcome : Type := Parsed (v : JSValue) | SyntaxError.

(** The completion of an evaluation: a result, or an exception. *)
Inductive Completion (A : Type) : Type :=
  | Normal (a : A)
  | Throw.
Arguments Normal {A} a.
Arguments Throw {A}.

(** The initialization effect as far as the leaderboard goes: the value of the
    state cell [highScores] after it, or the SyntaxError of [JSON.parse].  An
    absent entry is [null] and an empty one is the empty string, both falsy:
    the state keeps its initial value, the empty array. *)
Definition initialization (JSON_parse : string -> ParseOutcome)
    (stored : option string) : Completion JSValue :=
  match stored with
  | None => Normal (JSArray [])
  | Some s =>
      if (s =? EmptyString)%string then Normal (JSArray [])
      else
        match JSON_parse s with
        | Parsed v => Normal v
        | SyntaxError => Throw
        end
  end.

Fixpoint getOwnProperty (key : string) (fields : list (string * JSValue))
    : option JSValue :=
  match fields with
  | [] => None
  | (k, v) :: fields' =>
      if (k =? key)%string then Some v else getOwnProperty key fields'
  end.

Section Render.
(** [ToNumber], the coercion that [>] applies to an operand that is not a
    number; it throws on some objects. *)
Variable ToNumber : JSValue -> Completion double.

(** [x > 0]; a comparison with NaN is false. *)
Definition greaterThanZero (x : JSValue) : Completion bool :=
  match x with
  | JSNumber n => Normal (SFltb (double_of_Z 0) n)
  | _ =>
      match ToNumber x with
      | Normal n => Normal (SFltb (double_of_Z 0) n)
      | Throw => Throw
      end
  end.

(** [highScores.length > 0].  Reading a property of [null] throws a TypeError;
    a boolean and a number have no [length], and [undefined > 0] is false; a
    string and an array have their length; an object has the property if it
    is one of its own. *)
Definition lengthIsPositive (highScores : JSValue) : Completion bool :=
  match highScores with
  | JSNull => Throw
  | JSBoolean _ | JSNumber _ => Normal false
  | JSString s => Normal (negb (s =? EmptyString)%string)
  | JSArray items => Normal (0 <? List.length items)%nat
  | JSObject fields =>
      match getOwnProperty "length" fields with
      | Some x => greaterThanZero x
      | None => Normal false
      end
  end.

(** [hs.name] and [hs.score]: a TypeError on [null], the own property of an
    object, [undefined] ([None]) on every other value. *)
Definition getField (key : string) (hs : JSValue) : Completion (option JSValue) :=
  match hs with
  | JSNull => Throw
  | JSObject fields => Normal (getOwnProperty key fields)
  | _ => Normal None
  end.

(** A value as a React child: text for a string and a number, nothing for
    [null] and a boolean, the children of an array one by one; an object is
    refused with an Error. *)
Fixpoint validChild (v : JSValue) : bool :=
  match v with
  | JSObject _ => false
  | JSArray items => forallb validChild items
  | _ => true
  end.

(** The row of one entry: [{hs.name}] and [{hs.score}] as children;
    [undefined] renders nothing. *)
Definition renderEntry (hs : JSValue) : Completion unit :=
  match getField "name" hs, getField "score" hs with
  | Normal name, Normal score =>
      let ok (child : option JSValue) :=
        match child with Some v => validChild v | None => true end in
      if ok name && ok score then Normal tt else Throw
  | _, _ => Throw
  end.

Fixpoint renderEntries (entries : list JSValue) : Completion unit :=
  match entries with
  | [] => Normal tt
  | hs :: entries' =>
      match renderEntry hs with
      | Normal _ => renderEntries entries'
      | Throw => Throw
      end
  end.

(** index.tsx (lines 1434-1444):
    [highScores.length > 0 && ... highScores.slice(0, 3).map((hs, i) => ...)].
    Only an array has a [slice] whose result has a [map]. *)
Definition Index_renderHighScores (highScores : JSValue) : Completion unit :=
  match lengthIsPositive highScores with
  | Throw => Throw
  | Normal false => Normal tt
  | Normal true =>
      match highScores with
      | JSArray items => renderEntries (firstn 3 items)
      | _ => Throw
      end
  end.

(** [highScores[0]]: the first item of an array, the first character of a
    string, the own property [0] of an object. *)
Definition firstEntry (highScores : JSValue) : option JSValue :=
  match highScores with
  | JSArray (hs :: _) => Some hs
  | JSString (String c _) => Some (JSString (String c EmptyString))
  | JSObject fields => getOwnProperty "0" fields
  | _ => None
  end.

(** part_000 (lines 1555-1560):
    [highScores.length > 0 && ... {highScores[0].name} - {highScores[0].score}].
    Reading a property of [undefined] throws a TypeError. *)
Definition Part000_renderHighScores (highScores : JSValue) : Completion unit :=
  match lengthIsPositive highScores with
  | Throw => Throw
  | Normal false => Normal tt
  | Normal true =>
      match firstEntry highScores with
      | Some hs => renderEntry hs
      | None => Throw
      end
  end.

(** What startup comes to: the component is mounted with the leaderboard
    state [highScores] and a running frame loop, or the effect threw before
    the scene and the loop were set up, or the render that follows the state
    update threw; in the last two cases the page is left empty. *)
Inductive StartupResult : Type :=
  | Running (highScores : JSValue)
  | EffectThrew
  | RenderThrew.

Definition startup (renderHighScores : JSValue -> Completion unit)
    (JSON_parse : string -> ParseOutcome) (stored : option string)
    : StartupResult :=
  match initialization JSON_parse stored with
  | Throw => EffectThrew
  | Normal highScores =>
      match renderHighScores highScores with
      | Normal _ => Running highScores
      | Throw => RenderThrew
      end
  end.

Definition Index_startup := startup Index_renderHighScores.
Definition Part000_startup := startup Part000_renderHighScores.
End Render.

Definition isJSONWhitespace (c : ascii) : bool :=
  (c =? " ")%char || (c =? "009")%char || (c =? "010")%char || (c =? "013")%char.

Fixpoint skipWhitespace (s : string) : string :=
  match s with
  | String c rest => if isJSONWhitespace c then skipWhitespace rest else s
  | EmptyString => s
  end.

(** The characters a JSON value can begin with. *)
Definition canStartJSONValue (c : ascii) : bool :=
  existsb (Ascii.eqb c)
    (list_ascii_of_string "{[-0123456789tfn" ++ [ascii_of_nat 34]).

(** A text with no value in it, or whose first significant character cannot
    begin one, is not JSON: [JSON.parse] throws a SyntaxError on it. *)
Definition cannotBeJSON (s : string) : bool :=
  match skipWhitespace s with
  | EmptyString => true
  | String c _ => negb (canStartJSONValue c)
  end.

(** [JSON.parse] as far as the model fixes it: a SyntaxError on the texts of
    [cannotBeJSON]; [other] answers for all other texts. *)
Definition JSON_parse_with (other : string -> ParseOutcome) (s : string)
    : ParseOutcome :=
  if cannotBeJSON s then SyntaxError else other s.

(** * Vocabulary of the properties *)

(** The cell the head moves onto in the next tick: head plus the direction left
    by the dequeue (the same in both files). *)
Definition nextHeadOf (st : State) : option Position :=
  let st1 := Index.dequeueDirection st in
  match snake st1 with
  | head :: _ => Some (pos_add head (direction st1))
  | [] => None
  end.

(** The invulnerability status as the indicator and the visuals compute it:
    [now < ghostModeEndTimeRef.current]. *)
Definition invulnerable (now : Z) (st : State) : bool :=
  now <? ghostModeEndTime st.

(** A food item lies on the cell. *)
Definition foodAt (cell : Position) (st : State) : option FoodItem :=
  find (fun f => pos_eqb (food_pos f) cell) (foods st).

Definition foodValue (f : FoodItem) : Z :=
  match food_type f with FRIES => 150 | HOTDOG => 100 end.

(** No queued direction is the exact negation of the one before it, the first
    being compared with [prev]. *)
Fixpoint noReversal (prev : Position) (queue : list Position) : Prop :=
  match queue with
  | [] => True
  | d :: queue' => d <> negation prev /\ noReversal d queue'
  end.

(** The live power-up lies on the cell. *)
Definition powerUpOn (cell : Position) (st : State) : bool :=
  match powerUp st with
  | Some p => pos_eqb cell (pu_pos p)
  | None => false
  end.

(** The timers that the end of a level registers at [now]: [bursts] firework
    bursts, 300 ms apart, and the deferred level change after [delay] ms. *)
Definition transitionTimeouts (now : Z) (bursts : nat) (delay : Z)
    : list (Z * Callback) :=
  map (fun i => (now + Z.of_nat i * 300, SpawnFirework)) (seq 0 bursts)
  ++ [(now + delay, AdvanceLevel)].

(** The candidate drawn by the calls [n] and [n + 1]. *)
Definition candidateAt (random : nat -> Q) (n : nat) : Position :=
  {| px := randomCoordinate random n; pz := randomCoordinate random (S n) |}.

(** Every food item and power-up of [st'] was already in [st] or lies on a
    cell the spawner can produce. *)
Definition placedFrom (st st' : State) : Prop :=
  (forall f, In f (foods st') -> In f (foods st) \/ spawnable (food_pos f))
  /\ (forall p, powerUp st' = Some p ->
        powerUp st = Some p \/ spawnable (pu_pos p)).

(** The state with the spawner's outputs blanked. *)
Definition unspawned (st : State) : State :=
  set_randomCalls 0 (set_powerUp None (set_foods [] st)).

(** The queue of index.tsx within its bounds: at most three directions, none
    the reversal of the one before it. *)
Definition queueValid (st : State) : Prop :=
  (List.length (moveQueue st) <= 3)%nat
  /\ noReversal (direction st) (moveQueue st).

(** The countdown of part_000 runs out on the next tick: it is at or below 0
    once the tenth of a second is taken off. *)
Definition Part000_runsOut (st : State) : bool :=
  double_leb (double_sub (timeLeft st) double_0_1) (double_of_Z 0).

(** The points a power-up is worth in part_000. *)
Definition Part000_points (type : PowerUpType) : Z :=
  match type with MUSTARD => 500 | GHOST => 200 | BURGER => 300 end.

(** The three timers after a power-up of the kind [type] was eaten at [now],
    the pulse lasting [pulse] milliseconds. *)
Definition timersAfter (type : PowerUpType) (now pulse : Z) (st st' : State) : Prop :=
  match type with
  | MUSTARD =>
      ghostModeEndTime st' = ghostModeEndTime st
      /\ speedBoostEndTime st' = speedBoostEndTime st
      /\ dogPulseEndTime st' = dogPulseEndTime st
  | GHOST =>
      ghostModeEndTime st' = now + 10000
      /\ speedBoostEndTime st' = speedBoostEndTime st
      /\ dogPulseEndTime st' = dogPulseEndTime st
  | BURGER =>
      ghostModeEndTime st' = ghostModeEndTime st
      /\ speedBoostEndTime st' = now + 8000
      /\ dogPulseEndTime st' = now + pulse
  end.

(** * Saving a score

    [[...highScores, newScore].sort((a, b) => b.score - a.score).slice(0, 5)],
    in [saveScore] of index.tsx and in the click handler of the SAVE button of
    part_000.  [Array.prototype.sort] is the platform's: it orders by the
    comparator, here descending by score, and it is stable, entries of equal
    score keep their order.  The model is the stable insertion sort. *)

(** [e] goes behind the entries that score at least as much. *)
Fixpoint insertByScore (e : HighScore) (sorted : list HighScore) : list HighScore :=
  match sorted with
  | [] => [e]
  | h :: rest =>
      if hs_score e <=? hs_score h then h :: insertByScore e rest
      else e :: sorted
  end.

Definition sortByScore (l : list HighScore) : list HighScore :=
  fold_left (fun sorted e => insertByScore e sorted) l [].

(** [playerName || fallback]: the empty string is falsy. *)
Definition nameOr (playerName fallback : string) : string :=
  match playerName with
  | EmptyString => fallback
  | _ => playerName
  end.

Definition withNewScore (newScore : HighScore) (highScores : list HighScore)
    : list HighScore :=
  firstn 5 (sortByScore (highScores ++ [newScore])).

(** The React state of the leaderboard, for a leaderboard that is a list of
    records with integer scores: [highScores] and [playerName].  The list that
    is set is also the one written to localStorage. *)
Record Board : Type := mkBoard {
  highScores : list HighScore;
  playerName : string
}.

(** [saveScore] of index.tsx (lines 1285-1291). *)
Definition Index_newScore (st : State) (b : Board) : HighScore :=
  {| hs_name := nameOr (playerName b) "ANONYMOUS"; hs_score := score st |}.

Definition Index_saveScore (st : State) (b : Board) : State * Board :=
  let newHighScores := withNewScore (Index_newScore st b) (highScores b) in
  (set_gameState START st,
   {| highScores := newHighScores; playerName := playerName b |}).

(** The SAVE button of part_000 (lines 1612-1623); it is disabled while the
    name reads SAVED!. *)
Definition Part000_newScore (st : State) (b : Board) : HighScore :=
  {| hs_name := nameOr (playerName b) "ANON"; hs_score := score st |}.

Definition Part000_saveScore (st : State) (b : Board) : Board :=
  if (playerName b =? "SAVED!")%string then b
  else
    {| highScores := withNewScore (Part000_newScore st b) (highScores b);
       playerName := "SAVED!" |}.

(** Descending by score. *)
Definition byScore (a b : HighScore) : Prop := hs_score b <= hs_score a.

(** [saved] holds the best five entries of [all] (all of them when there are
    fewer), best first: the entries left out score no more than any kept
    one. *)
Definition bestFiveOf (all saved : list HighScore) : Prop :=
  List.length saved = Nat.min 5 (List.length all)
  /\ StronglySorted byScore saved
  /\ exists dropped,
       Permutation (saved ++ dropped) all
       /\ forall kept d, In kept saved -> In d dropped ->
                         hs_score d <= hs_score kept.

(** * Invariants of a run *)

(** A step of one cell along one axis. *)
Definition isDirection (d : Position) : Prop := Z.abs (px d) + Z.abs (pz d) = 1.

(** The base interval of a level: 200 ms at level 1, then 15 ms less per level
    down to 50 ms in index.tsx, 20 ms less per level down to 80 ms in
    part_000. *)
Definition Index_baseInterval (lvl : Z) : Z := Z.max 50 (200 - 15 * (lvl - 1)).
Definition Part000_baseInterval (lvl : Z) : Z := Z.max 80 (200 - (lvl - 1) * 20).

(** What every state of a started game satisfies; [wall] is the wall test of
    the file and [speed] its base interval by level. *)
Definition gameInvariant (wall : Position -> bool) (speed : Z -> Z)
    (st : State) : Prop :=
  snake st <> []
  /\ Forall (fun cell => wall cell = false) (snake st)
  /\ 1 <= level st
  /\ Z.of_nat (List.length (foods st)) = level st * 5
  /\ 50 <= moveInterval st <= baseLevelSpeed st
  /\ baseLevelSpeed st <= 200
  /\ 0 <= levelStartScore st <= score st
  /\ isDirection (direction st)
  /\ Forall isDirection (moveQueue st)
  /\ baseLevelSpeed st = speed (level st).

(** The two directions lie on different axes. *)
Definition crossAxis (prev d : Position) : Prop :=
  (px prev = 0 \/ px d = 0) /\ (pz prev = 0 \/ pz d = 0).

(** Every queued direction turns off the axis of the one before it, the first
    being compared with [prev]. *)
Fixpoint turnsOnly (prev : Position) (queue : list Position) : Prop :=
  match queue with
  | [] => True
  | d :: queue' => crossAxis prev d /\ turnsOnly d queue'
  end.

(** part_000 keeps more: the queue holds turns only. *)
Definition Part000_invariant (st : State) : Prop :=
  gameInvariant Part000.hitWall Part000_baseInterval st
  /\ turnsOnly (direction st) (moveQueue st).

(** A frame or a direction key; a frame, a direction key or an on-screen
    direction button. *)
Definition isFrameOrDirectionKey (e : Event) : bool :=
  match e with
  | Frame _ _ => true
  | KeyDown _ key =>
      match keyDirection key with Some _ => true | None => false end
  | _ => false
  end.

Definition isFrameOrDirection (e : Event) : bool :=
  match e with
  | PointerDown _ => true
  | _ => isFrameOrDirectionKey e
  end.

(** * Scenarios

    Oracles and event traces for the closed examples. *)

(** The oracle that answers with the listed draws, then with 0. *)
Definition randomFrom (draws : list Q) : nat -> Q := fun n => nth n draws 0%Q.

(** A draw that [randomCoordinate] turns into the coordinate [c]. *)
Definition coordinateDraw (c : Z) : Q := (2 * c + 31) # 60.

(** The three draws of one spawned food item on the free cell [(x, z)]: the two
    coordinates and a draw of 1/2, which makes it a hotdog. *)
Definition hotdogDraws (x z : Z) : list Q :=
  [coordinateDraw x; coordinateDraw z; 1 # 2].

(** Five hotdogs on a row away from the snake. *)
Definition farFoodDraws : list Q :=
  hotdogDraws 5 5 ++ hotdogDraws 6 5 ++ hotdogDraws 7 5 ++ hotdogDraws 8 5
  ++ hotdogDraws 9 5.

(** index.tsx, a new game: five far hotdogs, then a power-up (draw 1/10 < 0.3)
    on the cell (0, 1) in front of the head, of the kind [typeDraw] selects. *)
Definition powerUpAheadDraws (typeDraw : Q) : list Q :=
  farFoodDraws ++ [1 # 10; coordinateDraw 0; coordinateDraw 1; typeDraw].

Definition burgerRandom : nat -> Q := randomFrom (powerUpAheadDraws (9 # 10)).
Definition ghostRandom : nat -> Q := randomFrom (powerUpAheadDraws (1 # 2)).

(** index.tsx, a new game: a hotdog on (0, 1) in front of the head and four far
    ones, no power-up (draw 1/2); when the hotdog is eaten its replacement goes
    to (9, 5) and a mustard power-up (draws 1/10 and 1/5) to (0, 1), the cell
    the head is moving onto. *)
Definition powerUpUnderHeadRandom : nat -> Q :=
  randomFrom (hotdogDraws 0 1 ++ hotdogDraws 6 5 ++ hotdogDraws 7 5
              ++ hotdogDraws 8 5 ++ hotdogDraws 5 5 ++ [1 # 2]
              ++ hotdogDraws 9 5
              ++ [1 # 10; coordinateDraw 0; coordinateDraw 1; 1 # 5]).

(** part_000, a new game: hotdogs on (0, -1), (0, -2), (0, -3) in front of the
    head and two far ones; each eaten hotdog is replaced by a far one and no
    power-up is spawned (draw 1/2 > 0.3). *)
Definition threeAheadRandom : nat -> Q :=
  randomFrom (hotdogDraws 0 (-1) ++ hotdogDraws 0 (-2) ++ hotdogDraws 0 (-3)
              ++ hotdogDraws 10 10 ++ hotdogDraws 11 10
              ++ hotdogDraws 12 10 ++ [1 # 2]
              ++ hotdogDraws 13 10 ++ [1 # 2]
              ++ hotdogDraws 14 10 ++ [1 # 2]).

(** The oracle that always answers 0. *)
Definition zeroRandom : nat -> Q := fun _ => 0%Q.

(** Frames [first .. first + n - 1] of a run: frame [i] comes at
    [period * (i + 1)] on the frame clock and at [epoch] plus that on the wall
    clock. *)
Definition epoch : Z := 1000000.

Definition frameAt (period : Z) (i : nat) : Event :=
  let t := period * (Z.of_nat i + 1) in Frame t (epoch + t).

Definition frames (period : Z) (first n : nat) : list Event :=
  map (frameAt period) (seq first n).

(** Going round a square of two by two cells: before frame [i] the key of the
    next side is pressed. *)
Definition cycleKey (i : nat) : Key :=
  match (i mod 4)%nat with
  | 0%nat => ArrowUp
  | 1%nat => ArrowLeft
  | 2%nat => ArrowDown
  | _ => ArrowRight
  end.

Definition roundAndRound (n : nat) : list Event :=
  flat_map (fun i => [KeyDown 0 (cycleKey i); frameAt 201 i]) (seq 0 n).

(** A snake that has curled up: the cell under the head, (0, 1), is the fourth
    of its five cells.  The countdown and the timers are those of a running
    first level; [ghostEnd] is the invulnerability expiry. *)
Definition curledUp (ghostEnd : Z) : State :=
  {| gameState := PLAYING; score := 300; level := 1;
     timeLeft := double_of_Z 20;
     snake := [ {| px := 0; pz := 0 |}; {| px := 1; pz := 0 |};
                {| px := 1; pz := 1 |}; {| px := 0; pz := 1 |};
                {| px := -1; pz := 1 |} ];
     direction := {| px := 0; pz := 1 |};
     moveQueue := []; foods := []; powerUp := None;
     ghostModeEndTime := ghostEnd; speedBoostEndTime := 0; dogPulseEndTime := 0;
     lastMoveTime := 0; moveInterval := 194; baseLevelSpeed := 200;
     levelStartScore := 0; timeouts := []; fireworkBursts := 0%nat;
     randomCalls := 0%nat |}.

(** part_000: a new game, three hotdogs eaten straight ahead, then left, down
    and the key for right: the head at (-1, -2) is about to move onto the cell
    of the tail, (0, -2). *)
Definition ontoTheTail : list Event :=
  ClickPlay :: frames 201 0 3
  ++ [KeyDown 0 ArrowLeft; frameAt 201 3; KeyDown 0 ArrowDown; frameAt 201 4;
      KeyDown 0 ArrowRight].

(** A new game, the key for right, and fourteen ticks: the head is on x = 14,
    moving right. *)
Definition towardsTheRightWall : list Event :=
  ClickPlay :: KeyDown 0 ArrowRight :: frames 201 0 14.

(** index.tsx, a new game: a hotdog on (0, 1) in front of the head and four far
    ones, no power-up (draw 1/2); when the hotdog is eaten its replacement goes
    to (9, 5) and again no power-up is spawned. *)
Definition hotdogAheadRandom : nat -> Q :=
  randomFrom (hotdogDraws 0 1 ++ hotdogDraws 6 5 ++ hotdogDraws 7 5
              ++ hotdogDraws 8 5 ++ hotdogDraws 5 5 ++ [1 # 2]
              ++ hotdogDraws 9 5 ++ [1 # 2]).

(** part_000, a new game: a hotdog on (0, -1) and four far ones; when it is
    eaten its replacement goes to (12, 10) and a power-up is spawned (draw
    1/10) on (0, -2), the next cell ahead, of the kind [typeDraw] selects. *)
Definition part000PowerUpAhead (typeDraw : Q) : nat -> Q :=
  randomFrom (hotdogDraws 0 (-1) ++ hotdogDraws 10 10 ++ hotdogDraws 11 10
              ++ hotdogDraws 13 10 ++ hotdogDraws 14 10
              ++ hotdogDraws 12 10
              ++ [1 # 10; coordinateDraw 0; coordinateDraw (-2); typeDraw]).

Definition part000GhostRandom : nat -> Q := part000PowerUpAhead (1 # 2).

(** index.tsx: a new game with a burger on (0, 1); the first tick eats it, and
    seventeen boosted ticks, 61 ms apart, run the snake straight into the upper
    wall. *)
Definition boostedFrameAt (i : nat) : Event :=
  let t := 201 + 61 * (Z.of_nat i + 1) in Frame t (epoch + t).

Definition boostedIntoTheWall : list Event :=
  ClickPlay :: frameAt 201 0 :: map boostedFrameAt (seq 0 17).

(** index.tsx: the first level played to its end by going round a square, which
    takes 126 ticks (after 125 the countdown of doubles is still above 0); then,
    during the transition, F2 (a new game), the pause button and QUIT TO MENU;
    then the fourteen firework timers that are due before the deferred level
    change. *)
Definition quitDuringTheTransition : list Event :=
  ClickPlay :: roundAndRound 126
  ++ [KeyDown 0 KeyF2; ClickPause 0; ClickQuit]
  ++ repeat (Timer (epoch + 29325)) 14.

(** A stand-in for [JSON.parse] in the closed examples: it answers as
    [JSON.parse] does on the texts used there, the empty array for the text
    [[]], [null] for the text [null], and a SyntaxError for a text that cannot
    be JSON; every other text is outside the examples. *)
Definition exampleParse : string -> ParseOutcome :=
  JSON_parse_with
    (fun s => if (s =? "[]")%string then Parsed (JSArray [])
              else if (s =? "null")%string then Parsed JSNull
              else SyntaxError).

(** A stand-in for [ToNumber] in the closed examples, which never call it. *)
Definition exampleToNumber : JSValue -> Completion double := fun _ => Throw.

(** * Properties *)

(** ** Basic facts *)

Lemma pos_eqb_eq (p q : Position) : pos_eqb p q = true <-> p = q.
Proof.
  destruct p as [a b], q as [c d]; unfold pos_eqb; simpl.
  rewrite andb_true_iff, !Z.eqb_eq. split.
  - intros [-> ->]; reflexivity.
  - intros H; injection H; auto.
Qed.

Lemma pos_eqb_refl (p : Position) : pos_eqb p p = true.
Proof. apply pos_eqb_eq; reflexivity. Qed.

Section RandomPositionFacts.
Variable random : nat -> Q.
Hypothesis Hrandom : random_in_unit random.

Lemma randomCoordinate_range (n : nat) : -15 <= randomCoordinate random n <= 14.
Proof.
  unfold randomCoordinate, GRID_SIZE.
  destruct (Hrandom n) as [H0 H1].
  change (30 / 2) with 15.
  assert (Hlo : 0 <= Qfloor (random n * inject_Z 30)).
  { change 0 with (Qfloor 0). apply Qfloor_resp_le.
    apply Qmult_le_0_compat; [exact H0 | discriminate]. }
  assert (Hhi : Qfloor (random n * inject_Z 30) < 30).
  { rewrite Zlt_Qlt.
    apply Qle_lt_trans with (random n * inject_Z 30)%Q; [apply Qfloor_le |].
    setoid_replace (inject_Z 30) with (1 * inject_Z 30)%Q at 2 by ring.
    apply Qmult_lt_compat_r; [reflexivity | exact H1]. }
  lia.
Qed.
End RandomPositionFacts.

(** ** getRandomPosition *)

Section RandomPositionLoop.
Variable random : nat -> Q.
Hypothesis Hrandom : random_in_unit random.

Lemma candidateAt_spawnable (n : nat) : spawnable (candidateAt random n).
Proof.
  split; simpl; apply randomCoordinate_range; exact Hrandom.
Qed.

Lemma getRandomPosition_loop_returns (occupied : list Position) :
  forall (fuel : nat) (tries : Z) (calls : nat),
    0 <= tries < 100 ->
    100 - tries <= Z.of_nat fuel ->
    exists pos tries' calls',
      getRandomPosition_loop random fuel occupied tries calls
        = Some (pos, tries', calls')
      /\ tries < tries' <= 100
      /\ Z.of_nat calls' = Z.of_nat calls + 2 * (tries' - tries)
      /\ pos = candidateAt random (calls' - 2)
      /\ (isOccupied occupied pos = false \/ tries' = 100).
Proof.
  induction fuel as [| fuel IH]; intros tries calls Htries Hfuel.
  - lia.
  - cbn [getRandomPosition_loop].
    fold (candidateAt random calls).
    destruct (isOccupied occupied (candidateAt random calls)) eqn:Hocc; cbn [andb].
    + destruct (tries + 1 <? 100) eqn:Hlt.
      * apply Z.ltb_lt in Hlt.
        destruct (IH (tries + 1) (S (S calls))) as (pos & t & c & Heq & Ht & Hc & Hp & Hd);
          [lia | lia |].
        exists pos, t, c. repeat split; try assumption; try lia.
      * apply Z.ltb_ge in Hlt.
        exists (candidateAt random calls), (tries + 1), (S (S calls)).
        split; [reflexivity |]. split; [lia |]. split; [lia |].
        split; [| right; lia].
        cbn [Nat.sub]. rewrite Nat.sub_0_r. reflexivity.
    + exists (candidateAt random calls), (tries + 1), (S (S calls)).
      split; [reflexivity |]. split; [lia |]. split; [lia |].
      split; [| left; exact Hocc].
      cbn [Nat.sub]. rewrite Nat.sub_0_r. reflexivity.
Qed.

Lemma getRandomPosition_returns (occupied : list Position) (calls : nat) :
  exists pos tries calls',
    getRandomPosition random occupied calls = Some (pos, tries, calls')
    /\ spawnable pos.
Proof.
  destruct (getRandomPosition_loop_returns occupied 100 0 calls)
    as (pos & t & c & Heq & _ & _ & Hp & _); [lia | simpl; lia |].
  exists pos, t, c. split; [exact Heq |].
  rewrite Hp. apply candidateAt_spawnable.
Qed.
End RandomPositionLoop.

(** ** Where the spawner places food and power-ups *)

Lemma placedFrom_refl (st : State) : placedFrom st st.
Proof. split; intros; left; assumption. Qed.

Lemma placedFrom_trans (a b c : State) :
  placedFrom a b -> placedFrom b c -> placedFrom a c.
Proof.
  intros [Hf1 Hp1] [Hf2 Hp2]. split.
  - intros f Hin. destruct (Hf2 f Hin) as [H | H]; [apply Hf1, H | right; exact H].
  - intros p Hin. destruct (Hp2 p Hin) as [H | H]; [apply Hp1, H | right; exact H].
Qed.

Lemma spawnable_not_15 (p : Position) : spawnable p -> px p <> 15 /\ pz p <> 15.
Proof. unfold spawnable. lia. Qed.

Section Placement.
Variable random : nat -> Q.
Hypothesis Hrandom : random_in_unit random.

Lemma Index_spawnPowerUp_placed (st : State) :
  placedFrom st (Index.spawnPowerUp random st).
Proof.
  unfold Index.spawnPowerUp.
  destruct (getRandomPosition_returns random Hrandom
              (snake st ++ foodCells (foods st)) (randomCalls st))
    as (pos & t & c & Heq & Hsp).
  rewrite Heq. split; cbn.
  - intros f Hin. left; exact Hin.
  - intros p Hp. injection Hp as <-. right; exact Hsp.
Qed.

Lemma Index_spawnFood_body_placed (st : State) :
  placedFrom st (Index.spawnFood_body random st).
Proof.
  unfold Index.spawnFood_body.
  destruct (getRandomPosition_returns random Hrandom
              (snake st ++ foodCells (foods st) ++ powerUpCells (powerUp st))
              (randomCalls st))
    as (pos & t & c & Heq & Hsp).
  rewrite Heq. split; cbn.
  - intros f Hin. apply in_app_or in Hin. destruct Hin as [Hin | [<- | []]].
    + left; exact Hin.
    + right; exact Hsp.
  - intros p Hp. left; exact Hp.
Qed.

Lemma Index_spawnFood_loop_placed (fuel : nat) (desiredCount : Z) :
  forall st, placedFrom st (Index.spawnFood_loop random fuel desiredCount st).
Proof.
  induction fuel as [| fuel IH]; intros st; cbn [Index.spawnFood_loop].
  - apply placedFrom_refl.
  - destruct (Z.of_nat (List.length (foods st)) <? desiredCount).
    + eapply placedFrom_trans; [apply Index_spawnFood_body_placed | apply IH].
    + apply placedFrom_refl.
Qed.

Lemma Index_spawnFood_placed (st : State) :
  placedFrom st (Index.spawnFood random st).
Proof.
  unfold Index.spawnFood.
  set (st1 := Index.spawnFood_loop random _ _ st).
  assert (H1 : placedFrom st st1) by apply Index_spawnFood_loop_placed.
  destruct (powerUp st1) eqn:Hpu; [exact H1 |].
  set (st2 := set_randomCalls _ st1).
  assert (H2 : placedFrom st st2).
  { destruct H1 as [Hf Hp]. split; [exact Hf | exact Hp]. }
  destruct (Qltb _ _); [| exact H2].
  eapply placedFrom_trans; [exact H2 | apply Index_spawnPowerUp_placed].
Qed.

Lemma Part000_spawnFood_body_placed (st : State) :
  placedFrom st (Part000.spawnFood_body random st).
Proof.
  unfold Part000.spawnFood_body.
  destruct (getRandomPosition_returns random Hrandom
              (snake st ++ foodCells (foods st) ++ powerUpCells (powerUp st))
              (randomCalls st))
    as (pos & t & c & Heq & Hsp).
  rewrite Heq. split; cbn.
  - intros f Hin. apply in_app_or in Hin. destruct Hin as [Hin | [<- | []]].
    + left; exact Hin.
    + right; exact Hsp.
  - intros p Hp. left; exact Hp.
Qed.

Lemma Part000_spawnFood_placed (count : Z) (st : State) :
  placedFrom st (Part000.spawnFood random count st).
Proof.
  unfold Part000.spawnFood.
  generalize (Z.to_nat count) as rounds. intros rounds. revert st.
  induction rounds as [| rounds IH]; intros st; cbn [Part000.spawnFood_rounds].
  - apply placedFrom_refl.
  - eapply placedFrom_trans; [apply Part000_spawnFood_body_placed | apply IH].
Qed.

Lemma Part000_spawnPowerUp_placed (st : State) :
  placedFrom st (Part000.spawnPowerUp random st).
Proof.
  unfold Part000.spawnPowerUp.
  destruct (Qltb _ _).
  - split; intros; left; assumption.
  - cbn [snake foods randomCalls set_randomCalls].
    destruct (getRandomPosition_returns random Hrandom
                (snake st ++ foodCells (foods st)) (S (randomCalls st)))
      as (pos & t & c & Heq & Hsp).
    rewrite Heq. split; cbn.
    + intros f Hin. left; exact Hin.
    + intros p Hp. injection Hp as <-. right; exact Hsp.
Qed.
End Placement.

(** C10: for every list of occupied cells, getRandomPosition returns after at
    most 100 rounds of its loop (any iteration budget of 100 or more is enough,
    [tries] ends between 1 and 100, two draws per round), the result is the
    last candidate drawn, free unless the 100 tries are used up, with x and z
    in [-15, 14]; so the food and power-ups that spawnFood and spawnPowerUp of
    either file place are never on a cell with x = 15 or z = 15. *)
Theorem getRandomPosition_terminates_in_range
    (random : nat -> Q) (Hrandom : random_in_unit random)
    (occupied : list Position) (calls fuel : nat) (Hfuel : (100 <= fuel)%nat) :
  (exists pos tries calls',
      getRandomPosition_loop random fuel occupied 0 calls = Some (pos, tries, calls')
      /\ 1 <= tries <= 100
      /\ Z.of_nat calls' = Z.of_nat calls + 2 * tries
      /\ pos = candidateAt random (calls' - 2)
      /\ (isOccupied occupied pos = false \/ tries = 100)
      /\ -15 <= px pos <= 14 /\ -15 <= pz pos <= 14)
  /\ (forall st st',
        st' = Index.spawnFood random st \/ st' = Index.spawnPowerUp random st
        \/ (exists count, st' = Part000.spawnFood random count st)
        \/ st' = Part000.spawnPowerUp random st ->
        (forall f, In f (foods st') -> ~ In f (foods st) ->
           (-15 <= px (food_pos f) <= 14 /\ -15 <= pz (food_pos f) <= 14)
           /\ px (food_pos f) <> 15 /\ pz (food_pos f) <> 15)
        /\ (forall p, powerUp st' = Some p -> powerUp st <> Some p ->
           (-15 <= px (pu_pos p) <= 14 /\ -15 <= pz (pu_pos p) <= 14)
           /\ px (pu_pos p) <> 15 /\ pz (pu_pos p) <> 15)).
Proof.
  split.
  - destruct (getRandomPosition_loop_returns random occupied fuel 0 calls)
      as (pos & t & c & Heq & Ht & Hc & Hp & Hd); [lia | lia |].
    exists pos, t, c.
    split; [exact Heq |]. split; [lia |]. split; [lia |].
    split; [exact Hp |]. split; [exact Hd |].
    rewrite Hp. apply (candidateAt_spawnable random Hrandom).
  - intros st st' Hst'.
    assert (Hplaced : placedFrom st st').
    { destruct Hst' as [-> | [-> | [[count ->] | ->]]].
      - apply Index_spawnFood_placed, Hrandom.
      - apply Index_spawnPowerUp_placed, Hrandom.
      - apply Part000_spawnFood_placed, Hrandom.
      - apply Part000_spawnPowerUp_placed, Hrandom. }
    destruct Hplaced as [Hf Hp]. split.
    + intros f Hin Hnew. destruct (Hf f Hin) as [Hold | Hsp]; [contradiction |].
      split; [exact Hsp | apply spawnable_not_15, Hsp].
    + intros p Hin Hnew. destruct (Hp p Hin) as [Hold | Hsp]; [contradiction |].
      split; [exact Hsp | apply spawnable_not_15, Hsp].
Qed.

(** ** What the spawner leaves alone *)

Lemma unspawned_fields (st st' : State) :
  unspawned st' = unspawned st ->
  gameState st' = gameState st /\ score st' = score st
  /\ level st' = level st /\ timeLeft st' = timeLeft st
  /\ snake st' = snake st /\ moveInterval st' = moveInterval st
  /\ baseLevelSpeed st' = baseLevelSpeed st
  /\ levelStartScore st' = levelStartScore st
  /\ ghostModeEndTime st' = ghostModeEndTime st
  /\ speedBoostEndTime st' = speedBoostEndTime st
  /\ dogPulseEndTime st' = dogPulseEndTime st
  /\ timeouts st' = timeouts st
  /\ direction st' = direction st /\ moveQueue st' = moveQueue st.
Proof.
  intros H.
  repeat split;
    [ apply (f_equal gameState) in H | apply (f_equal score) in H
    | apply (f_equal level) in H | apply (f_equal timeLeft) in H
    | apply (f_equal snake) in H | apply (f_equal moveInterval) in H
    | apply (f_equal baseLevelSpeed) in H | apply (f_equal levelStartScore) in H
    | apply (f_equal ghostModeEndTime) in H | apply (f_equal speedBoostEndTime) in H
    | apply (f_equal dogPulseEndTime) in H | apply (f_equal timeouts) in H
    | apply (f_equal direction) in H | apply (f_equal moveQueue) in H ];
    exact H.
Qed.

Lemma getRandomPosition_some (random : nat -> Q) (occupied : list Position)
    (calls : nat) :
  exists pos tries calls',
    getRandomPosition random occupied calls = Some (pos, tries, calls').
Proof.
  destruct (getRandomPosition_loop_returns random occupied 100 0 calls)
    as (pos & t & c & Heq & _); [lia | simpl; lia |].
  exists pos, t, c. exact Heq.
Qed.

Section SpawnerFrame.
Variable random : nat -> Q.

Lemma Index_spawnPowerUp_unspawned (st : State) :
  unspawned (Index.spawnPowerUp random st) = unspawned st.
Proof.
  unfold Index.spawnPowerUp.
  destruct (getRandomPosition random _ _) as [[[pos t] c] |]; reflexivity.
Qed.

Lemma Index_spawnFood_body_unspawned (st : State) :
  unspawned (Index.spawnFood_body random st) = unspawned st.
Proof.
  unfold Index.spawnFood_body.
  destruct (getRandomPosition random _ _) as [[[pos t] c] |]; reflexivity.
Qed.

Lemma Index_spawnFood_loop_unspawned (fuel : nat) (desiredCount : Z) :
  forall st,
    unspawned (Index.spawnFood_loop random fuel desiredCount st) = unspawned st.
Proof.
  induction fuel as [| fuel IH]; intros st; cbn [Index.spawnFood_loop].
  - reflexivity.
  - destruct (_ <? _); [| reflexivity].
    rewrite IH. apply Index_spawnFood_body_unspawned.
Qed.

Lemma Index_spawnFood_unspawned (st : State) :
  unspawned (Index.spawnFood random st) = unspawned st.
Proof.
  unfold Index.spawnFood.
  set (st1 := Index.spawnFood_loop random _ _ st).
  assert (H1 : unspawned st1 = unspawned st) by apply Index_spawnFood_loop_unspawned.
  destruct (powerUp st1); [exact H1 |].
  destruct (Qltb _ _).
  - rewrite Index_spawnPowerUp_unspawned. exact H1.
  - exact H1.
Qed.

Lemma Part000_spawnFood_unspawned (count : Z) (st : State) :
  unspawned (Part000.spawnFood random count st) = unspawned st.
Proof.
  unfold Part000.spawnFood.
  generalize (Z.to_nat count) as rounds. intros rounds. revert st.
  induction rounds as [| rounds IH]; intros st; cbn [Part000.spawnFood_rounds].
  - reflexivity.
  - rewrite IH. unfold Part000.spawnFood_body.
    destruct (getRandomPosition random _ _) as [[[pos t] c] |]; reflexivity.
Qed.

Lemma Part000_spawnPowerUp_unspawned (st : State) :
  unspawned (Part000.spawnPowerUp random st) = unspawned st.
Proof.
  unfold Part000.spawnPowerUp.
  destruct (Qltb _ _); [reflexivity |].
  destruct (getRandomPosition random _ _) as [[[pos t] c] |]; reflexivity.
Qed.

(** How many items the spawner adds. *)

Lemma Index_spawnFood_body_count (st : State) :
  List.length (foods (Index.spawnFood_body random st)) = S (List.length (foods st)).
Proof.
  unfold Index.spawnFood_body.
  destruct (getRandomPosition_some random
              (snake st ++ foodCells (foods st) ++ powerUpCells (powerUp st))
              (randomCalls st)) as (pos & t & c & ->).
  cbn. rewrite length_app. simpl. lia.
Qed.

Lemma Index_spawnFood_loop_count (desiredCount : Z) :
  forall (fuel : nat) (st : State),
    Z.of_nat fuel = desiredCount - Z.of_nat (List.length (foods st)) ->
    Z.of_nat (List.length (foods (Index.spawnFood_loop random fuel desiredCount st)))
    = desiredCount.
Proof.
  induction fuel as [| fuel IH]; intros st Hfuel; cbn [Index.spawnFood_loop].
  - lia.
  - destruct (_ <? _) eqn:Hlt; [| apply Z.ltb_ge in Hlt; lia].
    apply IH. rewrite Index_spawnFood_body_count. lia.
Qed.

(** How many items [spawnFood] of index.tsx leaves. *)
Lemma Index_spawnFood_count (st : State) :
  Z.of_nat (List.length (foods (Index.spawnFood random st)))
  = Z.max (level st * 5) (Z.of_nat (List.length (foods st))).
Proof.
  unfold Index.spawnFood.
  set (n := Z.to_nat _).
  set (st1 := Index.spawnFood_loop random n _ st).
  assert (H1 : Z.of_nat (List.length (foods st1))
               = Z.max (level st * 5) (Z.of_nat (List.length (foods st)))).
  { destruct (Z.le_gt_cases (level st * 5) (Z.of_nat (List.length (foods st)))) as [Hle | Hgt].
    - subst st1 n. replace (Z.to_nat _) with O by lia. cbn. lia.
    - subst st1. rewrite Index_spawnFood_loop_count; subst n; lia. }
  assert (Hpu : forall s, List.length (foods (Index.spawnPowerUp random s))
                          = List.length (foods s)).
  { intros s. unfold Index.spawnPowerUp.
    destruct (getRandomPosition random _ _) as [[[pos t] c] |]; reflexivity. }
  destruct (powerUp st1); [exact H1 |].
  destruct (Qltb _ _); [rewrite Hpu |]; exact H1.
Qed.

Lemma Part000_spawnPowerUp_foods (st : State) :
  foods (Part000.spawnPowerUp random st) = foods st.
Proof.
  unfold Part000.spawnPowerUp.
  destruct (Qltb _ _); [reflexivity |].
  destruct (getRandomPosition random _ _) as [[[pos t] c] |]; reflexivity.
Qed.
End SpawnerFrame.

(** ** The collision tests *)

Lemma some_indexed_existsb {A : Type} (f : A -> bool) (l : list A) :
  forall i, some_indexed (fun a _ => f a) i l = existsb f l.
Proof.
  induction l as [| a l IH]; intros i; simpl; [reflexivity |].
  rewrite IH. reflexivity.
Qed.

Lemma existsb_pos_eqb_In (q : Position) (l : list Position) :
  existsb (fun p => pos_eqb p q) l = true <-> In q l.
Proof.
  rewrite existsb_exists. split.
  - intros (p & Hin & Heq). apply pos_eqb_eq in Heq. subst p. exact Hin.
  - intros Hin. exists q. split; [exact Hin | apply pos_eqb_refl].
Qed.

(** index.tsx counts every cell but the head. *)
Lemma Index_hitSelf_iff (body : list Position) (nextHead : Position) :
  Index.hitSelf body nextHead = true <-> In nextHead (tl body).
Proof.
  unfold Index.hitSelf. destruct body as [| h body]; simpl;
    [split; [discriminate | contradiction] |].
  rewrite <- existsb_pos_eqb_In.
  rewrite <- (some_indexed_existsb (fun p => pos_eqb p nextHead) body 1).
  assert (Hgen : forall l i, (0 < i)%nat ->
            some_indexed (fun segment index =>
                            negb (index =? 0)%nat && pos_eqb segment nextHead) i l
            = some_indexed (fun a _ => pos_eqb a nextHead) i l).
  { induction l as [| a l IH]; intros i Hi; simpl; [reflexivity |].
    rewrite IH by lia.
    destruct i; [lia |]. reflexivity. }
  rewrite Hgen by lia. tauto.
Qed.

(** part_000 counts every cell but the tail. *)
Lemma Part000_hitSelf_iff (body : list Position) (newHead : Position) :
  Part000.hitSelf body newHead = true <-> In newHead (removelast body).
Proof.
  unfold Part000.hitSelf.
  rewrite <- existsb_pos_eqb_In.
  remember (List.length body) as n eqn:Hn.
  assert (Hgen : forall l i, (i + List.length l = n)%nat ->
            some_indexed (fun p j => negb (j =? n - 1)%nat && pos_eqb p newHead) i l
            = existsb (fun p => pos_eqb p newHead) (removelast l)).
  { induction l as [| a l IH]; intros i Hi; [reflexivity |].
    cbn [some_indexed]. rewrite IH by (simpl in Hi; lia).
    destruct l as [| b l].
    - simpl in Hi. replace (i =? n - 1)%nat with true
        by (symmetry; apply Nat.eqb_eq; lia).
      reflexivity.
    - simpl in Hi. replace (i =? n - 1)%nat with false
        by (symmetry; apply Nat.eqb_neq; lia).
      reflexivity. }
  rewrite (Hgen body 0%nat) by lia. tauto.
Qed.

Lemma Index_hitWall_false_iff (p : Position) :
  Index.hitWall p = false <-> -15 <= px p <= 15 /\ -15 <= pz p <= 15.
Proof.
  unfold Index.hitWall, GRID_SIZE.
  change (30 / 2) with 15. change (- (30) / 2) with (-15).
  rewrite !orb_false_iff, !Z.gtb_ltb, !Z.ltb_ge. lia.
Qed.

Lemma Part000_hitWall_false_iff (p : Position) :
  Part000.hitWall p = false <-> -15 <= px p <= 14 /\ -15 <= pz p <= 14.
Proof.
  unfold Part000.hitWall, GRID_SIZE.
  change (30 / 2) with 15. change (- (30) / 2) with (-15).
  rewrite !orb_false_iff, !Z.geb_leb, !Z.ltb_ge, !Z.leb_gt. lia.
Qed.

(** ** Finding the food item on a cell *)

Lemma findIndex_find {A : Type} (f : A -> bool) (l : list A) :
  match findIndex f l with
  | Some i => exists a, nth_error l i = Some a /\ find f l = Some a
                        /\ (i < List.length l)%nat
  | None => find f l = None
  end.
Proof.
  induction l as [| a l IH]; simpl; [reflexivity |].
  destruct (f a).
  - exists a. repeat split. lia.
  - destruct (findIndex f l) as [i |]; simpl.
    + destruct IH as (b & Hn & Hf & Hi). exists b. repeat split; auto. lia.
    + exact IH.
Qed.

Lemma length_splice1 {A : Type} (l : list A) :
  forall i, (i < List.length l)%nat ->
            List.length (splice1 i l) = (List.length l - 1)%nat.
Proof.
  induction l as [| a l IH]; intros i Hi; simpl in *; [lia |].
  destruct i; simpl; [lia |].
  rewrite IH by lia. lia.
Qed.

Section TickPhases.
Variable random : nat -> Q.

(** *** index.tsx *)

Lemma Index_foodCollision_none (nextHead : Position) (st : State) :
  foodAt nextHead st = None ->
  Index.foodCollision random nextHead st
  = set_snake (removelast (nextHead :: snake st)) st.
Proof.
  unfold foodAt, Index.foodCollision. intros Hnone.
  pose proof (findIndex_find (fun f => pos_eqb (food_pos f) nextHead) (foods st)) as H.
  destruct (findIndex _ (foods st)) as [i |]; [| reflexivity].
  destruct H as (a & _ & Hf & _). congruence.
Qed.

Lemma Index_foodCollision_eats (nextHead : Position) (st : State) (f : FoodItem) :
  foodAt nextHead st = Some f ->
  exists i,
    (i < List.length (foods st))%nat
    /\ Index.foodCollision random nextHead st
       = set_snake (nextHead :: snake st)
           (Index.spawnFood random
              (set_foods (splice1 i (foods st))
                 (set_moveInterval (Z.max 50 (moveInterval st - 2))
                    (set_score (score st + foodValue f) st)))).
Proof.
  unfold foodAt, Index.foodCollision. intros Hsome.
  pose proof (findIndex_find (fun f => pos_eqb (food_pos f) nextHead) (foods st)) as H.
  destruct (findIndex _ (foods st)) as [i |]; [| congruence].
  destruct H as (a & Hn & Hf & Hi). rewrite Hn.
  assert (a = f) by congruence. subst a.
  exists i. split; [exact Hi | reflexivity].
Qed.

Lemma Index_foodCollision_keeps (nextHead : Position) (st : State) :
  let st' := Index.foodCollision random nextHead st in
  gameState st' = gameState st /\ level st' = level st
  /\ timeLeft st' = timeLeft st
  /\ ghostModeEndTime st' = ghostModeEndTime st
  /\ speedBoostEndTime st' = speedBoostEndTime st
  /\ dogPulseEndTime st' = dogPulseEndTime st
  /\ timeouts st' = timeouts st.
Proof.
  cbv zeta.
  destruct (foodAt nextHead st) as [f |] eqn:Hfood.
  - destruct (Index_foodCollision_eats nextHead st f Hfood) as (i & _ & ->).
    cbn [gameState level timeLeft ghostModeEndTime speedBoostEndTime
         dogPulseEndTime timeouts set_snake].
    destruct (unspawned_fields _ _
                (Index_spawnFood_unspawned random
                   (set_foods (splice1 i (foods st))
                      (set_moveInterval (Z.max 50 (moveInterval st - 2))
                         (set_score (score st + foodValue f) st)))))
      as (Hg & _ & Hl & Ht & _ & _ & _ & _ & Hgh & Hsb & Hdp & Hto & _).
    rewrite Hg, Hl, Ht, Hgh, Hsb, Hdp, Hto. repeat split.
  - rewrite (Index_foodCollision_none nextHead st Hfood). repeat split.
Qed.

Lemma Index_powerUpCollision_gameState (now : Z) (nextHead : Position) (st : State) :
  gameState (Index.powerUpCollision now nextHead st) = gameState st.
Proof.
  unfold Index.powerUpCollision.
  destruct (powerUp st) as [[pos type] |]; [| reflexivity].
  cbn [pu_pos pu_type]. destruct (pos_eqb nextHead pos); [| reflexivity].
  destruct type; reflexivity.
Qed.

Lemma Index_updateTimer_gameState (now : Z) (st : State) :
  gameState (Index.updateTimer now st) = gameState st
  \/ gameState (Index.updateTimer now st) = LEVEL_TRANSITION.
Proof.
  unfold Index.updateTimer. cbv zeta.
  destruct (double_leb _ _); [right | left]; reflexivity.
Qed.

(** A tick of index.tsx that does not collide leaves the game PLAYING or ends
    the level. *)
Lemma Index_tick_without_collision (now : Z) (st : State) (nextHead : Position) :
  nextHeadOf st = Some nextHead ->
  Index.collides now nextHead (Index.dequeueDirection st) = false ->
  gameState (Index.updateGameLogic random now st) = gameState st
  \/ gameState (Index.updateGameLogic random now st) = LEVEL_TRANSITION.
Proof.
  unfold nextHeadOf, Index.updateGameLogic. cbv zeta.
  assert (Hgs : gameState (Index.dequeueDirection st) = gameState st).
  { unfold Index.dequeueDirection. destruct (moveQueue st); reflexivity. }
  destruct (snake (Index.dequeueDirection st)) as [| h body]; [discriminate |].
  intros [= <-] ->.
  set (nh := pos_add h _). set (st1 := Index.dequeueDirection st) in *.
  destruct (Index_updateTimer_gameState now
              (Index.powerUpCollision now nh (Index.foodCollision random nh st1)))
    as [H | H]; [left | right; exact H].
  rewrite H, Index_powerUpCollision_gameState.
  destruct (Index_foodCollision_keeps nh st1) as (Hg & _). rewrite Hg. exact Hgs.
Qed.

Lemma Index_tick_with_collision (now : Z) (st : State) (nextHead : Position) :
  nextHeadOf st = Some nextHead ->
  Index.collides now nextHead (Index.dequeueDirection st) = true ->
  Index.updateGameLogic random now st
  = set_gameState GAME_OVER (Index.dequeueDirection st).
Proof.
  unfold nextHeadOf, Index.updateGameLogic. cbv zeta.
  destruct (snake (Index.dequeueDirection st)) as [| h body]; [discriminate |].
  intros [= <-] ->. reflexivity.
Qed.
End TickPhases.

Section TickPhasesPart000.
Variable random : nat -> Q.

Lemma dequeueDirection_set_timeLeft (v : double) (st : State) :
  Index.dequeueDirection (set_timeLeft v st)
  = set_timeLeft v (Index.dequeueDirection st).
Proof. unfold Index.dequeueDirection. cbn. destruct (moveQueue st); reflexivity. Qed.

Lemma dequeueDirection_keeps (st : State) :
  let st' := Index.dequeueDirection st in
  gameState st' = gameState st /\ snake st' = snake st
  /\ score st' = score st /\ level st' = level st
  /\ timeLeft st' = timeLeft st /\ foods st' = foods st
  /\ powerUp st' = powerUp st /\ moveInterval st' = moveInterval st
  /\ ghostModeEndTime st' = ghostModeEndTime st
  /\ speedBoostEndTime st' = speedBoostEndTime st
  /\ dogPulseEndTime st' = dogPulseEndTime st.
Proof.
  unfold Index.dequeueDirection. destruct (moveQueue st); cbn; repeat split.
Qed.

Lemma Part000_eatFood_none (newHead : Position) (st : State) :
  foodAt newHead st = None -> Part000.eatFood random newHead st = (st, false).
Proof.
  unfold foodAt, Part000.eatFood. intros Hnone.
  pose proof (findIndex_find (fun f => pos_eqb (food_pos f) newHead) (foods st)) as H.
  destruct (findIndex _ (foods st)) as [i |]; [| reflexivity].
  destruct H as (a & _ & Hf & _). congruence.
Qed.

Lemma Part000_eatFood_eats (newHead : Position) (st : State) (f : FoodItem) :
  foodAt newHead st = Some f ->
  exists i,
    (i < List.length (foods st))%nat
    /\ Part000.eatFood random newHead st
       = (Part000.spawnPowerUp random
            (Part000.spawnFood random 1
               (set_foods (splice1 i (foods st))
                  (set_moveInterval (Z.max 50 (moveInterval st - 2))
                     (set_score (score st + foodValue f) st)))), true).
Proof.
  unfold foodAt, Part000.eatFood. intros Hsome.
  pose proof (findIndex_find (fun f => pos_eqb (food_pos f) newHead) (foods st)) as H.
  destruct (findIndex _ (foods st)) as [i |]; [| congruence].
  destruct H as (a & Hn & Hf & Hi). rewrite Hn.
  assert (a = f) by congruence. subst a.
  exists i. split; [exact Hi | reflexivity].
Qed.

Lemma Part000_eatFood_keeps (newHead : Position) (st : State) :
  let st' := fst (Part000.eatFood random newHead st) in
  gameState st' = gameState st /\ level st' = level st
  /\ timeLeft st' = timeLeft st /\ snake st' = snake st
  /\ ghostModeEndTime st' = ghostModeEndTime st
  /\ speedBoostEndTime st' = speedBoostEndTime st
  /\ dogPulseEndTime st' = dogPulseEndTime st
  /\ timeouts st' = timeouts st.
Proof.
  cbv zeta.
  destruct (foodAt newHead st) as [f |] eqn:Hfood.
  - destruct (Part000_eatFood_eats newHead st f Hfood) as (i & _ & ->).
    cbn [fst].
    set (st1 := set_foods _ _).
    destruct (unspawned_fields _ _
                (Part000_spawnPowerUp_unspawned random (Part000.spawnFood random 1 st1)))
      as (Hg & _ & Hl & Ht & Hs & _ & _ & _ & Hgh & Hsb & Hdp & Hto & _).
    destruct (unspawned_fields _ _ (Part000_spawnFood_unspawned random 1 st1))
      as (Hg' & _ & Hl' & Ht' & Hs' & _ & _ & _ & Hgh' & Hsb' & Hdp' & Hto' & _).
    rewrite Hg, Hl, Ht, Hs, Hgh, Hsb, Hdp, Hto, Hg', Hl', Ht', Hs', Hgh', Hsb', Hdp', Hto'.
    repeat split.
  - rewrite (Part000_eatFood_none newHead st Hfood). repeat split.
Qed.

Lemma Part000_eatPowerUp_gameState (now : Z) (newHead : Position) (st : State) :
  gameState (Part000.eatPowerUp now newHead st) = gameState st.
Proof.
  unfold Part000.eatPowerUp.
  destruct (powerUp st) as [[pos type] |]; [| reflexivity].
  cbn [pu_pos pu_type]. destruct (pos_eqb newHead pos); [| reflexivity].
  destruct type; reflexivity.
Qed.

(** The tick of part_000 once the countdown has not run out. *)
Lemma Part000_tick_unfold (now : Z) (st : State) (newHead : Position) :
  Part000_runsOut st = false ->
  nextHeadOf st = Some newHead ->
  let st1 := set_timeLeft (double_sub (timeLeft st) double_0_1)
               (Index.dequeueDirection st) in
  Part000.updateGameLogic random now st
  = if Part000.collides now newHead st1 then Part000.triggerCrash st1
    else
      let st2 := Part000.eatPowerUp now newHead
                   (fst (Part000.eatFood random newHead st1)) in
      set_snake (if snd (Part000.eatFood random newHead st1)
                 then newHead :: snake st1
                 else removelast (newHead :: snake st1)) st2.
Proof.
  intros Htime. unfold nextHeadOf, Part000.updateGameLogic. cbv zeta.
  cbn [timeLeft set_timeLeft].
  unfold Part000_runsOut in Htime. rewrite Htime.
  change Part000.dequeueDirection with Index.dequeueDirection.
  rewrite dequeueDirection_set_timeLeft.
  cbn [snake direction set_timeLeft].
  destruct (snake (Index.dequeueDirection st)) as [| h body]; [discriminate |].
  intros [= <-].
  destruct (Part000.collides _ _ _); [reflexivity |].
  destruct (Part000.eatFood random _ _) as [st2 grown]. reflexivity.
Qed.

Lemma Part000_tick_countdown_over (now : Z) (st : State) :
  Part000_runsOut st = true ->
  Part000.updateGameLogic random now st
  = Part000.finishLevel now
      (set_timeLeft (double_sub (timeLeft st) double_0_1) st).
Proof.
  intros Htime. unfold Part000.updateGameLogic. cbv zeta.
  cbn [timeLeft set_timeLeft].
  unfold Part000_runsOut in Htime. rewrite Htime.
  reflexivity.
Qed.
End TickPhasesPart000.

(** ** C1: self-intersection and invulnerability *)

Lemma Index_collides_self (now : Z) (nextHead : Position) (st : State) :
  Index.hitWall nextHead = false ->
  In nextHead (tl (snake st)) ->
  Index.collides now nextHead st = (now >? ghostModeEndTime st).
Proof.
  intros Hwall Hin. unfold Index.collides. rewrite Hwall.
  apply Index_hitSelf_iff in Hin. rewrite Hin. reflexivity.
Qed.

Lemma Part000_collides_self (now : Z) (newHead : Position) (st : State) :
  Part000.hitWall newHead = false ->
  In newHead (removelast (snake st)) ->
  Part000.collides now newHead st = negb (now <? ghostModeEndTime st).
Proof.
  intros Hwall Hin. unfold Part000.collides. rewrite Hwall. cbv zeta.
  apply Part000_hitSelf_iff in Hin. rewrite Hin.
  rewrite andb_true_r. reflexivity.
Qed.

Section Expiry.
Variable random : nat -> Q.

(** A tick leaves the invulnerability expiry as it is or, eating a GHOST
    power-up, sets it to its own timestamp plus 10000. *)
Lemma Index_tick_expiry (now : Z) (st : State) :
  ghostModeEndTime (Index.updateGameLogic random now st) = ghostModeEndTime st
  \/ ghostModeEndTime (Index.updateGameLogic random now st) = now + 10000.
Proof.
  unfold Index.updateGameLogic. cbv zeta.
  destruct (dequeueDirection_keeps st)
    as (_ & _ & _ & _ & _ & _ & _ & _ & Hgh & _).
  destruct (snake (Index.dequeueDirection st)) as [| h body]; [left; exact Hgh |].
  destruct (Index.collides _ _ _); [left; exact Hgh |].
  set (nh := pos_add h _).
  destruct (Index_foodCollision_keeps random nh (Index.dequeueDirection st))
    as (_ & _ & _ & Hg2 & _).
  revert Hg2.
  generalize (Index.foodCollision random nh (Index.dequeueDirection st)) as st2.
  intros st2 Hg2.
  assert (Hp : ghostModeEndTime (Index.powerUpCollision now nh st2)
               = ghostModeEndTime st2
               \/ ghostModeEndTime (Index.powerUpCollision now nh st2)
                  = now + 10000).
  { unfold Index.powerUpCollision.
    destruct (powerUp st2) as [[pos type] |]; [| left; reflexivity].
    cbn [pu_pos pu_type]. destruct (pos_eqb nh pos); [| left; reflexivity].
    destruct type; [left | right | left]; reflexivity. }
  revert Hp. generalize (Index.powerUpCollision now nh st2) as st3.
  intros st3 Hp.
  assert (Ht : ghostModeEndTime (Index.updateTimer now st3) = ghostModeEndTime st3).
  { unfold Index.updateTimer. cbv zeta.
    destruct (double_leb _ _); reflexivity. }
  rewrite Ht. destruct Hp as [Hp | Hp]; [left; congruence | right; exact Hp].
Qed.

Lemma Part000_tick_expiry (now : Z) (st : State) :
  ghostModeEndTime (Part000.updateGameLogic random now st) = ghostModeEndTime st
  \/ ghostModeEndTime (Part000.updateGameLogic random now st) = now + 10000.
Proof.
  unfold Part000.updateGameLogic. cbv zeta.
  cbn [timeLeft set_timeLeft].
  destruct (double_leb _ _); [left; reflexivity |].
  change Part000.dequeueDirection with Index.dequeueDirection.
  rewrite dequeueDirection_set_timeLeft.
  destruct (dequeueDirection_keeps st)
    as (_ & _ & _ & _ & _ & _ & _ & _ & Hgh & _).
  set (st1 := set_timeLeft _ (Index.dequeueDirection st)).
  assert (H1 : ghostModeEndTime st1 = ghostModeEndTime st) by exact Hgh.
  clearbody st1.
  destruct (snake st1) as [| h body]; [left; exact H1 |].
  destruct (Part000.collides _ _ _); [left; exact H1 |].
  set (nh := pos_add h _).
  destruct (Part000_eatFood_keeps random nh st1) as (_ & _ & _ & _ & Hg2 & _).
  destruct (Part000.eatFood random nh st1) as [st2 grown]. cbn [fst] in Hg2.
  cbn [ghostModeEndTime set_snake].
  unfold Part000.eatPowerUp.
  destruct (powerUp st2) as [[pos type] |]; [| left; congruence].
  cbn [pu_pos pu_type]. destruct (pos_eqb nh pos); [| left; congruence].
  destruct type; [left | right | left]; cbn; congruence.
Qed.
End Expiry.

(** C1 (amended): a tick is decided against the invulnerability expiry that is
    stored when it runs.  On a tick while PLAYING whose nextHead lies inside
    the walls on a snake cell that the self test counts (index.tsx: any cell
    but the head; part_000: any cell but the tail, and the countdown does not
    run out on this tick), the run does not end when the timestamp is before
    the stored expiry and ends in GAME_OVER when it is after it (in part_000
    also at the expiry itself).  A tick at t0 that eats a GHOST power-up, with
    no food on that cell, sets the expiry to t0 + 10000, and every tick leaves
    the expiry as it is or sets it to its own timestamp plus 10000. *)
Theorem self_intersection_and_invulnerability
    (random : nat -> Q) (now : Z) (st : State) (nextHead : Position)
    (Hplaying : gameState st = PLAYING)
    (Hnext : nextHeadOf st = Some nextHead) :
  (Index.hitWall nextHead = false -> In nextHead (tl (snake st)) ->
     (now < ghostModeEndTime st ->
        gameState (Index.updateGameLogic random now st) <> GAME_OVER)
     /\ (ghostModeEndTime st < now ->
        gameState (Index.updateGameLogic random now st) = GAME_OVER))
  /\ (Part000_runsOut st = false -> Part000.hitWall nextHead = false ->
      In nextHead (removelast (snake st)) ->
     (now < ghostModeEndTime st ->
        gameState (Part000.updateGameLogic random now st) <> GAME_OVER)
     /\ (ghostModeEndTime st <= now ->
        gameState (Part000.updateGameLogic random now st) = GAME_OVER))
  /\ (foodAt nextHead st = None ->
      powerUp st = Some {| pu_pos := nextHead; pu_type := GHOST |} ->
      (Index.collides now nextHead (Index.dequeueDirection st) = false ->
         ghostModeEndTime (Index.updateGameLogic random now st) = now + 10000)
      /\ (Part000_runsOut st = false ->
          Part000.collides now nextHead
            (set_timeLeft (double_sub (timeLeft st) double_0_1)
               (Index.dequeueDirection st)) = false ->
         ghostModeEndTime (Part000.updateGameLogic random now st) = now + 10000))
  /\ (ghostModeEndTime (Index.updateGameLogic random now st) = ghostModeEndTime st
      \/ ghostModeEndTime (Index.updateGameLogic random now st) = now + 10000)
  /\ (ghostModeEndTime (Part000.updateGameLogic random now st) = ghostModeEndTime st
      \/ ghostModeEndTime (Part000.updateGameLogic random now st) = now + 10000).
Proof.
  destruct (dequeueDirection_keeps st)
    as (Hgs & Hsn & _ & _ & _ & Hfo & Hpu & _ & Hgh & _).
  split; [| split; [| split; [| split;
    [apply Index_tick_expiry | apply Part000_tick_expiry]]]].
  - (* index.tsx *)
    intros Hwall Hin.
    assert (Hc : Index.collides now nextHead (Index.dequeueDirection st)
                 = (now >? ghostModeEndTime st)).
    { rewrite Index_collides_self; [rewrite Hgh; reflexivity | exact Hwall |].
      rewrite Hsn. exact Hin. }
    split; intros Hnow.
    + destruct (Index_tick_without_collision random now st nextHead Hnext) as [H | H].
      * rewrite Hc, Z.gtb_ltb. apply Z.ltb_ge. lia.
      * rewrite H, Hplaying. discriminate.
      * rewrite H. discriminate.
    + rewrite (Index_tick_with_collision random now st nextHead Hnext).
      * reflexivity.
      * rewrite Hc, Z.gtb_ltb. apply Z.ltb_lt. lia.
  - (* part_000 *)
    intros Htime Hwall Hin.
    rewrite (Part000_tick_unfold random now st nextHead Htime Hnext). cbv zeta.
    rewrite Part000_collides_self;
      [| exact Hwall | cbn [snake set_timeLeft]; rewrite Hsn; exact Hin].
    cbn [ghostModeEndTime set_timeLeft]. rewrite Hgh.
    split; intros Hnow.
    + replace (now <? ghostModeEndTime st) with true
        by (symmetry; apply Z.ltb_lt; lia).
      cbn [negb set_snake gameState].
      rewrite Part000_eatPowerUp_gameState.
      destruct (Part000_eatFood_keeps random nextHead
                  (set_timeLeft (double_sub (timeLeft st) double_0_1)
                     (Index.dequeueDirection st)))
        as (Hg & _).
      rewrite Hg. cbn [gameState set_timeLeft]. rewrite Hgs, Hplaying. discriminate.
    + replace (now <? ghostModeEndTime st) with false
        by (symmetry; apply Z.ltb_ge; lia).
      reflexivity.
  - (* a GHOST power-up eaten at [now] *)
    intros Hfood Hghost. split.
    + intros Hc. unfold Index.updateGameLogic. cbv zeta.
      unfold nextHeadOf in Hnext. cbv zeta in Hnext.
      destruct (snake (Index.dequeueDirection st)) as [| h body] eqn:Hbody;
        [discriminate |].
      injection Hnext as Hnext. rewrite Hnext, Hc.
      rewrite Index_foodCollision_none
        by (unfold foodAt; rewrite Hfo; exact Hfood).
      unfold Index.powerUpCollision. cbn [powerUp set_snake].
      rewrite Hpu, Hghost. cbn [pu_pos pu_type]. rewrite pos_eqb_refl.
      unfold Index.updateTimer. cbv zeta.
      destruct (double_leb _ _); reflexivity.
    + intros Htime Hc.
      rewrite (Part000_tick_unfold random now st nextHead Htime Hnext). cbv zeta.
      rewrite Hc.
      rewrite Part000_eatFood_none
        by (unfold foodAt; cbn [foods set_timeLeft]; rewrite Hfo; exact Hfood).
      cbn [fst snd]. unfold Part000.eatPowerUp. cbn [powerUp set_timeLeft].
      rewrite Hpu, Hghost. cbn [pu_pos pu_type]. rewrite pos_eqb_refl.
      reflexivity.
Qed.

(** The theorem at the curled-up snake: with the expiry at 9000 the tick at
    5000 does not end the run, the ticks at 9001 do, and part_000 ends it at
    9000 as well. *)
Lemma self_intersection_and_invulnerability_witness :
  gameState (curledUp 9000) = PLAYING
  /\ nextHeadOf (curledUp 9000) = Some {| px := 0; pz := 1 |}
  /\ gameState (Index.updateGameLogic zeroRandom 5000 (curledUp 9000)) <> GAME_OVER
  /\ gameState (Index.updateGameLogic zeroRandom 9001 (curledUp 9000)) = GAME_OVER
  /\ gameState (Part000.updateGameLogic zeroRandom 5000 (curledUp 9000)) <> GAME_OVER
  /\ gameState (Part000.updateGameLogic zeroRandom 9000 (curledUp 9000)) = GAME_OVER.
Proof.
  split; [reflexivity |]. split; [reflexivity |].
  assert (Hin1 : In {| px := 0; pz := 1 |} (tl (snake (curledUp 9000))))
    by (simpl; tauto).
  assert (Hin2 : In {| px := 0; pz := 1 |} (removelast (snake (curledUp 9000))))
    by (simpl; tauto).
  assert (Htime : Part000_runsOut (curledUp 9000) = false) by reflexivity.
  split; [| split; [| split]].
  - apply (proj1 (self_intersection_and_invulnerability zeroRandom 5000
                    (curledUp 9000) {| px := 0; pz := 1 |} eq_refl eq_refl));
      [reflexivity | exact Hin1 | simpl; lia].
  - apply (proj1 (self_intersection_and_invulnerability zeroRandom 9001
                    (curledUp 9000) {| px := 0; pz := 1 |} eq_refl eq_refl));
      [reflexivity | exact Hin1 | simpl; lia].
  - apply (proj1 (proj2 (self_intersection_and_invulnerability zeroRandom 5000
                    (curledUp 9000) {| px := 0; pz := 1 |} eq_refl eq_refl)));
      [exact Htime | reflexivity | exact Hin2 | simpl; lia].
  - apply (proj1 (proj2 (self_intersection_and_invulnerability zeroRandom 9000
                    (curledUp 9000) {| px := 0; pz := 1 |} eq_refl eq_refl)));
      [exact Htime | reflexivity | exact Hin2 | simpl; lia].
Defined.

(** C1 as stated fails in part_000: after the trace [ontoTheTail] the head at
    (-1, -2) moves onto (0, -2), the cell of the tail, while invulnerability is
    not active (the expiry is 0); the tick does not end the run, the snake just
    follows its tail. *)
Lemma moving_onto_the_tail_does_not_end_the_run :
  let st := Part000.run threeAheadRandom ontoTheTail initialState in
  let now := epoch + 1206 in
  gameState st = PLAYING
  /\ snake st = [ {| px := -1; pz := -2 |}; {| px := -1; pz := -3 |};
                  {| px := 0; pz := -3 |}; {| px := 0; pz := -2 |} ]
  /\ nextHeadOf st = Some {| px := 0; pz := -2 |}
  /\ isOccupied (snake st) {| px := 0; pz := -2 |} = true
  /\ invulnerable now st = false
  /\ gameState (Part000.step threeAheadRandom (Frame 1206 now) st) = PLAYING
  /\ snake (Part000.step threeAheadRandom (Frame 1206 now) st)
     = [ {| px := 0; pz := -2 |}; {| px := -1; pz := -2 |};
         {| px := -1; pz := -3 |}; {| px := 0; pz := -3 |} ].
Proof. vm_compute. repeat split. Qed.

(** At the instant of expiry itself index.tsx still lets the snake through
    ([Date.now() > ghostModeEndTimeRef.current] is false), though the indicator
    [invulnerable] is already off. *)
Example Index_tick_at_the_expiry :
  invulnerable 9000 (curledUp 9000) = false
  /\ gameState (Index.updateGameLogic zeroRandom 9000 (curledUp 9000)) = PLAYING.
Proof. vm_compute. split; reflexivity. Qed.

(** ** C2: the walls *)

(** part_000 tests the half-open range [-15, 15). *)
Lemma Part000_wall_collision_iff (p : Position) :
  Part000.hitWall p = true
  <-> px p >= 15 \/ px p < -15 \/ pz p >= 15 \/ pz p < -15.
Proof.
  destruct (Part000.hitWall p) eqn:H.
  - split; [intros _ | reflexivity].
    destruct (Z_le_gt_dec (-15) (px p)), (Z_le_gt_dec (px p) 14),
             (Z_le_gt_dec (-15) (pz p)), (Z_le_gt_dec (pz p) 14); try lia.
    assert (Part000.hitWall p = false) by (apply Part000_hitWall_false_iff; lia).
    congruence.
  - apply Part000_hitWall_false_iff in H. split; [discriminate | lia].
Qed.

(** index.tsx tests [>] where part_000 tests [>=]: x = 15 and z = 15 pass. *)
Lemma Index_wall_collision_iff (p : Position) :
  Index.hitWall p = true
  <-> px p > 15 \/ px p < -15 \/ pz p > 15 \/ pz p < -15.
Proof.
  destruct (Index.hitWall p) eqn:H.
  - split; [intros _ | reflexivity].
    destruct (Z_le_gt_dec (-15) (px p)), (Z_le_gt_dec (px p) 15),
             (Z_le_gt_dec (-15) (pz p)), (Z_le_gt_dec (pz p) 15); try lia.
    assert (Index.hitWall p = false) by (apply Index_hitWall_false_iff; lia).
    congruence.
  - apply Index_hitWall_false_iff in H. split; [discriminate | lia].
Qed.

(** C2, the failing input in index.tsx: after [towardsTheRightWall] the head is
    on (14, 2) moving right; the next tick moves it onto x = 15 and the game
    goes on, it ends only one tick later on x = 16.  On the same input
    part_000, whose head is on (14, 0), ends the game on the first of these
    ticks. *)
Theorem Index_wall_test_lets_15_through :
  let st := Index.run zeroRandom towardsTheRightWall initialState in
  let st' := Index.step zeroRandom (frameAt 201 14) st in
  let st'' := Index.step zeroRandom (frameAt 201 15) st' in
  let pt := Part000.run zeroRandom towardsTheRightWall initialState in
  gameState st = PLAYING
  /\ nextHeadOf st = Some {| px := 15; pz := 2 |}
  /\ Index.hitWall {| px := 15; pz := 2 |} = false
  /\ gameState st' = PLAYING
  /\ snake st' = [ {| px := 15; pz := 2 |}; {| px := 14; pz := 2 |};
                   {| px := 13; pz := 2 |} ]
  /\ gameState st'' = GAME_OVER
  /\ gameState pt = PLAYING
  /\ nextHeadOf pt = Some {| px := 15; pz := 0 |}
  /\ Part000.hitWall {| px := 15; pz := 0 |} = true
  /\ gameState (Part000.step zeroRandom (frameAt 201 14) pt) = GAME_OVER.
Proof. vm_compute. repeat split. Qed.

(** ** C3: eating food *)

Lemma length_removelast_cons {A : Type} (a : A) (l : list A) :
  List.length (removelast (a :: l)) = List.length l.
Proof.
  revert a. induction l as [| b l IH]; intros a; [reflexivity |].
  change (removelast (a :: b :: l)) with (a :: removelast (b :: l)).
  change (S (List.length (removelast (b :: l))) = S (List.length l)).
  f_equal. apply IH.
Qed.

Section EatingFood.
Variable random : nat -> Q.

Lemma Index_spawnFood_body_foods (st : State) :
  exists newFood, foods (Index.spawnFood_body random st) = foods st ++ [newFood].
Proof.
  unfold Index.spawnFood_body.
  destruct (getRandomPosition_some random
              (snake st ++ foodCells (foods st) ++ powerUpCells (powerUp st))
              (randomCalls st)) as (pos & t & c & ->).
  eexists. reflexivity.
Qed.

Lemma Index_spawnPowerUp_foods (st : State) :
  foods (Index.spawnPowerUp random st) = foods st.
Proof.
  unfold Index.spawnPowerUp.
  destruct (getRandomPosition random _ _) as [[[pos t] c] |]; reflexivity.
Qed.

(** One item short of [level * 5], [spawnFood] of index.tsx adds exactly one. *)
Lemma Index_spawnFood_one (st : State) :
  Z.of_nat (List.length (foods st)) = level st * 5 - 1 ->
  exists newFood, foods (Index.spawnFood random st) = foods st ++ [newFood].
Proof.
  intros Hlen. unfold Index.spawnFood.
  replace (Z.to_nat _) with 1%nat by lia.
  cbn [Index.spawnFood_loop].
  replace (_ <? _) with true by (symmetry; apply Z.ltb_lt; lia).
  destruct (Index_spawnFood_body_foods st) as (newFood & Hnew).
  exists newFood.
  destruct (powerUp (Index.spawnFood_body random st)); [exact Hnew |].
  destruct (Qltb _ _); [rewrite Index_spawnPowerUp_foods |]; exact Hnew.
Qed.

Lemma Part000_spawnFood_one (st : State) :
  exists newFood, foods (Part000.spawnFood random 1 st) = foods st ++ [newFood].
Proof.
  unfold Part000.spawnFood. change (Z.to_nat 1) with 1%nat.
  cbn [Part000.spawnFood_rounds]. unfold Part000.spawnFood_body.
  destruct (getRandomPosition_some random
              (snake st ++ foodCells (foods st) ++ powerUpCells (powerUp st))
              (randomCalls st)) as (pos & t & c & ->).
  eexists. reflexivity.
Qed.

Lemma Index_powerUpCollision_none (now : Z) (nextHead : Position) (st : State) :
  powerUpOn nextHead st = false -> Index.powerUpCollision now nextHead st = st.
Proof.
  unfold powerUpOn, Index.powerUpCollision.
  destruct (powerUp st); [| reflexivity]. intros ->. reflexivity.
Qed.

Lemma Part000_eatPowerUp_none (now : Z) (newHead : Position) (st : State) :
  powerUpOn newHead st = false -> Part000.eatPowerUp now newHead st = st.
Proof.
  unfold powerUpOn, Part000.eatPowerUp.
  destruct (powerUp st); [| reflexivity]. intros ->. reflexivity.
Qed.

Lemma Index_updateTimer_keeps (now : Z) (st : State) :
  let st' := Index.updateTimer now st in
  score st' = score st /\ snake st' = snake st
  /\ moveInterval st' = moveInterval st /\ foods st' = foods st
  /\ level st' = level st /\ powerUp st' = powerUp st
  /\ ghostModeEndTime st' = ghostModeEndTime st
  /\ speedBoostEndTime st' = speedBoostEndTime st
  /\ dogPulseEndTime st' = dogPulseEndTime st
  /\ baseLevelSpeed st' = baseLevelSpeed st.
Proof.
  unfold Index.updateTimer. cbv zeta. destruct (double_leb _ _); cbn; repeat split.
Qed.

Lemma Index_powerUpCollision_snake (now : Z) (nextHead : Position) (st : State) :
  snake (Index.powerUpCollision now nextHead st) = snake st.
Proof.
  unfold Index.powerUpCollision.
  destruct (powerUp st) as [[pos type] |]; [| reflexivity].
  cbn [pu_pos pu_type]. destruct (pos_eqb nextHead pos); [| reflexivity].
  destruct type; reflexivity.
Qed.

(** The tick of index.tsx that does not collide, by its three steps. *)
Lemma Index_tick_unfold (now : Z) (st : State) (nextHead : Position) :
  nextHeadOf st = Some nextHead ->
  Index.collides now nextHead (Index.dequeueDirection st) = false ->
  Index.updateGameLogic random now st
  = Index.updateTimer now
      (Index.powerUpCollision now nextHead
         (Index.foodCollision random nextHead (Index.dequeueDirection st))).
Proof.
  unfold nextHeadOf, Index.updateGameLogic. cbv zeta.
  destruct (snake (Index.dequeueDirection st)) as [| h body]; [discriminate |].
  intros [= <-] ->. reflexivity.
Qed.
End EatingFood.

Lemma foodValue_cases (f : FoodItem) : foodValue f = 100 \/ foodValue f = 150.
Proof. unfold foodValue. destruct (food_type f); [left | right]; reflexivity. Qed.

(** C3 (amended): on a tick that does not collide (in part_000: and whose
    countdown has not run out), with a live food item on nextHead and no
    power-up on nextHead when the power-up test runs, the score grows by
    exactly 100 (hotdog) or 150 (fries), the snake by exactly one cell, the
    tick interval becomes max(50, interval - 2), and exactly one replacement is
    appended to the remaining food, so that the food count is what it was
    (level * 5 in index.tsx when it was level * 5 before); on a tick that does
    not collide and has no food on nextHead the snake keeps its length. *)
Theorem eating_food_scores_grows_and_replenishes
    (random : nat -> Q) (now : Z) (st : State) (nextHead : Position)
    (Hnext : nextHeadOf st = Some nextHead) :
  (Index.collides now nextHead (Index.dequeueDirection st) = false ->
     let st' := Index.updateGameLogic random now st in
     (forall f,
        foodAt nextHead st = Some f ->
        powerUpOn nextHead
          (Index.foodCollision random nextHead (Index.dequeueDirection st)) = false ->
        score st' = score st + foodValue f
        /\ (foodValue f = 100 \/ foodValue f = 150)
        /\ List.length (snake st') = S (List.length (snake st))
        /\ moveInterval st' = Z.max 50 (moveInterval st - 2)
        /\ 50 <= moveInterval st'
        /\ (Z.of_nat (List.length (foods st)) = level st * 5 ->
            (exists i newFood, foods st' = splice1 i (foods st) ++ [newFood])
            /\ Z.of_nat (List.length (foods st')) = level st' * 5))
     /\ (foodAt nextHead st = None ->
         List.length (snake st') = List.length (snake st)))
  /\ (Part000_runsOut st = false ->
      Part000.collides now nextHead
        (set_timeLeft (double_sub (timeLeft st) double_0_1)
           (Index.dequeueDirection st)) = false ->
     let st' := Part000.updateGameLogic random now st in
     (forall f,
        foodAt nextHead st = Some f ->
        powerUpOn nextHead
          (fst (Part000.eatFood random nextHead
                  (set_timeLeft (double_sub (timeLeft st) double_0_1)
                     (Index.dequeueDirection st))))
        = false ->
        score st' = score st + foodValue f
        /\ (foodValue f = 100 \/ foodValue f = 150)
        /\ List.length (snake st') = S (List.length (snake st))
        /\ moveInterval st' = Z.max 50 (moveInterval st - 2)
        /\ 50 <= moveInterval st'
        /\ (exists i newFood, foods st' = splice1 i (foods st) ++ [newFood])
        /\ List.length (foods st') = List.length (foods st))
     /\ (foodAt nextHead st = None ->
         List.length (snake st') = List.length (snake st))).
Proof.
  destruct (dequeueDirection_keeps st)
    as (Hgs & Hsn & Hsc & Hlv & Htl & Hfo & Hpu & Hmi & _).
  set (st1 := Index.dequeueDirection st) in *.
  split.
  - (* index.tsx *)
    intros Hc. cbv zeta.
    rewrite (Index_tick_unfold random now st nextHead Hnext Hc). fold st1.
    split.
    + intros f Hfood Hpow.
      assert (Hfood1 : foodAt nextHead st1 = Some f)
        by (unfold foodAt; rewrite Hfo; exact Hfood).
      destruct (Index_foodCollision_eats random nextHead st1 f Hfood1)
        as (i & Hi & Heq).
      rewrite Index_powerUpCollision_none by exact Hpow.
      destruct (Index_updateTimer_keeps now (Index.foodCollision random nextHead st1))
        as (Hs & Hn & Hm & Hf & Hl & _).
      rewrite Hs, Hn, Hm, Hf, Hl, Heq.
      set (X := set_foods _ _).
      cbn [score snake moveInterval foods level set_snake].
      destruct (unspawned_fields _ _ (Index_spawnFood_unspawned random X))
        as (_ & HXs & HXl & _ & _ & HXm & _).
      rewrite HXs, HXm, HXl. subst X.
      cbn [score moveInterval level foods set_foods set_moveInterval set_score].
      rewrite Hsc, Hmi, Hsn, Hlv, Hfo.
      split; [reflexivity |]. split; [apply foodValue_cases |].
      split; [reflexivity |]. split; [reflexivity |]. split; [lia |].
      intros Hcount.
      rewrite Hfo in Hi.
      destruct (Index_spawnFood_one random
                  (set_foods (splice1 i (foods st))
                     (set_moveInterval (Z.max 50 (moveInterval st - 2))
                        (set_score (score st + foodValue f) st1))))
        as (newFood & Hnew).
      { cbn [foods level set_foods set_moveInterval set_score].
        rewrite length_splice1 by exact Hi. rewrite Hlv. lia. }
      split.
      * exists i, newFood. rewrite Hnew. reflexivity.
      * rewrite Hnew. cbn [foods set_foods].
        rewrite length_app, length_splice1 by exact Hi. simpl List.length. lia.
    + intros Hfood.
      assert (Hfood1 : foodAt nextHead st1 = None)
        by (unfold foodAt; rewrite Hfo; exact Hfood).
      destruct (Index_updateTimer_keeps now
                  (Index.powerUpCollision now nextHead
                     (Index.foodCollision random nextHead st1)))
        as (_ & Hn & _).
      rewrite Hn, Index_powerUpCollision_snake,
        (Index_foodCollision_none random nextHead st1 Hfood1).
      cbn [snake set_snake]. rewrite length_removelast_cons, Hsn. reflexivity.
  - (* part_000 *)
    intros Htime Hc. cbv zeta.
    rewrite (Part000_tick_unfold random now st nextHead Htime Hnext). cbv zeta.
    fold st1. rewrite Hc.
    set (st2 := set_timeLeft (double_sub (timeLeft st) double_0_1) st1) in *.
    split.
    + intros f Hfood Hpow.
      assert (Hfood2 : foodAt nextHead st2 = Some f)
        by (unfold foodAt; subst st2; cbn [foods set_timeLeft]; rewrite Hfo; exact Hfood).
      destruct (Part000_eatFood_eats random nextHead st2 f Hfood2)
        as (i & Hi & Heq).
      rewrite Part000_eatPowerUp_none by exact Hpow.
      rewrite Heq. cbn [fst snd].
      set (X := set_foods _ _).
      cbn [score snake moveInterval foods set_snake].
      destruct (unspawned_fields _ _
                  (Part000_spawnPowerUp_unspawned random (Part000.spawnFood random 1 X)))
        as (_ & HPs & _ & _ & _ & HPm & _).
      destruct (unspawned_fields _ _ (Part000_spawnFood_unspawned random 1 X))
        as (_ & HXs & _ & _ & _ & HXm & _).
      rewrite HPs, HPm, HXs, HXm, Part000_spawnPowerUp_foods.
      destruct (Part000_spawnFood_one random X) as (newFood & Hnew).
      rewrite Hnew. subst X st2.
      cbn [score moveInterval foods snake set_foods set_moveInterval set_score
           set_timeLeft] in *.
      rewrite Hsc, Hmi, Hsn, Hfo in *.
      split; [reflexivity |]. split; [apply foodValue_cases |].
      split; [reflexivity |]. split; [reflexivity |]. split; [lia |].
      split.
      * exists i, newFood. reflexivity.
      * rewrite length_app, length_splice1 by exact Hi. simpl List.length. lia.
    + intros Hfood.
      assert (Hfood2 : foodAt nextHead st2 = None)
        by (unfold foodAt; subst st2; cbn [foods set_timeLeft]; rewrite Hfo; exact Hfood).
      rewrite (Part000_eatFood_none random nextHead st2 Hfood2).
      cbn [fst snd snake set_snake]. rewrite length_removelast_cons.
      subst st2. cbn [snake set_timeLeft]. rewrite Hsn. reflexivity.
Qed.

(** The theorem on the first tick of a new game with a hotdog in front of the
    head, in both files. *)
Lemma eating_food_scores_grows_and_replenishes_witness :
  let st := Index.run hotdogAheadRandom [ClickPlay] initialState in
  let st' := Index.updateGameLogic hotdogAheadRandom (epoch + 201) st in
  let pt := Part000.run threeAheadRandom [ClickPlay] initialState in
  let pt' := Part000.updateGameLogic threeAheadRandom (epoch + 201) pt in
  nextHeadOf st = Some {| px := 0; pz := 1 |}
  /\ (score st' = score st + 100
      /\ List.length (snake st') = S (List.length (snake st))
      /\ moveInterval st' = Z.max 50 (moveInterval st - 2))
  /\ nextHeadOf pt = Some {| px := 0; pz := -1 |}
  /\ (score pt' = score pt + 100
      /\ List.length (snake pt') = S (List.length (snake pt))
      /\ moveInterval pt' = Z.max 50 (moveInterval pt - 2)).
Proof.
  cbv zeta.
  set (st := Index.run hotdogAheadRandom [ClickPlay] initialState).
  set (pt := Part000.run threeAheadRandom [ClickPlay] initialState).
  assert (Hn : nextHeadOf st = Some {| px := 0; pz := 1 |})
    by (vm_compute; reflexivity).
  assert (Hm : nextHeadOf pt = Some {| px := 0; pz := -1 |})
    by (vm_compute; reflexivity).
  split; [exact Hn |]. split; [| split; [exact Hm |]].
  - destruct (proj1 (eating_food_scores_grows_and_replenishes hotdogAheadRandom
                       (epoch + 201) st {| px := 0; pz := 1 |} Hn)) as [Heat _].
    { vm_compute; reflexivity. }
    destruct (Heat {| food_pos := {| px := 0; pz := 1 |}; food_type := HOTDOG |})
      as (Hs & _ & Hl & Hi & _).
    { vm_compute; reflexivity. }
    { vm_compute; reflexivity. }
    split; [exact Hs |]. split; [exact Hl | exact Hi].
  - destruct (proj2 (eating_food_scores_grows_and_replenishes threeAheadRandom
                       (epoch + 201) pt {| px := 0; pz := -1 |} Hm)) as [Heat _].
    { vm_compute; reflexivity. }
    { vm_compute; reflexivity. }
    destruct (Heat {| food_pos := {| px := 0; pz := -1 |}; food_type := HOTDOG |})
      as (Hs & _ & Hl & Hi & _).
    { vm_compute; reflexivity. }
    { vm_compute; reflexivity. }
    split; [exact Hs |]. split; [exact Hl | exact Hi].
Defined.

(** C3 as stated fails in index.tsx: in a new game with a hotdog on (0, 1), the
    first tick eats it; the replenishment of that same tick spawns a mustard
    power-up on (0, 1), which is not yet a snake cell for the spawner, and
    step 5 eats it at once: the score grows by 600, not by 100. *)
Lemma food_and_fresh_power_up_on_one_tick :
  let st := Index.run powerUpUnderHeadRandom [ClickPlay] initialState in
  let st' := Index.step powerUpUnderHeadRandom (frameAt 201 0) st in
  gameState st = PLAYING
  /\ nextHeadOf st = Some {| px := 0; pz := 1 |}
  /\ foodAt {| px := 0; pz := 1 |} st
     = Some {| food_pos := {| px := 0; pz := 1 |}; food_type := HOTDOG |}
  /\ powerUp st = None
  /\ gameState st' = PLAYING
  /\ score st = 0 /\ score st' = 600
  /\ List.length (snake st') = 4%nat.
Proof. vm_compute. repeat split. Qed.

Lemma zeroRandom_in_unit : random_in_unit zeroRandom.
Proof. intros n. split; [apply Qle_refl | reflexivity]. Qed.

(** The theorem with every cell drawn occupied: the oracle always answers 0,
    every candidate is (-15, -15), and that cell is taken. *)
Lemma getRandomPosition_terminates_in_range_witness :
  random_in_unit zeroRandom /\ (100 <= 100)%nat
  /\ exists pos tries calls',
       getRandomPosition_loop zeroRandom 100 [ {| px := -15; pz := -15 |} ] 0 0
       = Some (pos, tries, calls')
       /\ 1 <= tries <= 100
       /\ Z.of_nat calls' = Z.of_nat 0 + 2 * tries
       /\ pos = candidateAt zeroRandom (calls' - 2)
       /\ (isOccupied [ {| px := -15; pz := -15 |} ] pos = false \/ tries = 100)
       /\ -15 <= px pos <= 14 /\ -15 <= pz pos <= 14.
Proof.
  split; [exact zeroRandom_in_unit |]. split; [apply le_n |].
  exact (proj1 (getRandomPosition_terminates_in_range zeroRandom zeroRandom_in_unit
                  [ {| px := -15; pz := -15 |} ] 0 100 (le_n 100))).
Defined.

(** ** C4: the input queue *)

Lemma noReversal_snoc (prev d : Position) (queue : list Position) :
  noReversal prev (queue ++ [d])
  <-> noReversal prev queue /\ d <> negation (last queue prev).
Proof.
  revert prev. induction queue as [| a queue IH]; intros prev.
  - simpl. tauto.
  - change ((a :: queue) ++ [d]) with (a :: (queue ++ [d])).
    cbn [noReversal]. rewrite IH.
    assert (Hlast : forall q (x y : Position), last (x :: q) y = last q x).
    { clear. induction q as [| b q IHq]; intros x y; [reflexivity |].
      change (last (x :: b :: q) y) with (last (b :: q) y).
      rewrite (IHq b y), (IHq b x). reflexivity. }
    rewrite Hlast. tauto.
Qed.

Lemma negation_neq_iff (d m : Position) :
  negb (px d =? - px m) || negb (pz d =? - pz m) = true <-> d <> negation m.
Proof.
  destruct d as [a b], m as [c e]. unfold negation. cbn [px pz].
  rewrite orb_true_iff, !negb_true_iff, !Z.eqb_neq. split.
  - intros H Heq. injection Heq as H1 H2. lia.
  - intros H.
    destruct (Z.eq_dec a (- c)) as [-> |]; [| left; assumption].
    destruct (Z.eq_dec b (- e)) as [-> |]; [| right; assumption].
    exfalso. apply H. reflexivity.
Qed.

(** The key path of index.tsx validates a request: one that is the
    exact negation of the last queued (or, on an empty queue, the current)
    direction is dropped; any other is queued while fewer than three wait. *)
Lemma Index_enqueueDirection_spec (nextDir : Position) (st : State) :
  (nextDir = negation (lastMove st) ->
     Index.enqueueDirection nextDir st = st)
  /\ (nextDir <> negation (lastMove st) ->
      (List.length (moveQueue st) < 3)%nat ->
      Index.enqueueDirection nextDir st
      = set_moveQueue (moveQueue st ++ [nextDir]) st)
  /\ (nextDir <> negation (lastMove st) ->
      (3 <= List.length (moveQueue st))%nat ->
      Index.enqueueDirection nextDir st = st).
Proof.
  unfold Index.enqueueDirection. cbv zeta.
  pose proof (negation_neq_iff nextDir (lastMove st)) as Hiff.
  destruct (negb (px nextDir =? - px (lastMove st))
            || negb (pz nextDir =? - pz (lastMove st))) eqn:Hneg.
  - assert (Hne : nextDir <> negation (lastMove st)) by (apply Hiff; reflexivity).
    split; [intros; contradiction |].
    split; intros _ Hlen.
    + replace (_ <? 3)%nat with true by (symmetry; apply Nat.ltb_lt; exact Hlen).
      reflexivity.
    + replace (_ <? 3)%nat with false by (symmetry; apply Nat.ltb_ge; exact Hlen).
      reflexivity.
  - split; [reflexivity |].
    assert (Heq : ~ nextDir <> negation (lastMove st)).
    { intros Hne. apply Hiff in Hne. discriminate. }
    split; intros Hne; contradiction.
Qed.

Lemma Index_enqueueDirection_valid (nextDir : Position) (st : State) :
  queueValid st -> queueValid (Index.enqueueDirection nextDir st).
Proof.
  intros [Hlen Hrev].
  destruct (Index_enqueueDirection_spec nextDir st) as (Hdrop & Hpush & Hfull).
  unfold Index.enqueueDirection in *. cbv zeta in *.
  pose proof (negation_neq_iff nextDir (lastMove st)) as Hiff.
  destruct (negb (px nextDir =? - px (lastMove st))
            || negb (pz nextDir =? - pz (lastMove st))); [| split; assumption].
  destruct (List.length (moveQueue st) <? 3)%nat eqn:Hlt; [| split; assumption].
  apply Nat.ltb_lt in Hlt. split; cbn [moveQueue direction set_moveQueue].
  - rewrite length_app. simpl. lia.
  - apply noReversal_snoc. split; [exact Hrev |].
    apply Hiff. reflexivity.
Qed.

Section KeyPath.
Variable random : nat -> Q.

Lemma Index_resetGame_queue (fullReset : bool) (st : State) :
  moveQueue (Index.resetGame random fullReset st) = []
  /\ direction (Index.resetGame random fullReset st) = {| px := 0; pz := -1 |}.
Proof.
  unfold Index.resetGame.
  match goal with
  | |- context [Index.spawnFood random ?X] =>
      destruct (unspawned_fields _ _ (Index_spawnFood_unspawned random X))
        as (_ & _ & _ & _ & _ & _ & _ & _ & _ & _ & _ & _ & Hd & Hq)
  end.
  rewrite Hd, Hq. split; reflexivity.
Qed.

(** X2: under key input alone the queue of index.tsx never holds more than three
    directions and no queued direction reverses the one before it. *)
Lemma Index_handleKeyDown_valid (key : Key) (st : State) :
  queueValid st -> queueValid (Index.handleKeyDown random key st).
Proof.
  intros Hv.
  assert (Hstart : queueValid (Index.startGame random st)).
  { unfold queueValid, Index.startGame.
    destruct (Index_resetGame_queue true st) as [-> ->]. simpl. split; [lia | exact I]. }
  assert (Hpause : queueValid (Index.togglePause st)).
  { unfold Index.togglePause. destruct (gameState st); exact Hv. }
  unfold Index.handleKeyDown.
  destruct key; try assumption;
    destruct (gameState st); try assumption;
    cbn [keyDirection]; try assumption;
    apply Index_enqueueDirection_valid; exact Hv.
Qed.
End KeyPath.

(** The left key in a new game: the queue goes from empty to one direction. *)
Lemma Index_handleKeyDown_valid_witness :
  queueValid (Index.run zeroRandom [ClickPlay] initialState)
  /\ queueValid (Index.handleKeyDown zeroRandom ArrowLeft
                   (Index.run zeroRandom [ClickPlay] initialState)).
Proof.
  assert (H : queueValid (Index.run zeroRandom [ClickPlay] initialState)).
  { split; [vm_compute; lia | vm_compute; exact I]. }
  split; [exact H |].
  apply (Index_handleKeyDown_valid zeroRandom ArrowLeft _ H).
Defined.

(** C4, the failing input in index.tsx: in a new game the head moves up
    ((0, -1)) and the queue is empty.  The on-screen "down" button pushes
    (0, 1), the exact negation, where the "down" key is dropped; the next tick
    turns the head round into its own neck and the game is over.  Four presses
    leave four directions in the queue.  The touch handler of part_000 drops
    the reversal as its key handler does. *)
Theorem Index_touch_buttons_bypass_the_validation :
  let st := Index.run zeroRandom [ClickPlay] initialState in
  let pt := Part000.run zeroRandom [ClickPlay] initialState in
  gameState st = PLAYING
  /\ direction st = {| px := 0; pz := -1 |} /\ moveQueue st = []
  /\ moveQueue (Index.step zeroRandom (KeyDown 0 ArrowDown) st) = []
  /\ moveQueue (Index.step zeroRandom (PointerDown DOWN) st)
     = [ negation (direction st) ]
  /\ gameState (Index.run zeroRandom [PointerDown DOWN; frameAt 201 0] st)
     = GAME_OVER
  /\ List.length
       (moveQueue (Index.run zeroRandom
                     [PointerDown LEFT; PointerDown UP; PointerDown RIGHT;
                      PointerDown UP] st)) = 4%nat
  /\ direction pt = {| px := 0; pz := -1 |}
  /\ moveQueue (Part000.step zeroRandom (PointerDown DOWN) pt) = [].
Proof. vm_compute. repeat split. Qed.

(** ** C5: the effects of a power-up *)

Lemma Index_powerUpCollision_eats (now : Z) (nextHead : Position) (st : State)
    (p : PowerUp) :
  powerUp st = Some p -> pu_pos p = nextHead ->
  let st' := Index.powerUpCollision now nextHead st in
  powerUp st' = None /\ score st' = score st + 500
  /\ snake st' = snake st /\ timeLeft st' = timeLeft st
  /\ moveInterval st' = moveInterval st
  /\ timersAfter (pu_type p) now 1000 st st'.
Proof.
  intros Hp Hon. unfold Index.powerUpCollision. rewrite Hp, Hon, pos_eqb_refl.
  cbv zeta. unfold timersAfter. destruct (pu_type p); cbn; repeat split.
Qed.

Lemma Part000_eatPowerUp_eats (now : Z) (newHead : Position) (st : State)
    (p : PowerUp) :
  powerUp st = Some p -> pu_pos p = newHead ->
  let st' := Part000.eatPowerUp now newHead st in
  powerUp st' = None /\ score st' = score st + Part000_points (pu_type p)
  /\ snake st' = snake st /\ timeLeft st' = timeLeft st
  /\ moveInterval st' = moveInterval st
  /\ timersAfter (pu_type p) now 2000 st st'.
Proof.
  intros Hp Hon. unfold Part000.eatPowerUp. rewrite Hp, Hon, pos_eqb_refl.
  cbv zeta. unfold timersAfter. destruct (pu_type p); cbn; repeat split.
Qed.

(** C5 (amended): a tick that does not collide and eats the power-up on
    nextHead, with no food on that cell, applies the effect of its kind and
    nothing else.  In index.tsx every kind adds 500 to the score; GHOST also
    sets the invulnerability expiry to now + 10 s, BURGER also sets the boost
    expiry to now + 8 s and the pulse timer to now + 1 s.  In part_000 MUSTARD
    adds 500; GHOST adds 200 and sets the invulnerability expiry to now + 10 s;
    BURGER adds 300 and sets the boost expiry to now + 8 s and the pulse timer
    to now + 2 s.  The timers of the other kinds keep their values, the
    power-up is gone, and the tail is removed: the snake keeps its length. *)
Theorem power_up_effect_by_kind
    (random : nat -> Q) (now : Z) (st : State) (nextHead : Position) (p : PowerUp)
    (Hnext : nextHeadOf st = Some nextHead)
    (Hfood : foodAt nextHead st = None)
    (Hpower : powerUp st = Some p)
    (Hon : pu_pos p = nextHead) :
  (Index.collides now nextHead (Index.dequeueDirection st) = false ->
     let st' := Index.updateGameLogic random now st in
     score st' = score st + 500
     /\ timersAfter (pu_type p) now 1000 st st'
     /\ powerUp st' = None
     /\ List.length (snake st') = List.length (snake st))
  /\ (Part000_runsOut st = false ->
      Part000.collides now nextHead
        (set_timeLeft (double_sub (timeLeft st) double_0_1)
           (Index.dequeueDirection st)) = false ->
     let st' := Part000.updateGameLogic random now st in
     score st' = score st + Part000_points (pu_type p)
     /\ timersAfter (pu_type p) now 2000 st st'
     /\ powerUp st' = None
     /\ List.length (snake st') = List.length (snake st)).
Proof.
  destruct (dequeueDirection_keeps st)
    as (Hgs & Hsn & Hsc & Hlv & Htl & Hfo & Hpu & Hmi & Hgh & Hsb & Hdp).
  set (st1 := Index.dequeueDirection st) in *.
  split.
  - intros Hc. cbv zeta.
    rewrite (Index_tick_unfold random now st nextHead Hnext Hc). fold st1.
    rewrite Index_foodCollision_none by (unfold foodAt; rewrite Hfo; exact Hfood).
    set (st2 := set_snake (removelast (nextHead :: snake st1)) st1).
    assert (H2 : score st2 = score st /\ powerUp st2 = powerUp st
                 /\ List.length (snake st2) = List.length (snake st)
                 /\ ghostModeEndTime st2 = ghostModeEndTime st
                 /\ speedBoostEndTime st2 = speedBoostEndTime st
                 /\ dogPulseEndTime st2 = dogPulseEndTime st).
    { subst st2. cbn [score powerUp snake ghostModeEndTime speedBoostEndTime
                      dogPulseEndTime set_snake].
      rewrite length_removelast_cons, Hsn. repeat split; assumption. }
    destruct H2 as (H2s & H2p & H2n & H2g & H2b & H2d).
    destruct (Index_powerUpCollision_eats now nextHead st2 p)
      as (Hnone & Hscore & Hsnake & _ & _ & Htimers);
      [rewrite H2p; exact Hpower | exact Hon |].
    destruct (Index_updateTimer_keeps now (Index.powerUpCollision now nextHead st2))
      as (Hs & Hn & _ & _ & _ & Hp & Hg' & Hb' & Hd' & _).
    split; [rewrite Hs, Hscore, H2s; reflexivity |].
    split; [| split; [rewrite Hp; exact Hnone
                     | rewrite Hn, Hsnake; exact H2n]].
    unfold timersAfter in *. rewrite Hg', Hb', Hd'.
    rewrite H2g, H2b, H2d in Htimers. exact Htimers.
  - intros Htime Hc. cbv zeta.
    rewrite (Part000_tick_unfold random now st nextHead Htime Hnext). cbv zeta.
    fold st1. rewrite Hc.
    set (st2 := set_timeLeft (double_sub (timeLeft st) double_0_1) st1) in *.
    assert (H2 : score st2 = score st /\ powerUp st2 = powerUp st
                 /\ snake st2 = snake st /\ foods st2 = foods st
                 /\ ghostModeEndTime st2 = ghostModeEndTime st
                 /\ speedBoostEndTime st2 = speedBoostEndTime st
                 /\ dogPulseEndTime st2 = dogPulseEndTime st).
    { subst st2. cbn [score powerUp snake foods ghostModeEndTime speedBoostEndTime
                      dogPulseEndTime set_timeLeft]. repeat split; assumption. }
    destruct H2 as (H2s & H2p & H2n & H2f & H2g & H2b & H2d).
    rewrite Part000_eatFood_none by (unfold foodAt; rewrite H2f; exact Hfood).
    cbn [fst snd].
    destruct (Part000_eatPowerUp_eats now nextHead st2 p)
      as (Hnone & Hscore & Hsnake & _ & _ & Htimers);
      [rewrite H2p; exact Hpower | exact Hon |].
    set (st3 := Part000.eatPowerUp now nextHead st2) in *.
    split; [change (score st3 = score st + Part000_points (pu_type p));
            rewrite Hscore, H2s; reflexivity |].
    split; [| split; [exact Hnone |]].
    + unfold timersAfter in *.
      change (ghostModeEndTime (set_snake (removelast (nextHead :: snake st2)) st3))
        with (ghostModeEndTime st3).
      change (speedBoostEndTime (set_snake (removelast (nextHead :: snake st2)) st3))
        with (speedBoostEndTime st3).
      change (dogPulseEndTime (set_snake (removelast (nextHead :: snake st2)) st3))
        with (dogPulseEndTime st3).
      rewrite H2g, H2b, H2d in Htimers. exact Htimers.
    + change (List.length (removelast (nextHead :: snake st2))
              = List.length (snake st)).
      rewrite length_removelast_cons, H2n. reflexivity.
Qed.

(** The theorem on the tick that eats a GHOST power-up: the first tick of a new
    game of index.tsx, the second of part_000. *)
Lemma power_up_effect_by_kind_witness :
  let st := Index.run ghostRandom [ClickPlay] initialState in
  let st' := Index.updateGameLogic ghostRandom (epoch + 201) st in
  let pt := Part000.run part000GhostRandom [ClickPlay; frameAt 201 0] initialState in
  let pt' := Part000.updateGameLogic part000GhostRandom (epoch + 402) pt in
  (powerUp st = Some {| pu_pos := {| px := 0; pz := 1 |}; pu_type := GHOST |}
   /\ score st' = score st + 500
   /\ ghostModeEndTime st' = epoch + 201 + 10000
   /\ List.length (snake st') = List.length (snake st))
  /\ (powerUp pt = Some {| pu_pos := {| px := 0; pz := -2 |}; pu_type := GHOST |}
      /\ score pt' = score pt + 200
      /\ ghostModeEndTime pt' = epoch + 402 + 10000
      /\ List.length (snake pt') = List.length (snake pt)).
Proof.
  cbv zeta.
  set (st := Index.run ghostRandom [ClickPlay] initialState).
  set (pt := Part000.run part000GhostRandom [ClickPlay; frameAt 201 0] initialState).
  assert (Hp : powerUp st
               = Some {| pu_pos := {| px := 0; pz := 1 |}; pu_type := GHOST |})
    by (vm_compute; reflexivity).
  assert (Hq : powerUp pt
               = Some {| pu_pos := {| px := 0; pz := -2 |}; pu_type := GHOST |})
    by (vm_compute; reflexivity).
  split.
  - split; [exact Hp |].
    destruct (proj1 (power_up_effect_by_kind ghostRandom (epoch + 201) st
                       {| px := 0; pz := 1 |}
                       {| pu_pos := {| px := 0; pz := 1 |}; pu_type := GHOST |}
                       ltac:(vm_compute; reflexivity) ltac:(vm_compute; reflexivity)
                       Hp eq_refl))
      as (Hs & Ht & _ & Hl); [vm_compute; reflexivity |].
    split; [exact Hs |]. split; [exact (proj1 Ht) | exact Hl].
  - split; [exact Hq |].
    destruct (proj2 (power_up_effect_by_kind part000GhostRandom (epoch + 402) pt
                       {| px := 0; pz := -2 |}
                       {| pu_pos := {| px := 0; pz := -2 |}; pu_type := GHOST |}
                       ltac:(vm_compute; reflexivity) ltac:(vm_compute; reflexivity)
                       Hq eq_refl))
      as (Hs & Ht & _ & Hl); [vm_compute; reflexivity | vm_compute; reflexivity |].
    split; [exact Hs |]. split; [exact (proj1 Ht) | exact Hl].
Defined.

(** C5 as stated fails: eating a GHOST power-up changes the score, by 500 in
    index.tsx (first tick of a new game with the power-up on (0, 1)) and by 200
    in part_000; a BURGER adds 500 and 300. *)
Lemma ghost_and_burger_also_score :
  let st := Index.run ghostRandom [ClickPlay] initialState in
  let st' := Index.step ghostRandom (frameAt 201 0) st in
  let bt := Index.run burgerRandom [ClickPlay] initialState in
  let bt' := Index.step burgerRandom (frameAt 201 0) bt in
  let pt := Part000.run part000GhostRandom [ClickPlay; frameAt 201 0] initialState in
  let pt' := Part000.step part000GhostRandom (frameAt 201 1) pt in
  powerUp st = Some {| pu_pos := {| px := 0; pz := 1 |}; pu_type := GHOST |}
  /\ nextHeadOf st = Some {| px := 0; pz := 1 |}
  /\ score st = 0 /\ score st' = 500
  /\ ghostModeEndTime st' = epoch + 201 + 10000
  /\ powerUp bt = Some {| pu_pos := {| px := 0; pz := 1 |}; pu_type := BURGER |}
  /\ score bt = 0 /\ score bt' = 500
  /\ powerUp pt = Some {| pu_pos := {| px := 0; pz := -2 |}; pu_type := GHOST |}
  /\ nextHeadOf pt = Some {| px := 0; pz := -2 |}
  /\ score pt = 100 /\ score pt' = 300
  /\ score (Part000.handlePowerUp 0 BURGER pt) = score pt + 300.
Proof. vm_compute. repeat split. Qed.

(** ** C6: retrying the level *)

(** C6 (amended): retryLevel restores the score to the level-start snapshot,
    resets the snake, the direction, the input queue and the countdown, keeps
    the level number, sets the tick interval back to the level's base interval
    (undoing the speed-ups of the food eaten) and transitions to PLAYING.  In
    index.tsx the expiry timestamps of invulnerability and speed boost are left
    as they are (only a full reset clears them), so a boost that has not run
    out still overrides the interval that gates the ticks after the retry. *)
Theorem retryLevel_restores_the_level_start (random : nat -> Q) (st : State) :
  (let st' := Index.retryLevel random st in
   gameState st' = PLAYING
   /\ score st' = levelStartScore st
   /\ level st' = level st
   /\ snake st' = [ {| px := 0; pz := 2 |}; {| px := 0; pz := 3 |};
                    {| px := 0; pz := 4 |} ]
   /\ direction st' = {| px := 0; pz := -1 |}
   /\ moveQueue st' = []
   /\ timeLeft st' = double_of_Z LEVEL_DURATION
   /\ moveInterval st' = baseLevelSpeed st
   /\ baseLevelSpeed st' = baseLevelSpeed st
   /\ ghostModeEndTime st' = ghostModeEndTime st
   /\ speedBoostEndTime st' = speedBoostEndTime st
   /\ forall now,
        Index.currentInterval now st'
        = if now <? speedBoostEndTime st then 60 else baseLevelSpeed st)
  /\ (let st' := Part000.retryLevel random st in
      gameState st' = PLAYING
      /\ score st' = levelStartScore st
      /\ level st' = level st
      /\ snake st' = [ {| px := 0; pz := 0 |} ]
      /\ direction st' = {| px := 0; pz := -1 |}
      /\ moveQueue st' = []
      /\ timeLeft st' = double_of_Z LEVEL_DURATION
      /\ moveInterval st' = baseLevelSpeed st
      /\ baseLevelSpeed st' = baseLevelSpeed st).
Proof.
  split; cbv zeta.
  - unfold Index.retryLevel, Index.resetGame. cbv zeta.
    match goal with
    | |- context [Index.spawnFood random ?X] =>
        destruct (unspawned_fields _ _ (Index_spawnFood_unspawned random X))
          as (Hg & Hs & Hl & Ht & Hn & Hm & Hb & _ & Hgh & Hsb & _ & _ & Hd & Hq);
        set (Y := Index.spawnFood random X) in *
    end.
    unfold Index.currentInterval. cbv zeta.
    cbn [gameState score level snake direction moveQueue timeLeft moveInterval
         baseLevelSpeed ghostModeEndTime speedBoostEndTime set_gameState] in *.
    rewrite Hs, Hl, Ht, Hn, Hm, Hb, Hgh, Hsb, Hd, Hq.
    cbn. repeat split.
  - unfold Part000.retryLevel. cbv zeta.
    match goal with
    | |- context [Part000.spawnFood random ?c ?X] =>
        destruct (unspawned_fields _ _ (Part000_spawnFood_unspawned random c X))
          as (Hg & Hs & Hl & Ht & Hn & Hm & Hb & _ & _ & _ & _ & _ & Hd & Hq)
    end.
    rewrite Hg, Hs, Hl, Ht, Hn, Hm, Hb, Hd, Hq.
    cbn. repeat split.
Qed.

(** C6 as stated fails in index.tsx: a burger eaten at [epoch + 201] boosts
    until [epoch + 8201]; the snake reaches the wall about one second later,
    and after RETRY LEVEL the base interval is 200 ms again but the interval
    that gates the ticks is still the boosted 60 ms: a frame 61 ms after the
    last tick moves the snake. *)
Lemma speed_boost_carries_into_the_retried_level :
  let st := Index.run burgerRandom boostedIntoTheWall initialState in
  let st' := Index.step burgerRandom ClickRetry st in
  let now := epoch + 1299 in
  gameState st = GAME_OVER
  /\ speedBoostEndTime st = epoch + 8201
  /\ gameState st' = PLAYING
  /\ moveInterval st' = 200 /\ baseLevelSpeed st' = 200
  /\ speedBoostEndTime st' = epoch + 8201
  /\ Index.currentInterval now st' = 60
  /\ lastMoveTime st' = 1238
  /\ snake st' = [ {| px := 0; pz := 2 |}; {| px := 0; pz := 3 |};
                   {| px := 0; pz := 4 |} ]
  /\ snake (Index.step burgerRandom (Frame 1299 now) st')
     = [ {| px := 0; pz := 1 |}; {| px := 0; pz := 2 |}; {| px := 0; pz := 3 |} ].
Proof. vm_compute. repeat split. Qed.

(** ** C7: the countdown and the level change *)

Lemma Index_powerUpCollision_keeps (now : Z) (nextHead : Position) (st : State) :
  let st' := Index.powerUpCollision now nextHead st in
  timeLeft st' = timeLeft st /\ moveInterval st' = moveInterval st
  /\ timeouts st' = timeouts st /\ level st' = level st.
Proof.
  unfold Index.powerUpCollision.
  destruct (powerUp st) as [[pos type] |]; [| repeat split].
  cbn [pu_pos pu_type]. destruct (pos_eqb nextHead pos); [| repeat split].
  destruct type; repeat split.
Qed.

Lemma Part000_eatPowerUp_keeps (now : Z) (newHead : Position) (st : State) :
  let st' := Part000.eatPowerUp now newHead st in
  timeLeft st' = timeLeft st /\ moveInterval st' = moveInterval st
  /\ timeouts st' = timeouts st /\ level st' = level st.
Proof.
  unfold Part000.eatPowerUp.
  destruct (powerUp st) as [[pos type] |]; [| repeat split].
  cbn [pu_pos pu_type]. destruct (pos_eqb newHead pos); [| repeat split].
  destruct type; repeat split.
Qed.

Section Countdown.
Variable random : nat -> Q.

(** Every tick of part_000 takes a tenth of a second off the countdown. *)
Lemma Part000_tick_countdown (now : Z) (st : State) :
  timeLeft (Part000.updateGameLogic random now st)
  = double_sub (timeLeft st) double_0_1.
Proof.
  unfold Part000.updateGameLogic. cbv zeta.
  cbn [timeLeft set_timeLeft].
  destruct (double_leb _ _); [reflexivity |].
  change Part000.dequeueDirection with Index.dequeueDirection.
  rewrite dequeueDirection_set_timeLeft.
  set (st1 := set_timeLeft _ _).
  assert (H1 : timeLeft st1 = double_sub (timeLeft st) double_0_1) by reflexivity.
  destruct (snake st1) as [| h body]; [exact H1 |].
  destruct (Part000.collides _ _ _); [exact H1 |].
  set (nh := pos_add h _).
  destruct (Part000_eatFood_keeps random nh st1) as (_ & _ & Ht & _).
  destruct (Part000_eatPowerUp_keeps now nh (fst (Part000.eatFood random nh st1)))
    as (Ht' & _).
  destruct (Part000.eatFood random nh st1) as [st2 grown]. cbn [fst] in *.
  cbn [timeLeft set_snake]. rewrite Ht', Ht. exact H1.
Qed.

Lemma Index_resetGame_false_fields (st : State) :
  let st' := Index.resetGame random false st in
  gameState st' = PLAYING /\ level st' = level st
  /\ timeLeft st' = timeLeft st /\ moveInterval st' = moveInterval st
  /\ baseLevelSpeed st' = baseLevelSpeed st /\ score st' = score st
  /\ levelStartScore st' = levelStartScore st.
Proof.
  unfold Index.resetGame. cbv zeta.
  match goal with
  | |- context [Index.spawnFood random ?X] =>
      destruct (unspawned_fields _ _ (Index_spawnFood_unspawned random X))
        as (Hg & Hs & Hl & Ht & _ & Hm & Hb & Hls & _)
  end.
  rewrite Hg, Hs, Hl, Ht, Hm, Hb, Hls. cbn. repeat split.
Qed.

Lemma Part000_resetGame_fields (lvl : Z) (st : State) :
  let st' := Part000.resetGame random lvl st in
  gameState st' = gameState st /\ level st' = lvl
  /\ timeLeft st' = double_of_Z LEVEL_DURATION
  /\ baseLevelSpeed st' = Z.max 80 (200 - (lvl - 1) * 20)
  /\ moveInterval st' = Z.max 80 (200 - (lvl - 1) * 20).
Proof.
  unfold Part000.resetGame. cbv zeta.
  match goal with
  | |- context [Part000.spawnFood random ?c ?X] =>
      destruct (unspawned_fields _ _ (Part000_spawnFood_unspawned random c X))
        as (Hg & _ & Hl & Ht & _ & Hm & Hb & _)
  end.
  rewrite Hg, Hl, Ht, Hm, Hb.
  destruct (lvl =? 1); cbn; repeat split.
Qed.
End Countdown.

Lemma dequeueDirection_timeouts (st : State) :
  timeouts (Index.dequeueDirection st) = timeouts st.
Proof. unfold Index.dequeueDirection. destruct (moveQueue st); reflexivity. Qed.

Section CountdownParts.
Variable random : nat -> Q.

Lemma Index_tick_countdown (now : Z) (st : State) (nextHead : Position) :
  nextHeadOf st = Some nextHead ->
  Index.collides now nextHead (Index.dequeueDirection st) = false ->
  let st' := Index.updateGameLogic random now st in
  timeLeft st'
  = double_sub (timeLeft st)
      (double_div (double_of_Z (moveInterval st')) (double_of_Z 1000))
  /\ (foodAt nextHead st = None -> moveInterval st' = moveInterval st)
  /\ (double_leb (timeLeft st') (double_of_Z 0) = true ->
      gameState st' = LEVEL_TRANSITION
      /\ timeouts st' = timeouts st ++ transitionTimeouts now 15 4000)
  /\ (double_leb (timeLeft st') (double_of_Z 0) = false ->
      gameState st' = gameState st).
Proof.
  intros Hnext Hc.
  destruct (dequeueDirection_keeps st)
    as (Hgs & Hsn & Hsc & Hlv & Htl & Hfo & Hpu & Hmi & _).
  pose proof (dequeueDirection_timeouts st) as Hto.
  cbv zeta.
  rewrite (Index_tick_unfold random now st nextHead Hnext Hc).
  set (st1 := Index.dequeueDirection st) in *.
  destruct (Index_foodCollision_keeps random nextHead st1)
    as (Hg2 & _ & Ht2 & _ & _ & _ & Hto2).
  assert (Hm2 : foodAt nextHead st = None ->
                moveInterval (Index.foodCollision random nextHead st1)
                = moveInterval st).
  { intros Hfood.
    rewrite Index_foodCollision_none by (unfold foodAt; rewrite Hfo; exact Hfood).
    exact Hmi. }
  set (st2 := Index.foodCollision random nextHead st1) in *.
  destruct (Index_powerUpCollision_keeps now nextHead st2) as (Ht3 & Hm3 & Hto3 & _).
  pose proof (Index_powerUpCollision_gameState now nextHead st2) as Hg3.
  set (st3 := Index.powerUpCollision now nextHead st2) in *.
  assert (Htime : timeLeft st3 = timeLeft st) by congruence.
  assert (Hgame : gameState st3 = gameState st) by congruence.
  assert (Hqueue : timeouts st3 = timeouts st) by congruence.
  assert (Hmove : foodAt nextHead st = None -> moveInterval st3 = moveInterval st)
    by (intros Hfood; rewrite Hm3; apply Hm2, Hfood).
  clearbody st3. clear - Htime Hgame Hqueue Hmove.
  unfold Index.updateTimer. cbv zeta.
  cbn [timeLeft set_timeLeft].
  set (left := double_sub (timeLeft st3)
                 (double_div (double_of_Z (moveInterval st3)) (double_of_Z 1000))).
  destruct (double_leb left (double_of_Z 0)) eqn:Hle.
  - unfold Index.nextLevel. cbv zeta.
    cbn [timeLeft moveInterval gameState timeouts set_timeouts set_gameState
         set_timeLeft].
    fold left. rewrite Hle, Hqueue. subst left. rewrite Htime.
    split; [reflexivity |]. split; [exact Hmove |].
    split; [intros _; split; reflexivity | discriminate].
  - cbn [timeLeft moveInterval gameState set_timeLeft].
    fold left. rewrite Hle. subst left. rewrite Htime.
    split; [reflexivity |]. split; [exact Hmove |].
    split; [discriminate | intros _; exact Hgame].
Qed.

Lemma Index_AdvanceLevel_fields (st : State) :
  let st' := Index.runCallback random AdvanceLevel st in
  level st' = level st + 1
  /\ timeLeft st' = double_of_Z LEVEL_DURATION
  /\ baseLevelSpeed st' = Z.max 50 (baseLevelSpeed st - 15)
  /\ moveInterval st' = baseLevelSpeed st'
  /\ gameState st' = PLAYING.
Proof.
  cbv zeta. unfold Index.runCallback.
  match goal with
  | |- context [Index.resetGame random false ?X] =>
      destruct (Index_resetGame_false_fields random X)
        as (_ & Hl & Ht & Hm & Hb & _);
      revert Hl Ht Hm Hb;
      generalize (Index.resetGame random false X) as Y
  end.
  intros Y Hl Ht Hm Hb.
  cbn [level timeLeft baseLevelSpeed moveInterval gameState set_gameState].
  rewrite Hl, Ht, Hm, Hb. repeat split.
Qed.

Lemma Part000_tick_level_end (now : Z) (st : State) :
  let st' := Part000.updateGameLogic random now st in
  timeLeft st' = double_sub (timeLeft st) double_0_1
  /\ (double_leb (timeLeft st') (double_of_Z 0) = true ->
      gameState st' = LEVEL_TRANSITION
      /\ timeouts st' = timeouts st ++ transitionTimeouts now 5 3000).
Proof.
  cbv zeta. split; [apply Part000_tick_countdown |].
  intros Hle. rewrite Part000_tick_countdown in Hle.
  rewrite Part000_tick_countdown_over by exact Hle.
  split; reflexivity.
Qed.

Lemma Part000_AdvanceLevel_fields (st : State) :
  let st' := Part000.runCallback random AdvanceLevel st in
  level st' = level st + 1
  /\ timeLeft st' = double_of_Z LEVEL_DURATION
  /\ baseLevelSpeed st' = Z.max 80 (200 - level st * 20)
  /\ (baseLevelSpeed st = Z.max 80 (200 - (level st - 1) * 20) ->
      baseLevelSpeed st' = Z.max 80 (baseLevelSpeed st - 20))
  /\ moveInterval st' = baseLevelSpeed st'
  /\ gameState st' = PLAYING.
Proof.
  cbv zeta. unfold Part000.runCallback, Part000.startLevel.
  destruct (Part000_resetGame_fields random (level st + 1) (set_gameState PLAYING st))
    as (Hg & Hl & Ht & Hb & Hm).
  rewrite Hg, Hl, Ht, Hb, Hm.
  replace (level st + 1 - 1) with (level st) by lia.
  split; [reflexivity |]. split; [reflexivity |]. split; [reflexivity |].
  split; [intros ->; lia |]. split; reflexivity.
Qed.
End CountdownParts.

(** C7 (amended): the countdown is a double, in seconds.  A tick of index.tsx
    that does not collide takes moveInterval / 1000 off it (moveInterval after
    the speed-up of a food item eaten on that tick; not the boosted interval
    that may have gated the tick), and a tick that collides takes nothing off;
    every tick of part_000 takes a fixed 0.1 off, first thing.  Quotient and
    difference are those of binary64.  When the countdown is at or below 0
    after that, the state becomes LEVEL_TRANSITION and the firework timers and
    the deferred callback (4000 ms in index.tsx, 3000 ms in part_000) are
    registered; when it is above 0, the tick of index.tsx leaves the game
    state.  The deferred callback increments the level by exactly 1, resets
    the countdown to the level duration, lowers the base interval by the fixed
    step down to its floor (index.tsx: max(50, base - 15); part_000:
    max(80, 200 - 20 * level), which is max(80, base - 20)), sets the tick
    interval to it and returns to PLAYING. *)
Theorem countdown_and_level_change
    (random : nat -> Q) (now : Z) (st : State) (nextHead : Position)
    (Hnext : nextHeadOf st = Some nextHead) :
  (Index.collides now nextHead (Index.dequeueDirection st) = false ->
     let st' := Index.updateGameLogic random now st in
     timeLeft st'
     = double_sub (timeLeft st)
         (double_div (double_of_Z (moveInterval st')) (double_of_Z 1000))
     /\ (foodAt nextHead st = None -> moveInterval st' = moveInterval st)
     /\ (double_leb (timeLeft st') (double_of_Z 0) = true ->
         gameState st' = LEVEL_TRANSITION
         /\ timeouts st' = timeouts st ++ transitionTimeouts now 15 4000)
     /\ (double_leb (timeLeft st') (double_of_Z 0) = false ->
         gameState st' = gameState st))
  /\ (Index.collides now nextHead (Index.dequeueDirection st) = true ->
      timeLeft (Index.updateGameLogic random now st) = timeLeft st)
  /\ (let st' := Index.runCallback random AdvanceLevel st in
      level st' = level st + 1
      /\ timeLeft st' = double_of_Z LEVEL_DURATION
      /\ baseLevelSpeed st' = Z.max 50 (baseLevelSpeed st - 15)
      /\ moveInterval st' = baseLevelSpeed st'
      /\ gameState st' = PLAYING)
  /\ (let st' := Part000.updateGameLogic random now st in
      timeLeft st' = double_sub (timeLeft st) double_0_1
      /\ (double_leb (timeLeft st') (double_of_Z 0) = true ->
          gameState st' = LEVEL_TRANSITION
          /\ timeouts st' = timeouts st ++ transitionTimeouts now 5 3000))
  /\ (let st' := Part000.runCallback random AdvanceLevel st in
      level st' = level st + 1
      /\ timeLeft st' = double_of_Z LEVEL_DURATION
      /\ baseLevelSpeed st' = Z.max 80 (200 - level st * 20)
      /\ (baseLevelSpeed st = Z.max 80 (200 - (level st - 1) * 20) ->
          baseLevelSpeed st' = Z.max 80 (baseLevelSpeed st - 20))
      /\ moveInterval st' = baseLevelSpeed st'
      /\ gameState st' = PLAYING).
Proof.
  split; [| split; [| split; [| split]]].
  - intros Hc. apply Index_tick_countdown; assumption.
  - intros Hc. rewrite (Index_tick_with_collision random now st nextHead Hnext Hc).
    destruct (dequeueDirection_keeps st) as (_ & _ & _ & _ & Htl & _).
    exact Htl.
  - apply Index_AdvanceLevel_fields.
  - apply Part000_tick_level_end.
  - apply Part000_AdvanceLevel_fields.
Qed.

(** The theorem at the end of the first level of index.tsx, reached by going
    round a square.  After 125 ticks of 0.2 s the countdown is not at 0: the
    differences of the doubles leave 8769704743141376 * 2^-97, about 5.5e-14,
    and the game is still PLAYING.  Tick 126 takes it below 0 and the level
    ends. *)
Lemma countdown_and_level_change_witness :
  let st := Index.run zeroRandom
              (ClickPlay :: roundAndRound 125 ++ [KeyDown 0 ArrowLeft])
              initialState in
  let now := epoch + 25326 in
  let st' := Index.updateGameLogic zeroRandom now st in
  nextHeadOf st = Some {| px := -1; pz := 1 |}
  /\ gameState st = PLAYING /\ moveInterval st = 200
  /\ timeLeft st = S754_finite false 8769704743141376 (-97)
  /\ double_leb (timeLeft st) (double_of_Z 0) = false
  /\ timeLeft st'
     = double_sub (timeLeft st)
         (double_div (double_of_Z (moveInterval st')) (double_of_Z 1000))
  /\ double_leb (timeLeft st') (double_of_Z 0) = true
  /\ gameState st' = LEVEL_TRANSITION
  /\ timeouts st' = timeouts st ++ transitionTimeouts now 15 4000
  /\ level (Index.runCallback zeroRandom AdvanceLevel st') = level st' + 1
  /\ gameState (Index.runCallback zeroRandom AdvanceLevel st') = PLAYING.
Proof.
  cbv zeta.
  set (st := Index.run zeroRandom _ initialState).
  assert (Hn : nextHeadOf st = Some {| px := -1; pz := 1 |})
    by (vm_compute; reflexivity).
  split; [exact Hn |].
  split; [vm_compute; reflexivity |]. split; [vm_compute; reflexivity |].
  split; [vm_compute; reflexivity |]. split; [vm_compute; reflexivity |].
  destruct (countdown_and_level_change zeroRandom (epoch + 25326) st
              {| px := -1; pz := 1 |} Hn) as (Htick & _ & _).
  destruct Htick as (Ht & _ & Hend & _); [vm_compute; reflexivity |].
  assert (Hle : double_leb
                  (timeLeft (Index.updateGameLogic zeroRandom (epoch + 25326) st))
                  (double_of_Z 0) = true)
    by (vm_compute; reflexivity).
  destruct (Hend Hle) as (Hg & Hq).
  split; [exact Ht |]. split; [exact Hle |].
  split; [exact Hg |]. split; [exact Hq |].
  destruct (countdown_and_level_change zeroRandom (epoch + 25326)
              (Index.updateGameLogic zeroRandom (epoch + 25326) st)
              {| px := -2; pz := 1 |})
    as (_ & _ & Hcb & _); [vm_compute; reflexivity |].
  destruct Hcb as (Hl & _ & _ & _ & Hp).
  split; [exact Hl | exact Hp].
Defined.

(** C7 as stated fails: in part_000 the first tick of a new game is gated by an
    interval of 200 ms and takes 0.1 s off the countdown; in index.tsx a tick
    under speed boost is gated by 60 ms and takes 0.2 s off. *)
Lemma countdown_step_is_not_the_gating_interval :
  let pt := Part000.run zeroRandom [ClickPlay] initialState in
  let bt := Index.run burgerRandom [ClickPlay; frameAt 201 0] initialState in
  let fifth := double_div (double_of_Z 200) (double_of_Z 1000) in
  gameState pt = PLAYING
  /\ Part000.currentInterval (epoch + 201) pt = 200
  /\ timeLeft pt = double_of_Z 25
  /\ timeLeft (Part000.step zeroRandom (frameAt 201 0) pt)
     = double_sub (double_of_Z 25) double_0_1
  /\ gameState bt = PLAYING
  /\ Index.currentInterval (epoch + 262) bt = 60
  /\ moveInterval bt = 200
  /\ timeLeft bt = double_sub (double_of_Z 25) fifth
  /\ timeLeft (Index.step burgerRandom (boostedFrameAt 0) bt)
     = double_sub (double_sub (double_of_Z 25) fifth) fifth.
Proof. vm_compute. repeat split. Qed.

(** ** C9: the callbacks of the level transition *)

(** C9 (amended): the callbacks scheduled for the level transition do not look
    at the game state.  Whatever the state is when it runs, a firework callback
    adds its burst, and the deferred callback increments the level by 1 and
    sets the state to PLAYING. *)
Theorem transition_callbacks_run_in_any_state (random : nat -> Q) (st : State) :
  (fireworkBursts (Index.runCallback random SpawnFirework st) = S (fireworkBursts st)
   /\ level (Index.runCallback random AdvanceLevel st) = level st + 1
   /\ gameState (Index.runCallback random AdvanceLevel st) = PLAYING)
  /\ (fireworkBursts (Part000.runCallback random SpawnFirework st)
      = S (fireworkBursts st)
      /\ level (Part000.runCallback random AdvanceLevel st) = level st + 1
      /\ gameState (Part000.runCallback random AdvanceLevel st) = PLAYING).
Proof.
  destruct (Index_AdvanceLevel_fields random st) as (Hl & _ & _ & _ & Hg).
  destruct (Part000_AdvanceLevel_fields random st) as (Hl' & _ & _ & _ & _ & Hg').
  repeat split; assumption.
Qed.

(** C9 as stated fails in index.tsx: the player ends the first level, restarts
    with F2 during the transition, pauses and quits to the menu.  Fourteen
    firework bursts were added meanwhile; when the deferred callback comes due
    the game is on the START screen at level 1, and the callback puts it into
    PLAYING at level 2. *)
Lemma stale_callback_starts_level_2_from_the_menu :
  let beforeTheLastTick :=
    Index.run zeroRandom (ClickPlay :: roundAndRound 125) initialState in
  let atTransition :=
    Index.run zeroRandom (ClickPlay :: roundAndRound 126) initialState in
  let st := Index.run zeroRandom quitDuringTheTransition initialState in
  let st' := Index.step zeroRandom (Timer (epoch + 29326)) st in
  gameState beforeTheLastTick = PLAYING
  /\ timeouts beforeTheLastTick = []
  /\ gameState atTransition = LEVEL_TRANSITION
  /\ timeouts atTransition = transitionTimeouts (epoch + 25326) 15 4000
  /\ gameState st = START /\ level st = 1 /\ fireworkBursts st = 14%nat
  /\ timeouts st = [(epoch + 29526, SpawnFirework); (epoch + 29326, AdvanceLevel)]
  /\ gameState st' = PLAYING /\ level st' = 2.
Proof. vm_compute. repeat split. Qed.

(** ** C8: loading the leaderboard *)

Section Leaderboard.
Variable ToNumber : JSValue -> Completion double.

Lemma renderEntry_record (r : HighScore) :
  renderEntry (recordValue r) = Normal tt.
Proof. reflexivity. Qed.

Lemma renderEntries_records (records : list HighScore) :
  renderEntries (map recordValue records) = Normal tt.
Proof.
  induction records as [| r records IH]; [reflexivity |].
  cbn [map renderEntries]. rewrite renderEntry_record. exact IH.
Qed.

Lemma firstn_map {A B : Type} (f : A -> B) (n : nat) (l : list A) :
  firstn n (map f l) = map f (firstn n l).
Proof.
  revert l. induction n as [| n IH]; intros [| a l]; cbn; try reflexivity.
  rewrite IH. reflexivity.
Qed.

Lemma Index_renders_records (records : list HighScore) :
  Index_renderHighScores ToNumber (JSArray (map recordValue records)) = Normal tt.
Proof.
  unfold Index_renderHighScores, lengthIsPositive.
  destruct (0 <? List.length (map recordValue records))%nat; [| reflexivity].
  rewrite firstn_map. apply renderEntries_records.
Qed.

Lemma Part000_renders_records (records : list HighScore) :
  Part000_renderHighScores ToNumber (JSArray (map recordValue records)) = Normal tt.
Proof.
  destruct records as [| r records]; reflexivity.
Qed.
End Leaderboard.

(** C8 (amended): an absent stored value (null) or an empty one leaves the
    leaderboard empty and startup goes on.  On a stored text that [JSON.parse]
    rejects, the SyntaxError is not caught and the initialization effect ends
    before the scene and the frame loop are set up.  A stored text that
    [JSON.parse] accepts becomes the leaderboard state as it is, and startup
    goes on only if the start screen renders that value: it does for a list of
    records with a name and a score, and for a number or a boolean (nothing is
    shown); for the value [null] the render throws at [highScores.length]. *)
Theorem stored_leaderboard_at_startup
    (JSON_parse : string -> ParseOutcome)
    (ToNumber : JSValue -> Completion double) (stored : option string) :
  (stored = None \/ stored = Some EmptyString ->
     Index_startup ToNumber JSON_parse stored = Running (JSArray [])
     /\ Part000_startup ToNumber JSON_parse stored = Running (JSArray []))
  /\ (forall s, stored = Some s -> s <> EmptyString ->
        JSON_parse s = SyntaxError ->
        Index_startup ToNumber JSON_parse stored = EffectThrew
        /\ Part000_startup ToNumber JSON_parse stored = EffectThrew)
  /\ (forall s v, stored = Some s -> s <> EmptyString ->
        JSON_parse s = Parsed v ->
        initialization JSON_parse stored = Normal v
        /\ (Index_renderHighScores ToNumber v = Normal tt ->
            Index_startup ToNumber JSON_parse stored = Running v)
        /\ (Index_renderHighScores ToNumber v = Throw ->
            Index_startup ToNumber JSON_parse stored = RenderThrew)
        /\ (Part000_renderHighScores ToNumber v = Normal tt ->
            Part000_startup ToNumber JSON_parse stored = Running v)
        /\ (Part000_renderHighScores ToNumber v = Throw ->
            Part000_startup ToNumber JSON_parse stored = RenderThrew)
        /\ (v = JSNull ->
            Index_startup ToNumber JSON_parse stored = RenderThrew
            /\ Part000_startup ToNumber JSON_parse stored = RenderThrew)
        /\ ((exists records, v = JSArray (map recordValue records))
            \/ (exists n, v = JSNumber n) \/ (exists b, v = JSBoolean b) ->
            Index_startup ToNumber JSON_parse stored = Running v
            /\ Part000_startup ToNumber JSON_parse stored = Running v)).
Proof.
  split; [| split].
  - intros [-> | ->]; split; reflexivity.
  - intros s -> Hs Hparse.
    unfold Index_startup, Part000_startup, startup, initialization.
    destruct (String.eqb_spec s EmptyString); [contradiction |].
    rewrite Hparse. split; reflexivity.
  - intros s v -> Hs Hparse.
    assert (Hinit : initialization JSON_parse (Some s) = Normal v).
    { unfold initialization.
      destruct (String.eqb_spec s EmptyString); [contradiction |].
      rewrite Hparse. reflexivity. }
    unfold Index_startup, Part000_startup, startup. rewrite Hinit.
    split; [reflexivity |].
    split; [intros ->; reflexivity |].
    split; [intros ->; reflexivity |].
    split; [intros ->; reflexivity |].
    split; [intros ->; reflexivity |].
    split.
    + intros ->. split; reflexivity.
    + intros [(records & ->) | [(n & ->) | (b & ->)]].
      * rewrite Index_renders_records, Part000_renders_records.
        split; reflexivity.
      * split; reflexivity.
      * split; reflexivity.
Qed.

(** A text that cannot be JSON aborts the initialization, whatever
    [JSON.parse] answers on other texts. *)
Lemma initialization_throws_on_non_JSON (other : string -> ParseOutcome) (s : string) :
  cannotBeJSON s = true -> s <> EmptyString ->
  initialization (JSON_parse_with other) (Some s) = Throw.
Proof.
  intros Hbad Hs. unfold initialization.
  destruct (String.eqb_spec s EmptyString); [contradiction |].
  unfold JSON_parse_with. rewrite Hbad. reflexivity.
Qed.

(** C8 as stated fails: with the stored text "oops", which is not JSON, the
    effect throws; the leaderboard is not set to the empty list and startup
    does not go on.  With the stored text "null", which is JSON, the
    leaderboard state becomes [null] and the next render throws. *)
Lemma malformed_leaderboard_aborts_startup :
  cannotBeJSON "oops" = true
  /\ Index_startup exampleToNumber exampleParse (Some "oops"%string) = EffectThrew
  /\ Part000_startup exampleToNumber exampleParse (Some "oops"%string) = EffectThrew
  /\ Index_startup exampleToNumber exampleParse (Some "null"%string) = RenderThrew
  /\ Part000_startup exampleToNumber exampleParse (Some "null"%string) = RenderThrew
  /\ Index_startup exampleToNumber exampleParse (Some "[]"%string)
     = Running (JSArray [])
  /\ Index_startup exampleToNumber exampleParse None = Running (JSArray []).
Proof. vm_compute. repeat split. Qed.

(** * Further properties *)

(** ** The walls of part_000 *)

Section Part000Walls.
Variable random : nat -> Q.

Lemma Part000_eatPowerUp_snake (now : Z) (newHead : Position) (st : State) :
  snake (Part000.eatPowerUp now newHead st) = snake st.
Proof.
  unfold Part000.eatPowerUp.
  destruct (powerUp st) as [[pos type] |]; [| reflexivity].
  cbn [pu_pos pu_type]. destruct (pos_eqb newHead pos); [| reflexivity].
  destruct type; reflexivity.
Qed.

(** A tick of part_000 that does not collide: the game state stays and the
    new head leads the snake. *)
Lemma Part000_tick_moves (now : Z) (st : State) (newHead : Position) :
  Part000_runsOut st = false ->
  nextHeadOf st = Some newHead ->
  Part000.collides now newHead
    (set_timeLeft (double_sub (timeLeft st) double_0_1)
       (Index.dequeueDirection st)) = false ->
  let st' := Part000.updateGameLogic random now st in
  gameState st' = gameState st
  /\ exists body, snake st' = newHead :: body.
Proof.
  intros Htime Hnext Hc. cbv zeta.
  rewrite (Part000_tick_unfold random now st newHead Htime Hnext). cbv zeta.
  rewrite Hc.
  destruct (dequeueDirection_keeps st) as (Hgs & Hsn & _).
  set (st1 := set_timeLeft _ (Index.dequeueDirection st)) in *.
  destruct (Part000_eatFood_keeps random newHead st1) as (Hg & _).
  pose proof (Part000_eatPowerUp_gameState now newHead
                (fst (Part000.eatFood random newHead st1))) as Hg'.
  destruct (Part000.eatFood random newHead st1) as [st2 grown].
  cbn [fst snd] in *.
  split.
  - cbn [gameState set_snake]. rewrite Hg', Hg. exact Hgs.
  - cbn [snake set_snake]. destruct grown; [eexists; reflexivity |].
    unfold nextHeadOf in Hnext.
    assert (Hs1 : snake st1 = snake (Index.dequeueDirection st)) by reflexivity.
    rewrite Hs1.
    destruct (snake (Index.dequeueDirection st)) as [| h body]; [discriminate |].
    exists (removelast (h :: body)). reflexivity.
Qed.
End Part000Walls.

(** X1: a tick of part_000 while PLAYING.  When the countdown does not run out
    on it, a nextHead with x or z outside [-15, 15) ends the run (the snake and
    the score stay as they are, invulnerable or not), and a nextHead inside
    that is on no counted cell of the snake, or any nextHead inside while
    invulnerable, does not: the game stays PLAYING and the head moves onto
    nextHead.  When the countdown runs out on the tick, nothing moves and
    nothing crashes: the level ends, whatever lies ahead. *)
Theorem Part000_tick_at_the_wall
    (random : nat -> Q) (now : Z) (st : State) (nextHead : Position)
    (Hplaying : gameState st = PLAYING)
    (Hnext : nextHeadOf st = Some nextHead) :
  let st' := Part000.updateGameLogic random now st in
  (Part000_runsOut st = false ->
   px nextHead >= 15 \/ px nextHead < -15
   \/ pz nextHead >= 15 \/ pz nextHead < -15 ->
   gameState st' = GAME_OVER /\ snake st' = snake st /\ score st' = score st)
  /\ (Part000_runsOut st = false ->
      -15 <= px nextHead <= 14 -> -15 <= pz nextHead <= 14 ->
      ~ In nextHead (removelast (snake st)) \/ now < ghostModeEndTime st ->
      gameState st' = PLAYING /\ exists body, snake st' = nextHead :: body)
  /\ (Part000_runsOut st = true ->
      gameState st' = LEVEL_TRANSITION /\ snake st' = snake st
      /\ direction st' = direction st /\ moveQueue st' = moveQueue st).
Proof.
  cbv zeta.
  destruct (dequeueDirection_keeps st)
    as (Hgs & Hsn & Hsc & _ & _ & _ & _ & _ & Hgh & _).
  split; [| split].
  - intros Htime Hout.
    rewrite (Part000_tick_unfold random now st nextHead Htime Hnext). cbv zeta.
    apply Part000_wall_collision_iff in Hout.
    unfold Part000.collides. rewrite Hout. cbn [orb].
    unfold Part000.triggerCrash.
    cbn [gameState snake score set_gameState set_timeLeft].
    repeat split; assumption.
  - intros Htime Hx Hz Hfree.
    assert (Hc : Part000.collides now nextHead
                   (set_timeLeft (double_sub (timeLeft st) double_0_1)
                      (Index.dequeueDirection st)) = false).
    { unfold Part000.collides. cbv zeta.
      replace (Part000.hitWall nextHead) with false
        by (symmetry; apply Part000_hitWall_false_iff; split; assumption).
      cbn [orb ghostModeEndTime snake set_timeLeft]. rewrite Hgh, Hsn.
      destruct Hfree as [Hfree | Hghost].
      - destruct (Part000.hitSelf (snake st) nextHead) eqn:Hself;
          [| apply andb_false_r].
        apply Part000_hitSelf_iff in Hself. contradiction.
      - replace (now <? ghostModeEndTime st) with true
          by (symmetry; apply Z.ltb_lt; exact Hghost).
        reflexivity. }
    destruct (Part000_tick_moves random now st nextHead Htime Hnext Hc)
      as (Hg & Hbody).
    split; [rewrite Hg; exact Hplaying | exact Hbody].
  - intros Htime.
    rewrite (Part000_tick_countdown_over random now st Htime).
    repeat split.
Qed.

(** The theorem at the right wall: after [towardsTheRightWall] the head of
    part_000 is on x = 14 and nextHead is (15, 0). *)
Lemma Part000_tick_at_the_wall_witness :
  let st := Part000.run zeroRandom towardsTheRightWall initialState in
  let st' := Part000.updateGameLogic zeroRandom (epoch + 3015) st in
  gameState st = PLAYING
  /\ nextHeadOf st = Some {| px := 15; pz := 0 |}
  /\ Part000_runsOut st = false
  /\ gameState st' = GAME_OVER /\ snake st' = snake st /\ score st' = score st.
Proof.
  cbv zeta.
  set (st := Part000.run zeroRandom towardsTheRightWall initialState).
  assert (Hp : gameState st = PLAYING) by (vm_compute; reflexivity).
  assert (Hn : nextHeadOf st = Some {| px := 15; pz := 0 |})
    by (vm_compute; reflexivity).
  assert (Ht : Part000_runsOut st = false) by (vm_compute; reflexivity).
  split; [exact Hp |]. split; [exact Hn |]. split; [exact Ht |].
  apply (proj1 (Part000_tick_at_the_wall zeroRandom (epoch + 3015) st
                  {| px := 15; pz := 0 |} Hp Hn)); [exact Ht |].
  left. cbn. lia.
Defined.

(** ** The food spawner of index.tsx *)

Section SpawnerAppends.
Variable random : nat -> Q.

Lemma Index_spawnFood_body_powerUp (st : State) :
  powerUp (Index.spawnFood_body random st) = powerUp st.
Proof.
  unfold Index.spawnFood_body.
  destruct (getRandomPosition random _ _) as [[[pos t] c] |]; reflexivity.
Qed.

Lemma Index_spawnFood_loop_appends (desiredCount : Z) :
  forall (fuel : nat) (st : State),
    (exists added,
       foods (Index.spawnFood_loop random fuel desiredCount st)
       = foods st ++ added)
    /\ powerUp (Index.spawnFood_loop random fuel desiredCount st) = powerUp st.
Proof.
  induction fuel as [| fuel IH]; intros st; cbn [Index.spawnFood_loop].
  - split; [exists []; symmetry; apply app_nil_r | reflexivity].
  - destruct (_ <? desiredCount).
    + destruct (IH (Index.spawnFood_body random st)) as ((added & Ha) & Hp).
      destruct (Index_spawnFood_body_foods random st) as (newFood & Hnew).
      split.
      * exists (newFood :: added). rewrite Ha, Hnew, <- app_assoc. reflexivity.
      * rewrite Hp. apply Index_spawnFood_body_powerUp.
    + split; [exists []; symmetry; apply app_nil_r | reflexivity].
Qed.
End SpawnerAppends.

(** X3: [spawnFood] of index.tsx only appends: the items that were there stay,
    in their order, and as many new ones follow them as are missing up to
    [level * 5] (none when the list is that long already); a live power-up is
    not replaced. *)
Theorem Index_spawnFood_appends (random : nat -> Q) (st : State) :
  (exists added,
     foods (Index.spawnFood random st) = foods st ++ added
     /\ Z.of_nat (List.length added)
        = Z.max 0 (level st * 5 - Z.of_nat (List.length (foods st))))
  /\ (forall p, powerUp st = Some p ->
        powerUp (Index.spawnFood random st) = Some p).
Proof.
  pose proof (Index_spawnFood_count random st) as Hcount.
  assert (Happ : (exists added,
                    foods (Index.spawnFood random st) = foods st ++ added)
                 /\ (forall p, powerUp st = Some p ->
                       powerUp (Index.spawnFood random st) = Some p)).
  { unfold Index.spawnFood. cbv zeta.
    match goal with
    | |- context [Index.spawnFood_loop random ?n ?d st] =>
        destruct (Index_spawnFood_loop_appends random d n st) as ((added & Ha) & Hp);
        revert Ha Hp; generalize (Index.spawnFood_loop random n d st) as st1
    end.
    intros st1 Ha Hp.
    destruct (powerUp st1) as [q |] eqn:Hq.
    - split; [exists added; exact Ha |].
      intros p Hsome. rewrite Hq, Hp. exact Hsome.
    - split; [| intros p Hsome; rewrite Hsome in Hp; discriminate].
      exists added.
      destruct (Qltb _ _); [rewrite Index_spawnPowerUp_foods |]; exact Ha. }
  destruct Happ as ((added & Ha) & Hp).
  split; [| exact Hp].
  exists added. split; [exact Ha |].
  rewrite Ha, length_app in Hcount. lia.
Qed.

(** ** The leaderboard *)

Lemma insertByScore_perm (e : HighScore) (l : list HighScore) :
  Permutation (insertByScore e l) (e :: l).
Proof.
  induction l as [|h t IH]; cbn [insertByScore].
  - apply Permutation_refl.
  - destruct (hs_score e <=? hs_score h).
    + eapply Permutation_trans; [apply perm_skip, IH | apply perm_swap].
    + apply Permutation_refl.
Qed.

Lemma insertByScore_sorted (e : HighScore) (l : list HighScore) :
  StronglySorted byScore l -> StronglySorted byScore (insertByScore e l).
Proof.
  induction 1 as [|h t Hs IH Hall]; cbn [insertByScore].
  - constructor; constructor.
  - destruct (hs_score e <=? hs_score h) eqn:He.
    + constructor; [assumption|].
      apply Z.leb_le in He.
      eapply Permutation_Forall;
        [apply Permutation_sym, insertByScore_perm|].
      constructor; assumption.
    + apply Z.leb_gt in He.
      constructor; [constructor; assumption|].
      constructor; [unfold byScore; lia|].
      eapply Forall_impl; [|exact Hall].
      unfold byScore; intros a Ha; lia.
Qed.

Lemma insertByScore_last (e : HighScore) (l : list HighScore) :
  Forall (fun h => hs_score e <= hs_score h) l ->
  insertByScore e l = l ++ [e].
Proof.
  induction 1 as [|h t Hh _ IH]; cbn [insertByScore app]; [reflexivity|].
  apply Z.leb_le in Hh; rewrite Hh, IH; reflexivity.
Qed.

(** On a sorted list the insertion splits it at the first entry that scores
    less. *)
Lemma insertByScore_split (e : HighScore) (l : list HighScore) :
  StronglySorted byScore l ->
  insertByScore e l
  = filter (fun h => hs_score e <=? hs_score h) l
    ++ e :: filter (fun h => negb (hs_score e <=? hs_score h)) l.
Proof.
  induction 1 as [|h t Hs IH Hall]; cbn [insertByScore filter app];
    [reflexivity|].
  destruct (hs_score e <=? hs_score h) eqn:He; cbn [negb app].
  - rewrite IH; reflexivity.
  - apply Z.leb_gt in He.
    assert (Hnone : forall x, In x t -> (hs_score e <=? hs_score x) = false).
    { intros x Hx. rewrite Forall_forall in Hall. specialize (Hall x Hx).
      unfold byScore in Hall. apply Z.leb_gt; lia. }
    assert (H1 : filter (fun h0 => hs_score e <=? hs_score h0) t = []).
    { clear - Hnone. induction t as [|x t IHt]; [reflexivity|].
      cbn [filter]. rewrite (Hnone x (or_introl eq_refl)).
      apply IHt; intros y Hy; apply Hnone; right; exact Hy. }
    assert (H2 : filter (fun h0 => negb (hs_score e <=? hs_score h0)) t = t).
    { clear - Hnone. induction t as [|x t IHt]; [reflexivity|].
      cbn [filter]. rewrite (Hnone x (or_introl eq_refl)); cbn [negb].
      f_equal; apply IHt; intros y Hy; apply Hnone; right; exact Hy. }
    rewrite H1, H2; reflexivity.
Qed.

Lemma sortByScore_from (l : list HighScore) :
  forall sorted,
    StronglySorted byScore sorted ->
    StronglySorted byScore (fold_left (fun s e => insertByScore e s) l sorted)
    /\ Permutation (fold_left (fun s e => insertByScore e s) l sorted)
         (sorted ++ l).
Proof.
  induction l as [|e l IH]; intros sorted Hs; cbn [fold_left].
  - rewrite app_nil_r; split; [assumption | apply Permutation_refl].
  - destruct (IH (insertByScore e sorted) (insertByScore_sorted e sorted Hs))
      as [Hs' Hp].
    split; [assumption|].
    eapply Permutation_trans; [exact Hp|].
    eapply Permutation_trans;
      [apply Permutation_app_tail, insertByScore_perm|].
    cbn [app]. apply Permutation_middle.
Qed.

Lemma sortByScore_sorted (l : list HighScore) :
  StronglySorted byScore (sortByScore l).
Proof. apply (sortByScore_from l []); constructor. Qed.

Lemma sortByScore_perm (l : list HighScore) : Permutation (sortByScore l) l.
Proof. apply (sortByScore_from l []); constructor. Qed.

(** A sorted list is left as it is, and an entry appended to it is inserted. *)
Lemma sortByScore_snoc (l : list HighScore) (e : HighScore) :
  sortByScore (l ++ [e]) = insertByScore e (sortByScore l).
Proof. unfold sortByScore; rewrite fold_left_app; reflexivity. Qed.

Lemma StronglySorted_snoc (l : list HighScore) (e : HighScore) :
  StronglySorted byScore (l ++ [e]) ->
  StronglySorted byScore l /\ Forall (fun h => hs_score e <= hs_score h) l.
Proof.
  induction l as [|h t IH]; cbn [app]; intros Hs.
  - split; constructor.
  - inversion Hs as [|? ? Ht Hall]; subst.
    destruct (IH Ht) as [Hst Hle].
    split.
    + constructor; [assumption|].
      apply Forall_app in Hall; apply Hall.
    + constructor; [|assumption].
      apply Forall_app in Hall. destruct Hall as [_ Hall].
      inversion Hall; subst; assumption.
Qed.

Lemma sortByScore_sorted_id (l : list HighScore) :
  StronglySorted byScore l -> sortByScore l = l.
Proof.
  induction l as [|e l IH] using rev_ind; intros Hs; [reflexivity|].
  apply StronglySorted_snoc in Hs. destruct Hs as [Hs Hle].
  rewrite sortByScore_snoc, (IH Hs). apply insertByScore_last; assumption.
Qed.

Lemma In_firstn {A : Type} (n : nat) (l : list A) (x : A) :
  In x (firstn n l) -> In x l.
Proof.
  intros H; rewrite <- (firstn_skipn n l); apply in_or_app; left; exact H.
Qed.

Lemma In_skipn {A : Type} (n : nat) (l : list A) (x : A) :
  In x (skipn n l) -> In x l.
Proof.
  intros H; rewrite <- (firstn_skipn n l); apply in_or_app; right; exact H.
Qed.

Lemma StronglySorted_firstn (n : nat) (l : list HighScore) :
  StronglySorted byScore l -> StronglySorted byScore (firstn n l).
Proof.
  intros Hs; revert n; induction Hs as [|h t Hs IH Hall]; intros [|n];
    cbn [firstn]; try constructor.
  - apply IH.
  - rewrite Forall_forall in *; intros x Hx; apply Hall.
    eapply In_firstn; eassumption.
Qed.

(** The entries behind the first [n] of a sorted list score no more than
    those. *)
Lemma StronglySorted_cut (n : nat) (l : list HighScore) :
  StronglySorted byScore l ->
  forall kept dropped,
    In kept (firstn n l) -> In dropped (skipn n l) ->
    hs_score dropped <= hs_score kept.
Proof.
  intros Hs; revert n; induction Hs as [|h t Hs IH Hall]; intros n kept dropped.
  - rewrite firstn_nil; intros [].
  - destruct n as [|n]; cbn [firstn skipn]; [intros []|].
    intros [->|Hk] Hd.
    + rewrite Forall_forall in Hall. apply Hall.
      apply (In_skipn n); exact Hd.
    + eapply IH; eassumption.
Qed.

Lemma withNewScore_bestFive (newScore : HighScore) (l : list HighScore) :
  bestFiveOf (l ++ [newScore]) (withNewScore newScore l).
Proof.
  unfold bestFiveOf, withNewScore.
  pose proof (sortByScore_sorted (l ++ [newScore])) as Hs.
  pose proof (sortByScore_perm (l ++ [newScore])) as Hp.
  split; [|split].
  - rewrite length_firstn, (Permutation_length Hp); reflexivity.
  - apply StronglySorted_firstn; exact Hs.
  - exists (skipn 5 (sortByScore (l ++ [newScore]))).
    split; [rewrite firstn_skipn; exact Hp|].
    intros kept d; apply StronglySorted_cut; exact Hs.
Qed.

Lemma nameOr_not_empty (playerName fallback : string) :
  fallback <> EmptyString -> nameOr playerName fallback <> EmptyString.
Proof. destruct playerName; cbn; [trivial | discriminate]. Qed.

(** X4: [saveScore] of index.tsx returns to the menu and leaves on the
    leaderboard the best five of the old entries and the new one, best first;
    the new entry carries the score of the run and a name that is not empty. *)
Theorem Index_saveScore_keeps_the_best_five (st : State) (b : Board) :
  let newScore := Index_newScore st b in
  gameState (fst (Index_saveScore st b)) = START
  /\ score (fst (Index_saveScore st b)) = score st
  /\ hs_score newScore = score st
  /\ hs_name newScore <> EmptyString
  /\ (playerName b <> EmptyString -> hs_name newScore = playerName b)
  /\ bestFiveOf (highScores b ++ [newScore])
       (highScores (snd (Index_saveScore st b))).
Proof.
  cbn zeta. unfold Index_saveScore; cbn [fst snd highScores].
  repeat split.
  - unfold Index_newScore; cbn [hs_name]; apply nameOr_not_empty; discriminate.
  - unfold Index_newScore; cbn [hs_name].
    destruct (playerName b); [intros H; contradiction H; reflexivity | reflexivity].
  - apply withNewScore_bestFive.
  - apply withNewScore_bestFive.
  - apply withNewScore_bestFive.
Qed.

(** X5: the SAVE button of part_000 leaves the best five of the old entries
    and the new one, best first, and marks the name as saved; while the name
    reads SAVED! the button is disabled, so a second click adds nothing. *)
Theorem Part000_saveScore_once (st st' : State) (b : Board) :
  (playerName b <> "SAVED!"%string ->
     bestFiveOf (highScores b ++ [Part000_newScore st b])
       (highScores (Part000_saveScore st b))
     /\ hs_name (Part000_newScore st b) <> EmptyString
     /\ hs_score (Part000_newScore st b) = score st)
  /\ playerName (Part000_saveScore st b) = "SAVED!"%string
  /\ Part000_saveScore st' (Part000_saveScore st b) = Part000_saveScore st b.
Proof.
  assert (Hname : playerName (Part000_saveScore st b) = "SAVED!"%string).
  { unfold Part000_saveScore.
    destruct (playerName b =? "SAVED!")%string eqn:E; [|reflexivity].
    apply String.eqb_eq; exact E. }
  split; [|split].
  - intros Hn. unfold Part000_saveScore.
    apply String.eqb_neq in Hn; rewrite Hn; cbn [highScores].
    split; [apply withNewScore_bestFive|].
    split; [|reflexivity].
    unfold Part000_newScore; cbn [hs_name]; apply nameOr_not_empty; discriminate.
  - exact Hname.
  - unfold Part000_saveScore at 1. rewrite Hname; reflexivity.
Qed.

(** X6: on a leaderboard that is in order (as every saved one is), the new
    entry goes behind the entries that score at least as much and before the
    lower ones; on a full leaderboard a score that does not beat the fifth is
    dropped, also on a tie. *)
Theorem saveScore_ranks_the_new_entry (newScore : HighScore) (l : list HighScore)
    (Hsorted : StronglySorted byScore l) :
  withNewScore newScore l
  = firstn 5 (filter (fun h => hs_score newScore <=? hs_score h) l
              ++ newScore
                 :: filter (fun h => negb (hs_score newScore <=? hs_score h)) l)
  /\ (List.length l = 5%nat ->
      Forall (fun h => hs_score newScore <= hs_score h) l ->
      withNewScore newScore l = l)
  /\ StronglySorted byScore (withNewScore newScore l).
Proof.
  unfold withNewScore.
  rewrite sortByScore_snoc, (sortByScore_sorted_id l Hsorted).
  split; [|split].
  - rewrite (insertByScore_split newScore l Hsorted); reflexivity.
  - intros Hlen Hall. rewrite (insertByScore_last newScore l Hall).
    rewrite firstn_app, Hlen, Nat.sub_diag, firstn_O, app_nil_r.
    rewrite <- Hlen; apply firstn_all.
  - apply StronglySorted_firstn, insertByScore_sorted; exact Hsorted.
Qed.

Lemma saveScore_ranks_the_new_entry_witness :
  let l := [ mkHighScore "A" 900; mkHighScore "B" 700; mkHighScore "C" 700;
             mkHighScore "D" 500; mkHighScore "E" 300 ] in
  withNewScore (mkHighScore "NEW" 700) l
  = [ mkHighScore "A" 900; mkHighScore "B" 700; mkHighScore "C" 700;
      mkHighScore "NEW" 700; mkHighScore "D" 500 ]
  /\ withNewScore (mkHighScore "NEW" 300) l = l.
Proof.
  intros l.
  assert (Hsorted : StronglySorted byScore l).
  { unfold l, byScore. repeat constructor; cbn; lia. }
  destruct (saveScore_ranks_the_new_entry (mkHighScore "NEW" 700) l Hsorted)
    as [H1 _].
  destruct (saveScore_ranks_the_new_entry (mkHighScore "NEW" 300) l Hsorted)
    as [_ [H2 _]].
  split.
  - rewrite H1; reflexivity.
  - apply H2; [reflexivity|].
    unfold l. repeat constructor; cbn; lia.
Defined.

(** ** Invariants of a run *)

Lemma gameInvariant_set_gameState (wall : Position -> bool) (speed : Z -> Z) (g : GameState)
    (st : State) :
  gameInvariant wall speed st -> gameInvariant wall speed (set_gameState g st).
Proof. intros H; exact H. Qed.

Lemma gameInvariant_set_lastMoveTime (wall : Position -> bool) (speed : Z -> Z) (v : Z)
    (st : State) :
  gameInvariant wall speed st -> gameInvariant wall speed (set_lastMoveTime v st).
Proof. intros H; exact H. Qed.

Lemma gameInvariant_set_timeouts (wall : Position -> bool) (speed : Z -> Z)
    (v : list (Z * Callback)) (st : State) :
  gameInvariant wall speed st -> gameInvariant wall speed (set_timeouts v st).
Proof. intros H; exact H. Qed.

Lemma gameInvariant_set_timeLeft (wall : Position -> bool) (speed : Z -> Z) (v : double)
    (st : State) :
  gameInvariant wall speed st -> gameInvariant wall speed (set_timeLeft v st).
Proof. intros H; exact H. Qed.

Lemma gameInvariant_set_fireworkBursts (wall : Position -> bool) (speed : Z -> Z) (v : nat)
    (st : State) :
  gameInvariant wall speed st -> gameInvariant wall speed (set_fireworkBursts v st).
Proof. intros H; exact H. Qed.

Lemma keyDirection_isDirection (key : Key) (d : Position) :
  keyDirection key = Some d -> isDirection d.
Proof.
  destruct key; cbn; intros H; inversion H; subst; reflexivity.
Qed.

Lemma touchDirection_isDirection (b : TouchButton) :
  isDirection (touchDirection b).
Proof. destruct b; reflexivity. Qed.

Lemma dequeueDirection_invariant (wall : Position -> bool) (speed : Z -> Z) (st : State) :
  gameInvariant wall speed st -> gameInvariant wall speed (Index.dequeueDirection st).
Proof.
  unfold Index.dequeueDirection.
  destruct (moveQueue st) as [|d rest] eqn:E; [trivial|].
  unfold gameInvariant; rewrite E.
  intros (H1 & H2 & H3 & H4 & H5 & H6 & H7 & H8 & H9 & H10).
  inversion H9; subst. cbn.
  repeat split; try assumption; try apply H5; apply H7.
Qed.

Lemma unspawned_rest (st st' : State) :
  unspawned st' = unspawned st ->
  lastMoveTime st' = lastMoveTime st /\ fireworkBursts st' = fireworkBursts st.
Proof.
  intros H.
  split.
  - change (lastMoveTime (unspawned st') = lastMoveTime (unspawned st)).
    rewrite H; reflexivity.
  - change (fireworkBursts (unspawned st') = fireworkBursts (unspawned st)).
    rewrite H; reflexivity.
Qed.

Lemma removelast_cons_not_nil {A : Type} (a : A) (l : list A) :
  l <> [] -> removelast (a :: l) <> [].
Proof. destruct l; [intros H; contradiction H; reflexivity | discriminate]. Qed.

Lemma Forall_removelast {A : Type} (P : A -> Prop) (l : list A) :
  Forall P l -> Forall P (removelast l).
Proof.
  induction 1 as [|a l Ha Hl IH]; cbn [removelast]; [constructor|].
  destruct l; [constructor | constructor; assumption].
Qed.

Lemma gameInvariant_push (wall : Position -> bool) (speed : Z -> Z) (d : Position) (st : State) :
  gameInvariant wall speed st -> isDirection d ->
  gameInvariant wall speed (set_moveQueue (moveQueue st ++ [d]) st).
Proof.
  intros (H1 & H2 & H3 & H4 & H5 & H6 & H7 & H8 & H9 & H10) Hd.
  unfold gameInvariant; cbn.
  repeat split; try assumption; try lia.
  apply Forall_app; split; [assumption | constructor; [assumption | constructor]].
Qed.

Lemma gameInvariant_set_snake (wall : Position -> bool) (speed : Z -> Z) (body : list Position)
    (st : State) :
  gameInvariant wall speed st -> body <> [] ->
  Forall (fun cell => wall cell = false) body ->
  gameInvariant wall speed (set_snake body st).
Proof.
  intros (H1 & H2 & H3 & H4 & H5 & H6 & H7 & H8 & H9 & H10) Hb Hw.
  unfold gameInvariant; cbn.
  repeat split; try assumption; try lia.
Qed.

Section InvariantIndex.
Variable random : nat -> Q.

Lemma Index_resetGame_core (fullReset : bool) (st : State) :
  let st' := Index.resetGame random fullReset st in
  gameState st' = PLAYING
  /\ snake st' = [ {| px := 0; pz := 2 |}; {| px := 0; pz := 3 |};
                   {| px := 0; pz := 4 |} ]
  /\ direction st' = {| px := 0; pz := -1 |}
  /\ moveQueue st' = []
  /\ Z.of_nat (List.length (foods st')) = Z.max (level st' * 5) 0
  /\ dogPulseEndTime st' = dogPulseEndTime st
  /\ timeouts st' = timeouts st
  /\ lastMoveTime st' = lastMoveTime st
  /\ fireworkBursts st' = fireworkBursts st
  /\ (if fullReset
      then score st' = 0 /\ level st' = 1
           /\ timeLeft st' = double_of_Z LEVEL_DURATION
           /\ moveInterval st' = 200 /\ baseLevelSpeed st' = 200
           /\ levelStartScore st' = 0
           /\ ghostModeEndTime st' = 0 /\ speedBoostEndTime st' = 0
      else score st' = score st /\ level st' = level st
           /\ timeLeft st' = timeLeft st
           /\ moveInterval st' = moveInterval st
           /\ baseLevelSpeed st' = baseLevelSpeed st
           /\ levelStartScore st' = levelStartScore st
           /\ ghostModeEndTime st' = ghostModeEndTime st
           /\ speedBoostEndTime st' = speedBoostEndTime st).
Proof.
  cbv zeta. unfold Index.resetGame. cbv zeta.
  match goal with
  | |- context [Index.spawnFood random ?X] =>
      pose proof (unspawned_fields _ _ (Index_spawnFood_unspawned random X)) as Hu;
      pose proof (unspawned_rest _ _ (Index_spawnFood_unspawned random X)) as Hr;
      pose proof (Index_spawnFood_count random X) as Hc;
      revert Hu Hr Hc;
      generalize (Index.spawnFood random X) as Y
  end.
  intros Y (Hg & Hs & Hl & Ht & Hsn & Hm & Hb & Hls & Hgh & Hbo & Hpu & Hto
            & Hd & Hq) (Hlm & Hfb) Hc.
  rewrite Hg, Hsn, Hd, Hq, Hpu, Hto, Hlm, Hfb, Hs, Hl, Ht, Hm, Hb, Hls, Hgh, Hbo.
  rewrite Hc.
  destruct fullReset; cbn -[double_of_Z]; repeat split.
Qed.

Lemma Index_resetGame_invariant (fullReset : bool) (st : State) :
  (fullReset = false ->
   1 <= level st /\ 50 <= moveInterval st <= baseLevelSpeed st
   /\ 0 <= levelStartScore st <= score st
   /\ baseLevelSpeed st = Index_baseInterval (level st)) ->
  gameInvariant Index.hitWall Index_baseInterval (Index.resetGame random fullReset st).
Proof.
  intros H.
  destruct (Index_resetGame_core fullReset st)
    as (Hg & Hsn & Hd & Hq & Hc & _ & _ & _ & _ & Hf).
  revert Hg Hsn Hd Hq Hc Hf.
  generalize (Index.resetGame random fullReset st) as Y.
  intros Y Hg Hsn Hd Hq Hc Hf.
  unfold gameInvariant. rewrite Hsn, Hd, Hq, Hc.
  assert (Hrest : 1 <= level Y /\ 50 <= moveInterval Y <= baseLevelSpeed Y
                  /\ 0 <= levelStartScore Y <= score Y
                  /\ baseLevelSpeed Y = Index_baseInterval (level Y)).
  { destruct fullReset.
    - destruct Hf as (-> & -> & _ & -> & -> & -> & _).
      unfold Index_baseInterval. lia.
    - destruct Hf as (-> & -> & _ & -> & -> & -> & _). apply H; reflexivity. }
  destruct Hrest as (R1 & R2 & R3 & R4).
  split; [discriminate|].
  split; [repeat constructor|].
  split; [assumption|].
  split; [lia|].
  split; [assumption|].
  split; [rewrite R4; unfold Index_baseInterval; lia|].
  split; [assumption|].
  split; [reflexivity|].
  split; [constructor | exact R4].
Qed.

Lemma Index_startGame_invariant (st : State) :
  gameInvariant Index.hitWall Index_baseInterval (Index.startGame random st).
Proof. apply Index_resetGame_invariant; discriminate. Qed.

Lemma Index_retryLevel_invariant (st : State) :
  gameInvariant Index.hitWall Index_baseInterval st ->
  gameInvariant Index.hitWall Index_baseInterval (Index.retryLevel random st).
Proof.
  intros (H1 & H2 & H3 & H4 & H5 & H6 & H7 & H8 & H9 & H10).
  unfold Index.retryLevel. cbv zeta.
  match goal with
  | |- context [Index.resetGame random false ?X] =>
      assert (HX : gameInvariant Index.hitWall Index_baseInterval (Index.resetGame random false X));
      [ apply Index_resetGame_invariant; intros _;
        cbn [level moveInterval baseLevelSpeed levelStartScore score
             set_moveInterval set_timeLeft set_score set_level
             set_baseLevelSpeed set_levelStartScore];
        unfold Index_baseInterval in *; lia
      | apply gameInvariant_set_gameState; exact HX ]
  end.
Qed.

Lemma Index_AdvanceLevel_invariant (st : State) :
  gameInvariant Index.hitWall Index_baseInterval st ->
  gameInvariant Index.hitWall Index_baseInterval (Index.runCallback random AdvanceLevel st).
Proof.
  intros (H1 & H2 & H3 & H4 & H5 & H6 & H7 & H8 & H9 & H10).
  unfold Index.runCallback. cbv zeta.
  match goal with
  | |- context [Index.resetGame random false ?X] =>
      assert (HX : gameInvariant Index.hitWall Index_baseInterval (Index.resetGame random false X));
      [ apply Index_resetGame_invariant; intros _;
        cbn [level moveInterval baseLevelSpeed levelStartScore score
             set_moveInterval set_timeLeft set_score set_level
             set_baseLevelSpeed set_levelStartScore];
        unfold Index_baseInterval in *; lia
      | apply gameInvariant_set_gameState; exact HX ]
  end.
Qed.

Lemma Index_foodCollision_invariant (nextHead : Position) (st : State) :
  gameInvariant Index.hitWall Index_baseInterval st ->
  Index.hitWall nextHead = false ->
  gameInvariant Index.hitWall Index_baseInterval (Index.foodCollision random nextHead st).
Proof.
  intros H Hw. pose proof H as (H1 & H2 & H3 & H4 & H5 & H6 & H7 & H8 & H9 & H10).
  destruct (foodAt nextHead st) as [f|] eqn:Hf.
  - destruct (Index_foodCollision_eats random nextHead st f Hf) as (i & Hi & ->).
    match goal with
    | |- context [Index.spawnFood random ?X] =>
        pose proof (unspawned_fields _ _ (Index_spawnFood_unspawned random X)) as Hu;
        pose proof (Index_spawnFood_count random X) as Hc;
        revert Hu Hc;
        generalize (Index.spawnFood random X) as Y
    end.
    intros Y (Hg & Hs & Hl & Ht & Hsn & Hm & Hb & Hls & Hgh & Hbo & Hpu & Hto
              & Hd & Hq) Hc.
    cbn in Hg, Hs, Hl, Hsn, Hm, Hb, Hls, Hd, Hq, Hc.
    rewrite (length_splice1 _ _ Hi) in Hc.
    pose proof (foodValue_cases f) as Hv.
    unfold gameInvariant. cbn.
    rewrite Hs, Hl, Hm, Hb, Hls, Hd, Hq.
    repeat split; try assumption; try lia.
    + discriminate.
    + constructor; [exact Hw | exact H2].
  - rewrite (Index_foodCollision_none random nextHead st Hf).
    apply gameInvariant_set_snake.
    + exact H.
    + apply removelast_cons_not_nil; assumption.
    + apply Forall_removelast; constructor; [exact Hw | exact H2].
Qed.

Lemma Index_powerUpCollision_invariant (now : Z) (nextHead : Position)
    (st : State) :
  gameInvariant Index.hitWall Index_baseInterval st ->
  gameInvariant Index.hitWall Index_baseInterval (Index.powerUpCollision now nextHead st).
Proof.
  intros H. unfold Index.powerUpCollision.
  destruct (powerUp st) as [p|]; [|exact H].
  destruct (pos_eqb nextHead (pu_pos p)); [|exact H].
  destruct H as (H1 & H2 & H3 & H4 & H5 & H6 & H7 & H8 & H9 & H10).
  unfold gameInvariant, Index.consumePowerUp.
  destruct (pu_type p); cbn;
    (repeat split; try assumption; try lia).
Qed.

Lemma Index_updateTimer_invariant (now : Z) (st : State) :
  gameInvariant Index.hitWall Index_baseInterval st ->
  gameInvariant Index.hitWall Index_baseInterval (Index.updateTimer now st).
Proof.
  intros H. unfold Index.updateTimer, Index.nextLevel. cbv zeta.
  destruct (double_leb _ _).
  - apply gameInvariant_set_timeouts, gameInvariant_set_gameState,
      gameInvariant_set_timeLeft, H.
  - apply gameInvariant_set_timeLeft, H.
Qed.

Lemma Index_tick_invariant (now : Z) (st : State) :
  gameInvariant Index.hitWall Index_baseInterval st ->
  gameInvariant Index.hitWall Index_baseInterval (Index.updateGameLogic random now st).
Proof.
  intros H.
  pose proof (dequeueDirection_invariant _ _ st H) as Hd.
  assert (Hnext : exists nextHead, nextHeadOf st = Some nextHead).
  { unfold nextHeadOf. destruct Hd as (Hne & _).
    destruct (snake (Index.dequeueDirection st)); [contradiction Hne; reflexivity|].
    eexists; reflexivity. }
  destruct Hnext as (nextHead & Hnext).
  destruct (Index.collides now nextHead (Index.dequeueDirection st)) eqn:Hc.
  - rewrite (Index_tick_with_collision random now st nextHead Hnext Hc).
    apply gameInvariant_set_gameState, Hd.
  - rewrite (Index_tick_unfold random now st nextHead Hnext Hc).
    unfold Index.collides in Hc. apply orb_false_iff in Hc. destruct Hc as (Hw & _).
    pose proof (Index_foodCollision_invariant nextHead _ Hd Hw) as Hf.
    revert Hf.
    generalize (Index.foodCollision random nextHead (Index.dequeueDirection st))
      as st2.
    intros st2 Hf.
    pose proof (Index_powerUpCollision_invariant now nextHead st2 Hf) as Hp.
    revert Hp.
    generalize (Index.powerUpCollision now nextHead st2) as st3.
    intros st3 Hp.
    apply Index_updateTimer_invariant; exact Hp.
Qed.

Lemma Index_animate_invariant (time now : Z) (st : State) :
  gameInvariant Index.hitWall Index_baseInterval st ->
  gameInvariant Index.hitWall Index_baseInterval (Index.animate random time now st).
Proof.
  intros H. unfold Index.animate.
  destruct (gameState st) eqn:Hg; try exact H.
  cbv zeta. destruct (time - lastMoveTime st >? Index.currentInterval now st);
    [|exact H].
  apply gameInvariant_set_lastMoveTime, Index_tick_invariant, H.
Qed.

Lemma Index_togglePause_invariant (st : State) :
  gameInvariant Index.hitWall Index_baseInterval st ->
  gameInvariant Index.hitWall Index_baseInterval (Index.togglePause st).
Proof.
  intros H. unfold Index.togglePause.
  destruct (gameState st);
    [ exact H | apply gameInvariant_set_gameState, H
    | apply gameInvariant_set_gameState, H | exact H | exact H ].
Qed.

Lemma Index_enqueueDirection_invariant (d : Position) (st : State) :
  isDirection d ->
  gameInvariant Index.hitWall Index_baseInterval st ->
  gameInvariant Index.hitWall Index_baseInterval (Index.enqueueDirection d st).
Proof.
  intros Hd H. unfold Index.enqueueDirection. cbv zeta.
  destruct (negb _ || negb _); [|exact H].
  destruct (_ <? _)%nat; [|exact H].
  apply gameInvariant_push; assumption.
Qed.
End InvariantIndex.

Section InvariantIndexRun.
Variable random : nat -> Q.

Lemma Index_handleKeyDown_invariant (key : Key) (st : State) :
  gameInvariant Index.hitWall Index_baseInterval st ->
  gameInvariant Index.hitWall Index_baseInterval (Index.handleKeyDown random key st).
Proof.
  intros H.
  assert (Hdir : forall d, keyDirection key = Some d ->
            gameInvariant Index.hitWall Index_baseInterval (Index.enqueueDirection d st)).
  { intros d Hd. apply Index_enqueueDirection_invariant;
      [apply (keyDirection_isDirection key); exact Hd | exact H]. }
  pose proof (Index_startGame_invariant random st) as Hstart.
  pose proof (Index_togglePause_invariant st H) as Hpause.
  unfold Index.handleKeyDown.
  revert Hdir Hstart Hpause.
  generalize (Index.startGame random st) as sg.
  generalize (Index.togglePause st) as tp.
  intros tp sg Hdir Hstart Hpause.
  destruct key; try assumption;
    destruct (gameState st); try assumption;
    cbn [keyDirection]; try assumption;
    apply Hdir; reflexivity.
Qed.

Lemma Index_runTimeout_invariant (now : Z) (st : State) :
  gameInvariant Index.hitWall Index_baseInterval st ->
  gameInvariant Index.hitWall Index_baseInterval (Index.runTimeout random now st).
Proof.
  intros H. unfold Index.runTimeout.
  destruct (earliestTimeout (timeouts st)) as [[i [due cb]]|]; [|exact H].
  destruct (due <=? now); [|exact H].
  destruct cb.
  - apply gameInvariant_set_fireworkBursts, gameInvariant_set_timeouts, H.
  - apply Index_AdvanceLevel_invariant, gameInvariant_set_timeouts, H.
Qed.

Lemma Index_step_invariant (e : Event) (st : State) :
  gameInvariant Index.hitWall Index_baseInterval st ->
  gameInvariant Index.hitWall Index_baseInterval (Index.step random e st).
Proof.
  intros H.
  pose proof (Index_startGame_invariant random st) as Hstart.
  pose proof (Index_retryLevel_invariant random st H) as Hretry.
  destruct e; cbn [Index.step].
  - apply Index_animate_invariant; exact H.
  - apply Index_handleKeyDown_invariant; exact H.
  - apply gameInvariant_push; [exact H | apply touchDirection_isDirection].
  - apply Index_runTimeout_invariant; exact H.
  - destruct (gameState st); first [exact H | exact Hstart].
  - apply Index_togglePause_invariant; exact H.
  - destruct (gameState st); first [exact H | exact Hretry].
  - destruct (gameState st);
      first [exact H | apply gameInvariant_set_gameState, H].
Qed.

Lemma Index_run_invariant (events : list Event) :
  forall st,
    gameInvariant Index.hitWall Index_baseInterval st ->
    gameInvariant Index.hitWall Index_baseInterval (Index.run random events st).
Proof.
  unfold Index.run.
  induction events as [|e events IH]; intros st H; cbn [fold_left];
    [exact H|].
  apply IH, Index_step_invariant, H.
Qed.
End InvariantIndexRun.

Lemma last_cons {A : Type} (q : list A) :
  forall x y : A, last (x :: q) y = last q x.
Proof.
  induction q as [|b q IH]; intros x y; [reflexivity|].
  change (last (x :: b :: q) y) with (last (b :: q) y).
  rewrite (IH b y), (IH b x); reflexivity.
Qed.

Lemma turnsOnly_snoc (prev d : Position) (queue : list Position) :
  turnsOnly prev (queue ++ [d])
  <-> turnsOnly prev queue /\ crossAxis (last queue prev) d.
Proof.
  revert prev. induction queue as [|a queue IH]; intros prev.
  - cbn. tauto.
  - change ((a :: queue) ++ [d]) with (a :: (queue ++ [d])).
    cbn [turnsOnly]. rewrite IH, last_cons. tauto.
Qed.

Lemma Part000_invariant_set_gameState (g : GameState) (st : State) :
  Part000_invariant st -> Part000_invariant (set_gameState g st).
Proof. intros H; exact H. Qed.

Lemma Part000_invariant_set_timeLeft (v : double) (st : State) :
  Part000_invariant st -> Part000_invariant (set_timeLeft v st).
Proof. intros H; exact H. Qed.

Lemma Part000_invariant_set_timeouts (v : list (Z * Callback)) (st : State) :
  Part000_invariant st -> Part000_invariant (set_timeouts v st).
Proof. intros H; exact H. Qed.

Lemma Part000_invariant_set_lastMoveTime (v : Z) (st : State) :
  Part000_invariant st -> Part000_invariant (set_lastMoveTime v st).
Proof. intros H; exact H. Qed.

Lemma Part000_invariant_set_fireworkBursts (v : nat) (st : State) :
  Part000_invariant st -> Part000_invariant (set_fireworkBursts v st).
Proof. intros H; exact H. Qed.

Lemma Part000_invariant_set_snake (body : list Position) (st : State) :
  Part000_invariant st -> body <> [] ->
  Forall (fun cell => Part000.hitWall cell = false) body ->
  Part000_invariant (set_snake body st).
Proof.
  intros (H & Hq) Hne Hw.
  split; [apply gameInvariant_set_snake; assumption | exact Hq].
Qed.

Section InvariantPart000.
Variable random : nat -> Q.

Lemma Part000_spawnFood_body_count (st : State) :
  List.length (foods (Part000.spawnFood_body random st))
  = S (List.length (foods st)).
Proof.
  unfold Part000.spawnFood_body.
  destruct (getRandomPosition_some random
              (snake st ++ foodCells (foods st) ++ powerUpCells (powerUp st))
              (randomCalls st)) as (pos & t & c & ->).
  cbn [foods set_foods]. rewrite length_app. cbn [List.length]. lia.
Qed.

Lemma Part000_spawnFood_count (count : Z) (st : State) :
  List.length (foods (Part000.spawnFood random count st))
  = (List.length (foods st) + Z.to_nat count)%nat.
Proof.
  unfold Part000.spawnFood.
  generalize (Z.to_nat count) as rounds. intros rounds. revert st.
  induction rounds as [|rounds IH]; intros st; cbn [Part000.spawnFood_rounds].
  - lia.
  - rewrite IH, Part000_spawnFood_body_count. lia.
Qed.

Lemma Part000_spawnFood_powerUp (count : Z) (st : State) :
  powerUp (Part000.spawnFood random count st) = powerUp st.
Proof.
  unfold Part000.spawnFood.
  generalize (Z.to_nat count) as rounds. intros rounds. revert st.
  induction rounds as [|rounds IH]; intros st; cbn [Part000.spawnFood_rounds];
    [reflexivity|].
  rewrite IH. unfold Part000.spawnFood_body.
  destruct (getRandomPosition random _ _) as [[[pos t] c] |]; reflexivity.
Qed.

Lemma Part000_resetGame_core (lvl : Z) (st : State) :
  let st' := Part000.resetGame random lvl st in
  gameState st' = gameState st
  /\ level st' = lvl
  /\ snake st' = [ {| px := 0; pz := 0 |} ]
  /\ direction st' = {| px := 0; pz := -1 |}
  /\ moveQueue st' = []
  /\ timeLeft st' = double_of_Z LEVEL_DURATION
  /\ baseLevelSpeed st' = Z.max 80 (200 - (lvl - 1) * 20)
  /\ moveInterval st' = Z.max 80 (200 - (lvl - 1) * 20)
  /\ ghostModeEndTime st' = 0 /\ speedBoostEndTime st' = 0
  /\ dogPulseEndTime st' = 0
  /\ List.length (foods st') = Z.to_nat (lvl * 5)
  /\ score st' = (if lvl =? 1 then 0 else score st)
  /\ levelStartScore st' = score st'
  /\ powerUp st' = powerUp st
  /\ timeouts st' = timeouts st
  /\ lastMoveTime st' = lastMoveTime st.
Proof.
  cbv zeta. unfold Part000.resetGame. cbv zeta.
  match goal with
  | |- context [Part000.spawnFood random ?c ?X] =>
      pose proof (unspawned_fields _ _ (Part000_spawnFood_unspawned random c X)) as Hu;
      pose proof (unspawned_rest _ _ (Part000_spawnFood_unspawned random c X)) as Hr;
      pose proof (Part000_spawnFood_count c X) as Hc;
      pose proof (Part000_spawnFood_powerUp c X) as Hp;
      revert Hu Hr Hc Hp;
      generalize (Part000.spawnFood random c X) as Y
  end.
  intros Y (Hg & Hs & Hl & Ht & Hsn & Hm & Hb & Hls & Hgh & Hbo & Hpu & Hto
            & Hd & Hq) (Hlm & Hfb) Hc Hp.
  rewrite Hg, Hsn, Hd, Hq, Hpu, Hto, Hlm, Hs, Hl, Ht, Hm, Hb, Hls, Hgh, Hbo, Hc, Hp.
  destruct (lvl =? 1); cbn -[double_of_Z]; repeat split.
Qed.

Lemma Part000_resetGame_invariant (lvl : Z) (st : State) :
  1 <= lvl -> 0 <= score st ->
  Part000_invariant (Part000.resetGame random lvl st).
Proof.
  intros Hlvl Hscore.
  destruct (Part000_resetGame_core lvl st)
    as (Hg & Hl & Hsn & Hd & Hq & Ht & Hb & Hm & _ & _ & _ & Hc & Hs & Hls & _).
  revert Hg Hl Hsn Hd Hq Ht Hb Hm Hc Hs Hls.
  generalize (Part000.resetGame random lvl st) as Y.
  intros Y Hg Hl Hsn Hd Hq Ht Hb Hm Hc Hs Hls.
  unfold Part000_invariant, gameInvariant.
  rewrite Hsn, Hd, Hq, Hc, Hl, Hb, Hm, Hls, Hs.
  assert (Hsc : 0 <= (if lvl =? 1 then 0 else score st))
    by (destruct (lvl =? 1); lia).
  repeat split; try lia; try discriminate; try constructor; try reflexivity;
    try constructor.
Qed.

Lemma Part000_startGame_invariant (st : State) :
  Part000_invariant (Part000.startGame random st).
Proof.
  unfold Part000.startGame.
  destruct (Part000_resetGame_core 1 (set_gameState PLAYING st))
    as (Hg & Hl & Hsn & Hd & Hq & Ht & Hb & Hm & _ & _ & _ & Hc & Hs & Hls & _).
  revert Hg Hl Hsn Hd Hq Ht Hb Hm Hc Hs Hls.
  generalize (Part000.resetGame random 1 (set_gameState PLAYING st)) as Y.
  intros Y Hg Hl Hsn Hd Hq Ht Hb Hm Hc Hs Hls.
  unfold Part000_invariant, gameInvariant.
  rewrite Hsn, Hd, Hq, Hc, Hl, Hb, Hm, Hls, Hs.
  change (1 =? 1) with true. cbv iota.
  repeat split; try lia; try discriminate; try constructor; try reflexivity;
    try constructor.
Qed.

Lemma Part000_startLevel_invariant (st : State) :
  Part000_invariant st ->
  Part000_invariant (Part000.runCallback random AdvanceLevel st).
Proof.
  intros ((H1 & H2 & H3 & H4 & H5 & H6 & H7 & H8 & H9 & H10) & _).
  unfold Part000.runCallback, Part000.startLevel.
  apply Part000_resetGame_invariant; cbn [score set_gameState]; lia.
Qed.

Lemma Part000_retryLevel_invariant (st : State) :
  Part000_invariant st -> Part000_invariant (Part000.retryLevel random st).
Proof.
  intros ((H1 & H2 & H3 & H4 & H5 & H6 & H7 & H8 & H9 & H10) & Hq).
  unfold Part000.retryLevel. cbv zeta.
  match goal with
  | |- context [Part000.spawnFood random ?c ?X] =>
      pose proof (unspawned_fields _ _ (Part000_spawnFood_unspawned random c X)) as Hu;
      pose proof (Part000_spawnFood_count c X) as Hc;
      revert Hu Hc;
      generalize (Part000.spawnFood random c X) as Y
  end.
  intros Y (Hg & Hs & Hl & Ht & Hsn & Hm & Hbs & Hls & Hgh & Hbo & Hpu & Hto
            & Hd & Hqu) Hc.
  cbn [gameState score level snake direction moveQueue foods moveInterval
       baseLevelSpeed levelStartScore set_gameState set_score set_snake
       set_direction set_moveQueue set_timeLeft set_moveInterval set_foods
       List.length Nat.add]
    in Hs, Hl, Hsn, Hm, Hbs, Hls, Hd, Hqu, Hc.
  unfold Part000_invariant, gameInvariant.
  rewrite Hs, Hl, Hsn, Hm, Hbs, Hls, Hd, Hqu, Hc.
  repeat split; try lia; try discriminate; try constructor; try reflexivity;
    try constructor.
Qed.

Lemma Part000_eatFood_invariant (newHead : Position) (st : State) :
  Part000_invariant st ->
  let st' := fst (Part000.eatFood random newHead st) in
  Part000_invariant st' /\ snake st' = snake st.
Proof.
  intros H. pose proof H as ((H1 & H2 & H3 & H4 & H5 & H6 & H7 & H8 & H9 & H10) & Hq).
  cbv zeta.
  destruct (foodAt newHead st) as [f|] eqn:Hf.
  - destruct (Part000_eatFood_eats random newHead st f Hf) as (i & Hi & ->).
    cbn [fst].
    match goal with
    | |- context [Part000.spawnPowerUp random ?X] =>
        pose proof (unspawned_fields _ _ (Part000_spawnPowerUp_unspawned random X)) as Hu;
        pose proof (Part000_spawnPowerUp_foods random X) as Hc;
        revert Hu Hc;
        generalize (Part000.spawnPowerUp random X) as Z
    end.
    match goal with
    | |- context [Part000.spawnFood random 1 ?X] =>
        pose proof (unspawned_fields _ _ (Part000_spawnFood_unspawned random 1 X)) as Hu;
        pose proof (Part000_spawnFood_count 1 X) as Hc;
        revert Hu Hc;
        generalize (Part000.spawnFood random 1 X) as Y
    end.
    intros Y (Hg & Hs & Hl & Ht & Hsn & Hm & Hbs & Hls & Hgh & Hbo & Hpu & Hto
              & Hd & Hqu) Hc.
    intros Z (Hg' & Hs' & Hl' & Ht' & Hsn' & Hm' & Hbs' & Hls' & Hgh' & Hbo'
              & Hpu' & Hto' & Hd' & Hqu') Hc'.
    cbn [gameState score level snake direction moveQueue foods moveInterval
         baseLevelSpeed levelStartScore set_score set_moveInterval set_foods]
      in Hs, Hl, Hsn, Hm, Hbs, Hls, Hd, Hqu, Hc.
    rewrite (length_splice1 _ _ Hi) in Hc. change (Z.to_nat 1) with 1%nat in Hc.
    pose proof (foodValue_cases f) as Hv.
    unfold Part000_invariant, gameInvariant.
    rewrite Hs', Hl', Hsn', Hm', Hbs', Hls', Hd', Hqu', Hc'.
    rewrite Hs, Hl, Hsn, Hm, Hbs, Hls, Hd, Hqu, Hc.
    repeat split; try assumption; try lia.
  - rewrite (Part000_eatFood_none random newHead st Hf). cbn [fst].
    split; [exact H | reflexivity].
Qed.

Lemma Part000_eatPowerUp_invariant (now : Z) (newHead : Position) (st : State) :
  Part000_invariant st ->
  let st' := Part000.eatPowerUp now newHead st in
  Part000_invariant st' /\ snake st' = snake st.
Proof.
  intros H. cbv zeta. unfold Part000.eatPowerUp.
  destruct (powerUp st) as [p|]; [|split; [exact H | reflexivity]].
  destruct (pos_eqb newHead (pu_pos p)); [|split; [exact H | reflexivity]].
  destruct H as ((H1 & H2 & H3 & H4 & H5 & H6 & H7 & H8 & H9 & H10) & Hq).
  unfold Part000_invariant, gameInvariant, Part000.handlePowerUp.
  destruct (pu_type p); cbn;
    (repeat split; try assumption; try lia).
Qed.

Lemma Part000_dequeueDirection_invariant (st : State) :
  Part000_invariant st -> Part000_invariant (Index.dequeueDirection st).
Proof.
  intros (H & Hq).
  pose proof (dequeueDirection_invariant _ _ st H) as Hd.
  split; [exact Hd|]. clear Hd H.
  unfold Index.dequeueDirection.
  destruct (moveQueue st) as [|d rest] eqn:E;
    [rewrite E; assumption|].
  cbn. cbn in Hq. apply Hq.
Qed.

Lemma Part000_tick_invariant (now : Z) (st : State) :
  Part000_invariant st ->
  Part000_invariant (Part000.updateGameLogic random now st).
Proof.
  intros H.
  destruct (Part000_runsOut st) eqn:Hover.
  - rewrite (Part000_tick_countdown_over random now st Hover).
    unfold Part000.finishLevel. cbv zeta.
    apply Part000_invariant_set_timeouts, Part000_invariant_set_gameState,
      Part000_invariant_set_timeLeft, H.
  - pose proof (Part000_dequeueDirection_invariant st H) as Hd.
    assert (Hnext : exists newHead, nextHeadOf st = Some newHead).
    { unfold nextHeadOf. destruct Hd as ((Hne & _) & _).
      destruct (snake (Index.dequeueDirection st));
        [contradiction Hne; reflexivity|].
      eexists; reflexivity. }
    destruct Hnext as (newHead & Hnext).
    rewrite (Part000_tick_unfold random now st newHead Hover Hnext).
    cbv zeta.
    pose proof (Part000_invariant_set_timeLeft
                  (double_sub (timeLeft st) double_0_1) _ Hd) as H1.
    revert H1.
    generalize (set_timeLeft (double_sub (timeLeft st) double_0_1)
                  (Index.dequeueDirection st))
      as st1.
    intros st1 H1.
    destruct (Part000.collides now newHead st1) eqn:Hc.
    + unfold Part000.triggerCrash.
      apply Part000_invariant_set_gameState, H1.
    + unfold Part000.collides in Hc. apply orb_false_iff in Hc.
      destruct Hc as (Hw & _).
      destruct (Part000_eatFood_invariant newHead st1 H1) as (Hf & Hfs).
      revert Hf Hfs.
      generalize (snd (Part000.eatFood random newHead st1)) as grown.
      generalize (fst (Part000.eatFood random newHead st1)) as st2.
      intros st2 grown Hf Hfs.
      destruct (Part000_eatPowerUp_invariant now newHead st2 Hf)
        as (Hp & Hps).
      revert Hp Hps.
      generalize (Part000.eatPowerUp now newHead st2) as st3.
      intros st3 Hp Hps.
      assert (Hne : snake st1 <> []) by apply H1.
      assert (Hin : Forall (fun cell => Part000.hitWall cell = false) (snake st1))
        by apply H1.
      apply Part000_invariant_set_snake; [exact Hp | |].
      * destruct grown; [discriminate | apply removelast_cons_not_nil; exact Hne].
      * destruct grown; [constructor; [exact Hw | exact Hin]|].
        apply Forall_removelast; constructor; [exact Hw | exact Hin].
Qed.

Lemma Part000_animate_invariant (time now : Z) (st : State) :
  Part000_invariant st ->
  Part000_invariant (Part000.animate random time now st).
Proof.
  intros H. unfold Part000.animate.
  destruct (gameState st) eqn:Hg; try exact H.
  cbv zeta. destruct (time - lastMoveTime st >? Part000.currentInterval now st);
    [|exact H].
  apply Part000_invariant_set_lastMoveTime, Part000_tick_invariant, H.
Qed.

Lemma Part000_enqueueDirection_invariant (intent : Position) (st : State) :
  isDirection intent ->
  Part000_invariant st ->
  Part000_invariant (Part000.enqueueDirection intent st).
Proof.
  intros Hi (H & Hq). unfold Part000.enqueueDirection. cbv zeta.
  destruct (negb (px (lastMove st) =? 0) && negb (px intent =? 0)) eqn:Ex;
    [exact (conj H Hq)|].
  destruct (negb (pz (lastMove st) =? 0) && negb (pz intent =? 0)) eqn:Ez;
    [exact (conj H Hq)|].
  split; [apply gameInvariant_push; assumption|].
  cbn [direction moveQueue set_moveQueue].
  apply turnsOnly_snoc. split; [exact Hq|].
  unfold lastMove in Ex, Ez. unfold crossAxis.
  apply andb_false_iff in Ex, Ez.
  rewrite !negb_false_iff, !Z.eqb_eq in Ex, Ez. tauto.
Qed.

Lemma Part000_togglePause_invariant (time : Z) (st : State) :
  Part000_invariant st -> Part000_invariant (Part000.togglePause time st).
Proof.
  intros H. unfold Part000.togglePause.
  destruct (gameState st);
    [ exact H
    | apply Part000_invariant_set_gameState, H
    | apply Part000_invariant_set_lastMoveTime,
        Part000_invariant_set_gameState, H
    | exact H | exact H ].
Qed.

Lemma Part000_handleKeyDown_invariant (time : Z) (key : Key) (st : State) :
  Part000_invariant st ->
  Part000_invariant (Part000.handleKeyDown random time key st).
Proof.
  intros H.
  assert (Hdir : forall d, keyDirection key = Some d ->
            Part000_invariant (Part000.enqueueDirection d st)).
  { intros d Hd. apply Part000_enqueueDirection_invariant;
      [apply (keyDirection_isDirection key); exact Hd | exact H]. }
  pose proof (Part000_startGame_invariant st) as Hstart.
  pose proof (Part000_togglePause_invariant time st H) as Hpause.
  pose proof (Part000_retryLevel_invariant st H) as Hretry.
  unfold Part000.handleKeyDown.
  revert Hdir Hstart Hpause Hretry.
  generalize (Part000.startGame random st) as sg.
  generalize (Part000.togglePause time st) as tp.
  generalize (Part000.retryLevel random st) as rl.
  intros rl tp sg Hdir Hstart Hpause Hretry.
  destruct key; try assumption;
    destruct (gameState st); try assumption;
    cbn [keyDirection]; try assumption;
    apply Hdir; reflexivity.
Qed.

Lemma Part000_runTimeout_invariant (now : Z) (st : State) :
  Part000_invariant st ->
  Part000_invariant (Part000.runTimeout random now st).
Proof.
  intros H. unfold Part000.runTimeout.
  destruct (earliestTimeout (timeouts st)) as [[i [due cb]]|]; [|exact H].
  destruct (due <=? now); [|exact H].
  destruct cb.
  - apply Part000_invariant_set_fireworkBursts, Part000_invariant_set_timeouts, H.
  - apply Part000_startLevel_invariant, Part000_invariant_set_timeouts, H.
Qed.

Lemma Part000_step_invariant (e : Event) (st : State) :
  Part000_invariant st -> Part000_invariant (Part000.step random e st).
Proof.
  intros H.
  pose proof (Part000_startGame_invariant st) as Hstart.
  pose proof (Part000_retryLevel_invariant st H) as Hretry.
  destruct e; cbn [Part000.step].
  - apply Part000_animate_invariant; exact H.
  - apply Part000_handleKeyDown_invariant; exact H.
  - unfold Part000.handleTouch.
    destruct (gameState st);
      first [ exact H
            | apply Part000_enqueueDirection_invariant;
              [apply touchDirection_isDirection | exact H] ].
  - apply Part000_runTimeout_invariant; exact H.
  - destruct (gameState st); first [exact H | exact Hstart].
  - destruct (gameState st);
      first [exact H | apply Part000_togglePause_invariant; exact H].
  - destruct (gameState st); first [exact H | exact Hretry].
  - destruct (gameState st);
      first [exact H | apply Part000_invariant_set_gameState, H].
Qed.

Lemma Part000_run_invariant (events : list Event) :
  forall st,
    Part000_invariant st ->
    Part000_invariant (Part000.run random events st).
Proof.
  unfold Part000.run.
  induction events as [|e events IH]; intros st H; cbn [fold_left];
    [exact H|].
  apply IH, Part000_step_invariant, H.
Qed.
End InvariantPart000.

(** ** What holds throughout a game *)

Lemma isDirection_not_reversed (prev d : Position) :
  isDirection prev -> isDirection d ->
  d = prev \/ crossAxis prev d -> d <> negation prev.
Proof.
  destruct prev as [a b], d as [c e]. unfold isDirection, crossAxis, negation.
  cbn [px pz]. intros Hp Hd H Heq. injection Heq as H1 H2.
  destruct H as [H | H]; [injection H as H3 H4 |]; lia.
Qed.

(** X7: from a new game on, whatever events follow (frames, keys, on-screen
    buttons, timers, clicks), the snake is never empty and every cell of it
    lies inside the walls of its file: x and z in [-15, 15] in index.tsx, in
    [-15, 14] in part_000. *)
Theorem snake_stays_inside_the_walls
    (random : nat -> Q) (st0 : State) (events : list Event) :
  (let st := Index.run random events (Index.startGame random st0) in
   snake st <> []
   /\ forall cell, In cell (snake st) ->
        -15 <= px cell <= 15 /\ -15 <= pz cell <= 15)
  /\ (let st := Part000.run random events (Part000.startGame random st0) in
      snake st <> []
      /\ forall cell, In cell (snake st) ->
           -15 <= px cell <= 14 /\ -15 <= pz cell <= 14).
Proof.
  cbv zeta. split.
  - destruct (Index_run_invariant random events _
                (Index_startGame_invariant random st0)) as (Hne & Hin & _).
    split; [exact Hne |].
    intros cell Hcell. apply Index_hitWall_false_iff.
    rewrite Forall_forall in Hin. apply Hin, Hcell.
  - destruct (Part000_run_invariant random events _
                (Part000_startGame_invariant random st0))
      as ((Hne & Hin & _) & _).
    split; [exact Hne |].
    intros cell Hcell. apply Part000_hitWall_false_iff.
    rewrite Forall_forall in Hin. apply Hin, Hcell.
Qed.

(** X8: in part_000, from a new game on and whatever events follow, the level
    is at least 1 and the food list holds exactly level * 5 items. *)
Theorem Part000_food_count_is_five_per_level
    (random : nat -> Q) (st0 : State) (events : list Event) :
  let st := Part000.run random events (Part000.startGame random st0) in
  1 <= level st /\ Z.of_nat (List.length (foods st)) = level st * 5.
Proof.
  cbv zeta.
  destruct (Part000_run_invariant random events _
              (Part000_startGame_invariant random st0))
    as ((_ & _ & Hl & Hf & _) & _).
  split; assumption.
Qed.

(** X9: from a new game on and whatever events follow, the base interval is
    the one of the level, 200 ms at level 1 and 15 ms less per level down to
    50 ms in index.tsx, 20 ms less per level down to 80 ms in part_000, and
    the tick interval is at least 50 ms and at most the base interval. *)
Theorem tick_interval_bounds
    (random : nat -> Q) (st0 : State) (events : list Event) :
  (let st := Index.run random events (Index.startGame random st0) in
   baseLevelSpeed st = Z.max 50 (200 - 15 * (level st - 1))
   /\ 50 <= moveInterval st <= baseLevelSpeed st
   /\ baseLevelSpeed st <= 200)
  /\ (let st := Part000.run random events (Part000.startGame random st0) in
      baseLevelSpeed st = Z.max 80 (200 - (level st - 1) * 20)
      /\ 50 <= moveInterval st <= baseLevelSpeed st
      /\ 80 <= baseLevelSpeed st <= 200).
Proof.
  cbv zeta. split.
  - destruct (Index_run_invariant random events _
                (Index_startGame_invariant random st0))
      as (_ & _ & _ & _ & Hm & Hb & _ & _ & _ & Hs).
    split; [exact Hs |]. split; assumption.
  - destruct (Part000_run_invariant random events _
                (Part000_startGame_invariant random st0))
      as ((_ & _ & Hl & _ & Hm & Hb & _ & _ & _ & Hs) & _).
    split; [exact Hs |]. split; [exact Hm |].
    unfold Part000_baseInterval in Hs. lia.
Qed.

(** X10: from a new game on and whatever events follow, the score is never
    below the snapshot taken at the start of the level, and the snapshot is
    never negative. *)
Theorem score_never_below_the_level_start
    (random : nat -> Q) (st0 : State) (events : list Event) :
  (let st := Index.run random events (Index.startGame random st0) in
   0 <= levelStartScore st <= score st)
  /\ (let st := Part000.run random events (Part000.startGame random st0) in
      0 <= levelStartScore st <= score st).
Proof.
  cbv zeta. split.
  - destruct (Index_run_invariant random events _
                (Index_startGame_invariant random st0))
      as (_ & _ & _ & _ & _ & _ & Hs & _).
    exact Hs.
  - destruct (Part000_run_invariant random events _
                (Part000_startGame_invariant random st0))
      as ((_ & _ & _ & _ & _ & _ & Hs & _) & _).
    exact Hs.
Qed.

(** X11: in part_000, from a new game on and whatever events follow (keys and
    on-screen buttons alike), the direction and every queued direction is a
    step of one cell along one axis, every queued direction turns off the axis
    of the one before it, and so the direction a tick takes from the queue is
    never the reversal of the direction before. *)
Theorem Part000_never_reverses
    (random : nat -> Q) (st0 : State) (events : list Event) :
  let st := Part000.run random events (Part000.startGame random st0) in
  isDirection (direction st)
  /\ Forall isDirection (moveQueue st)
  /\ turnsOnly (direction st) (moveQueue st)
  /\ direction (Part000.dequeueDirection st) <> negation (direction st).
Proof.
  cbv zeta.
  destruct (Part000_run_invariant random events _
              (Part000_startGame_invariant random st0))
    as ((_ & _ & _ & _ & _ & _ & _ & Hd & Hq & _) & Ht).
  revert Hd Hq Ht.
  generalize (Part000.run random events (Part000.startGame random st0)) as st.
  intros st Hd Hq Ht.
  split; [exact Hd |]. split; [exact Hq |]. split; [exact Ht |].
  unfold Part000.dequeueDirection.
  destruct (moveQueue st) as [| d rest].
  - apply isDirection_not_reversed; [exact Hd | exact Hd | left; reflexivity].
  - cbn [direction set_moveQueue set_direction].
    inversion Hq; subst. destruct Ht as (Hc & _).
    apply isDirection_not_reversed; [exact Hd | assumption | right; exact Hc].
Qed.

(** ** The move of a tick *)

Lemma removelast_cons_cons {A : Type} (a : A) (l : list A) :
  l <> [] -> removelast (a :: l) = a :: removelast l.
Proof. destruct l; [intros H; contradiction H; reflexivity | reflexivity]. Qed.

Lemma nextHeadOf_snake (st : State) (nextHead : Position) :
  nextHeadOf st = Some nextHead -> snake st <> [].
Proof.
  unfold nextHeadOf. cbv zeta.
  destruct (dequeueDirection_keeps st) as (_ & Hsn & _). rewrite Hsn.
  destruct (snake st); [discriminate | discriminate].
Qed.

(** X12: on a tick that does not collide the snake follows its head: the new
    head is nextHead, and behind it comes the old snake, without its last cell
    when no food lies on nextHead and whole when food does; a tick of
    index.tsx that collides leaves the snake as it is. *)
Theorem snake_follows_its_head
    (random : nat -> Q) (now : Z) (st : State) (nextHead : Position)
    (Hnext : nextHeadOf st = Some nextHead) :
  (Index.collides now nextHead (Index.dequeueDirection st) = false ->
     let st' := Index.updateGameLogic random now st in
     (foodAt nextHead st = None ->
        snake st' = nextHead :: removelast (snake st))
     /\ (forall f, foodAt nextHead st = Some f ->
           snake st' = nextHead :: snake st))
  /\ (Index.collides now nextHead (Index.dequeueDirection st) = true ->
      snake (Index.updateGameLogic random now st) = snake st)
  /\ (Part000_runsOut st = false ->
      Part000.collides now nextHead
        (set_timeLeft (double_sub (timeLeft st) double_0_1)
           (Index.dequeueDirection st)) = false ->
      let st' := Part000.updateGameLogic random now st in
      (foodAt nextHead st = None ->
         snake st' = nextHead :: removelast (snake st))
      /\ (forall f, foodAt nextHead st = Some f ->
            snake st' = nextHead :: snake st)).
Proof.
  pose proof (nextHeadOf_snake st nextHead Hnext) as Hne.
  destruct (dequeueDirection_keeps st)
    as (_ & Hsn & _ & _ & _ & Hfo & _).
  split; [| split].
  - intros Hc. cbv zeta.
    rewrite (Index_tick_unfold random now st nextHead Hnext Hc).
    destruct (Index_updateTimer_keeps now
                (Index.powerUpCollision now nextHead
                   (Index.foodCollision random nextHead
                      (Index.dequeueDirection st)))) as (_ & -> & _).
    rewrite Index_powerUpCollision_snake.
    split.
    + intros Hfood.
      rewrite Index_foodCollision_none
        by (unfold foodAt; rewrite Hfo; exact Hfood).
      cbn [snake set_snake]. rewrite Hsn.
      apply removelast_cons_cons, Hne.
    + intros f Hfood.
      destruct (Index_foodCollision_eats random nextHead
                  (Index.dequeueDirection st) f) as (i & _ & ->);
        [unfold foodAt; rewrite Hfo; exact Hfood |].
      cbn [snake set_snake]. rewrite Hsn. reflexivity.
  - intros Hc.
    rewrite (Index_tick_with_collision random now st nextHead Hnext Hc).
    exact Hsn.
  - intros Htime Hc. cbv zeta.
    rewrite (Part000_tick_unfold random now st nextHead Htime Hnext). cbv zeta.
    rewrite Hc.
    set (st1 := set_timeLeft _ (Index.dequeueDirection st)) in *.
    assert (Hs1 : snake st1 = snake st) by exact Hsn.
    assert (Hf1 : foods st1 = foods st) by exact Hfo.
    clearbody st1.
    split.
    + intros Hfood.
      rewrite Part000_eatFood_none
        by (unfold foodAt; rewrite Hf1; exact Hfood).
      cbn [fst snd snake set_snake]. rewrite Hs1.
      apply removelast_cons_cons, Hne.
    + intros f Hfood.
      destruct (Part000_eatFood_eats random nextHead st1 f) as (i & _ & ->);
        [unfold foodAt; rewrite Hf1; exact Hfood |].
      cbn [fst snd snake set_snake]. rewrite Hs1. reflexivity.
Qed.

(** The theorem on the first tick of a new game of index.tsx: no food lies on
    (0, 1), and the snake moves up by one cell. *)
Lemma snake_follows_its_head_witness :
  let st := Index.run zeroRandom [ClickPlay] initialState in
  nextHeadOf st = Some {| px := 0; pz := 1 |}
  /\ snake st = [ {| px := 0; pz := 2 |}; {| px := 0; pz := 3 |};
                  {| px := 0; pz := 4 |} ]
  /\ snake (Index.updateGameLogic zeroRandom (epoch + 201) st)
     = {| px := 0; pz := 1 |} :: removelast (snake st).
Proof.
  cbv zeta.
  set (st := Index.run zeroRandom [ClickPlay] initialState).
  assert (Hn : nextHeadOf st = Some {| px := 0; pz := 1 |})
    by (vm_compute; reflexivity).
  split; [exact Hn |]. split; [vm_compute; reflexivity |].
  destruct (snake_follows_its_head zeroRandom (epoch + 201) st
              {| px := 0; pz := 1 |} Hn) as (Hmove & _).
  apply Hmove; vm_compute; reflexivity.
Defined.

(** ** Outside PLAYING *)

Section Idle.
Variable random : nat -> Q.

Lemma Index_step_idle (e : Event) (st : State) :
  gameState st <> PLAYING -> isFrameOrDirectionKey e = true ->
  Index.step random e st = st.
Proof.
  intros Hg He. destruct e; try discriminate He; cbn [Index.step].
  - unfold Index.animate.
    destruct (gameState st); try reflexivity. contradiction Hg; reflexivity.
  - cbn [isFrameOrDirectionKey] in He. unfold Index.handleKeyDown.
    destruct key; try discriminate He;
      (destruct (gameState st); try reflexivity; contradiction Hg; reflexivity).
Qed.

Lemma Part000_step_idle (e : Event) (st : State) :
  gameState st <> PLAYING -> isFrameOrDirection e = true ->
  Part000.step random e st = st.
Proof.
  intros Hg He. destruct e; try discriminate He; cbn [Part000.step].
  - unfold Part000.animate.
    destruct (gameState st); try reflexivity. contradiction Hg; reflexivity.
  - cbn [isFrameOrDirection isFrameOrDirectionKey] in He.
    unfold Part000.handleKeyDown.
    destruct key; try discriminate He;
      (destruct (gameState st); try reflexivity; contradiction Hg; reflexivity).
  - unfold Part000.handleTouch.
    destruct (gameState st); try reflexivity. contradiction Hg; reflexivity.
Qed.

Lemma Index_run_idle (events : list Event) (st : State) :
  gameState st <> PLAYING -> forallb isFrameOrDirectionKey events = true ->
  Index.run random events st = st.
Proof.
  intros Hg. unfold Index.run.
  induction events as [| e events IH]; intros He; [reflexivity |].
  cbn [forallb] in He. apply andb_true_iff in He. destruct He as (He & Hes).
  cbn [fold_left]. rewrite (Index_step_idle e st Hg He). apply IH, Hes.
Qed.

Lemma Part000_run_idle (events : list Event) (st : State) :
  gameState st <> PLAYING -> forallb isFrameOrDirection events = true ->
  Part000.run random events st = st.
Proof.
  intros Hg. unfold Part000.run.
  induction events as [| e events IH]; intros He; [reflexivity |].
  cbn [forallb] in He. apply andb_true_iff in He. destruct He as (He & Hes).
  cbn [fold_left]. rewrite (Part000_step_idle e st Hg He). apply IH, Hes.
Qed.

Lemma Index_run_app (a b : list Event) (st : State) :
  Index.run random (a ++ b) st = Index.run random b (Index.run random a st).
Proof. unfold Index.run. apply fold_left_app. Qed.

Lemma Part000_run_app (a b : list Event) (st : State) :
  Part000.run random (a ++ b) st
  = Part000.run random b (Part000.run random a st).
Proof. unfold Part000.run. apply fold_left_app. Qed.
End Idle.

(** X13: while the game is not PLAYING (on the start screen, paused, in the
    level transition, after the crash) frames and direction keys change
    nothing, in part_000 neither do the on-screen direction buttons: no tick
    runs and no direction is queued. *)
Theorem nothing_moves_outside_PLAYING
    (random : nat -> Q) (events : list Event) (st : State)
    (Hstate : gameState st <> PLAYING) :
  (forallb isFrameOrDirectionKey events = true ->
     Index.run random events st = st)
  /\ (forallb isFrameOrDirection events = true ->
      Part000.run random events st = st).
Proof.
  split.
  - apply Index_run_idle, Hstate.
  - apply Part000_run_idle, Hstate.
Qed.

Lemma nothing_moves_outside_PLAYING_witness :
  let events := [Frame 500 (epoch + 500); KeyDown 500 ArrowLeft;
                 Frame 1000 (epoch + 1000)] in
  Index.run zeroRandom events initialState = initialState
  /\ Part000.run zeroRandom (events ++ [PointerDown UP]) initialState
     = initialState.
Proof.
  cbv zeta.
  assert (Hs : gameState initialState <> PLAYING) by discriminate.
  split.
  - apply (proj1 (nothing_moves_outside_PLAYING zeroRandom _ initialState Hs)).
    reflexivity.
  - apply (proj2 (nothing_moves_outside_PLAYING zeroRandom _ initialState Hs)).
    reflexivity.
Defined.

(** X14: pausing a running game, then any frames and direction keys (in
    part_000 also on-screen direction buttons), then resuming: index.tsx is
    back in the very state it was paused in; part_000 is too, except that the
    time of the last move is the time of the resume. *)
Theorem pause_and_resume
    (random : nat -> Q) (events : list Event) (st : State) (t t' : Z)
    (Hplaying : gameState st = PLAYING) :
  (forallb isFrameOrDirectionKey events = true ->
     Index.run random (ClickPause t :: events ++ [ClickPause t']) st = st)
  /\ (forallb isFrameOrDirection events = true ->
      Part000.run random (ClickPause t :: events ++ [ClickPause t']) st
      = set_lastMoveTime t' st).
Proof.
  split; intros He.
  - change (ClickPause t :: events ++ [ClickPause t'])
      with ([ClickPause t] ++ events ++ [ClickPause t']).
    rewrite !Index_run_app.
    assert (H1 : Index.run random [ClickPause t] st = set_gameState PAUSED st).
    { unfold Index.run. cbn [fold_left Index.step]. unfold Index.togglePause.
      rewrite Hplaying. reflexivity. }
    rewrite H1.
    rewrite (Index_run_idle random events (set_gameState PAUSED st))
      by (discriminate || exact He).
    unfold Index.run. cbn [fold_left Index.step]. unfold Index.togglePause.
    cbn [gameState set_gameState].
    destruct st; cbn in Hplaying; subst; reflexivity.
  - change (ClickPause t :: events ++ [ClickPause t'])
      with ([ClickPause t] ++ events ++ [ClickPause t']).
    rewrite !Part000_run_app.
    assert (H1 : Part000.run random [ClickPause t] st = set_gameState PAUSED st).
    { unfold Part000.run. cbn [fold_left Part000.step]. rewrite Hplaying.
      unfold Part000.togglePause. rewrite Hplaying. reflexivity. }
    rewrite H1.
    rewrite (Part000_run_idle random events (set_gameState PAUSED st))
      by (discriminate || exact He).
    unfold Part000.run. cbn [fold_left Part000.step gameState set_gameState].
    unfold Part000.togglePause. cbn [gameState set_gameState].
    destruct st; cbn in Hplaying; subst; reflexivity.
Qed.

Lemma pause_and_resume_witness :
  let st := Index.run zeroRandom [ClickPlay] initialState in
  let pt := Part000.run zeroRandom [ClickPlay] initialState in
  let events := [Frame 5000 (epoch + 5000); KeyDown 5000 ArrowLeft] in
  Index.run zeroRandom (ClickPause 300 :: events ++ [ClickPause 9000]) st = st
  /\ Part000.run zeroRandom (ClickPause 300 :: events ++ [ClickPause 9000]) pt
     = set_lastMoveTime 9000 pt.
Proof.
  cbv zeta.
  set (st := Index.run zeroRandom [ClickPlay] initialState).
  set (pt := Part000.run zeroRandom [ClickPlay] initialState).
  assert (Hs : gameState st = PLAYING) by (vm_compute; reflexivity).
  assert (Hp : gameState pt = PLAYING) by (vm_compute; reflexivity).
  split.
  - apply (proj1 (pause_and_resume zeroRandom _ st 300 9000 Hs)).
    reflexivity.
  - apply (proj2 (pause_and_resume zeroRandom _ pt 300 9000 Hp)).
    reflexivity.
Defined.

(** ** A new game *)

(** X15: a new game, whatever the state it is started from.  Both files set
    the game to PLAYING at level 1 with score and snapshot 0, a full countdown,
    both intervals at 200 ms, the direction up, an empty queue, no
    invulnerability and no boost, the start snake and five food items.  The
    timers of an earlier level transition stay registered.  index.tsx keeps
    the pulse timer; part_000 clears it, but keeps the power-up of the game
    before. *)
Theorem new_game_state (random : nat -> Q) (st : State) :
  (let st' := Index.startGame random st in
   gameState st' = PLAYING /\ level st' = 1
   /\ score st' = 0 /\ levelStartScore st' = 0
   /\ timeLeft st' = double_of_Z LEVEL_DURATION
   /\ moveInterval st' = 200 /\ baseLevelSpeed st' = 200
   /\ direction st' = {| px := 0; pz := -1 |} /\ moveQueue st' = []
   /\ ghostModeEndTime st' = 0 /\ speedBoostEndTime st' = 0
   /\ snake st' = [ {| px := 0; pz := 2 |}; {| px := 0; pz := 3 |};
                    {| px := 0; pz := 4 |} ]
   /\ List.length (foods st') = 5%nat
   /\ timeouts st' = timeouts st
   /\ dogPulseEndTime st' = dogPulseEndTime st)
  /\ (let st' := Part000.startGame random st in
      gameState st' = PLAYING /\ level st' = 1
      /\ score st' = 0 /\ levelStartScore st' = 0
      /\ timeLeft st' = double_of_Z LEVEL_DURATION
      /\ moveInterval st' = 200 /\ baseLevelSpeed st' = 200
      /\ direction st' = {| px := 0; pz := -1 |} /\ moveQueue st' = []
      /\ ghostModeEndTime st' = 0 /\ speedBoostEndTime st' = 0
      /\ snake st' = [ {| px := 0; pz := 0 |} ]
      /\ List.length (foods st') = 5%nat
      /\ timeouts st' = timeouts st
      /\ dogPulseEndTime st' = 0
      /\ powerUp st' = powerUp st).
Proof.
  cbv zeta. split.
  - unfold Index.startGame.
    destruct (Index_resetGame_core random true st)
      as (Hg & Hsn & Hd & Hq & Hc & Hpu & Hto & _ & _
          & Hs & Hl & Ht & Hm & Hb & Hls & Hgh & Hbo).
    rewrite Hl in Hc.
    repeat split; try assumption. lia.
  - unfold Part000.startGame.
    destruct (Part000_resetGame_core random 1 (set_gameState PLAYING st))
      as (Hg & Hl & Hsn & Hd & Hq & Ht & Hb & Hm & Hgh & Hbo & Hpu & Hc & Hs
          & Hls & Hp & Hto & _).
    rewrite Hs in Hls.
    repeat split; try assumption.
Qed.
